(** * Identity reconciliation and verification relay

    A shallow embedding of the JavaScript programs of the repository:

    - the reconciliation engine of the React front end ([normalizePostcode],
      [getLevenshteinDistance], [calculateSimilarity], [performMatching]);
    - the relay worker ([onRequest]) that forwards to the verification
      provider;
    - the page component ([App] with [startJumio] and [fetchJumioData]),
      as the machine its handlers make of the cells of [useState];
    - the earlier reconciliation routine of [src/App.jsx], which has no
      city check.

    Conventions of the embedding.

    - A JavaScript string is the list of its UTF-16 code units, each a
      number of [N].  White space ([trim], the class [\s]) is the set of
      code units ECMAScript names; all of them lie in the basic plane, so
      both operations are defined here unit by unit.
    - [toLowerCase] and [toUpperCase] follow the Unicode tables of the
      engine: they depend on context and can change the length of a string.
      They are not defined here: they are the fields of an [Engine], and a
      theorem that needs a fact about them says so by a hypothesis
      ([AsciiLaws], [LowerLaws], [UpperLaws]).
    - A value read from parsed JSON is a [json]; [any] adds [undefined].
    - Lengths and distances are [nat]; the similarity score is the binary64
      number the engine computes, a primitive [float].
    - Code that can throw, or read a cell that was never written, lives in
      the [completion] monad. *)

From Stdlib Require Import QArith Qabs Lqa Ascii String Floats NArith.
From stdpp Require Import base decidable option list strings.

(** ** Abrupt completion *)

Inductive error : Type :=
  | TypeError                      (* a property read on undefined or null, a call of what is no function *)
  | UndefinedCell                  (* arithmetic on an array cell never written *)
  | InvalidCharacterError          (* btoa on a code unit above U+00FF *)
  | HostError (message : list N).  (* rejection raised by the host platform *)

Inductive completion (A : Type) : Type :=
  | Normal (a : A)
  | Throw (e : error).
Arguments Normal {A} a.
Arguments Throw {A} e.

Global Instance completion_ret : MRet completion := fun A a => Normal a.
Global Instance completion_bind : MBind completion := fun A B f m =>
  match m with
  | Normal a => f a
  | Throw e => Throw e
  end.

(** ** JavaScript values *)

Module JS.

(** A string: its UTF-16 code units. *)
Abbreviation jsstring := (list N).

(** A string literal of the source (all of them are ASCII). *)
Definition str (s : string) : jsstring := N_of_ascii <$> list_ascii_of_string s.

(** A string, or [undefined]/[null]. *)
Abbreviation value := (option jsstring).

(** ToBoolean on [value]: [undefined], [null] and the empty string are falsy. *)
Definition truthy (v : value) : bool :=
  match v with
  | Some (_ :: _) => true
  | _ => false
  end.

(** [v || d] where [d] is a string. *)
Definition or_else (v : value) (d : jsstring) : jsstring :=
  match v with
  | Some s => if truthy v then s else d
  | None => d
  end.

(** [`${v}`]: a string as it is, [undefined] by its name. *)
Definition template (v : value) : jsstring :=
  match v with
  | Some s => s
  | None => str "undefined"
  end.

(** White space as [trim] and the regular expression class [\s] see it:
    TAB, LF, VT, FF, CR, SPACE, NO-BREAK SPACE, OGHAM SPACE MARK, EN QUAD to
    HAIR SPACE, LINE and PARAGRAPH SEPARATOR, NARROW NO-BREAK SPACE, MEDIUM
    MATHEMATICAL SPACE, IDEOGRAPHIC SPACE and ZERO WIDTH NO-BREAK SPACE. *)
Definition is_space (c : N) : bool :=
  ((0x9 <=? c) && (c <=? 0xD) || (c =? 0x20) || (c =? 0xA0) || (c =? 0x1680)
   || (0x2000 <=? c) && (c <=? 0x200A) || (c =? 0x2028) || (c =? 0x2029)
   || (c =? 0x202F) || (c =? 0x205F) || (c =? 0x3000) || (c =? 0xFEFF))%N.

Fixpoint trimStart (s : jsstring) : jsstring :=
  match s with
  | c :: s' => if is_space c then trimStart s' else s
  | [] => []
  end.

Definition trimEnd (s : jsstring) : jsstring := reverse (trimStart (reverse s)).

Definition trim (s : jsstring) : jsstring := trimEnd (trimStart s).

(** [s.replace(/\s+/g, '')]: every maximal run of white space is deleted. *)
Definition remove_spaces (s : jsstring) : jsstring :=
  filter (fun c => is_space c = false) s.

(** [s.charAt(i)]: the one-unit string at [i], or the empty string. *)
Definition charAt (s : jsstring) (i : nat) : jsstring :=
  match s !! i with
  | Some c => [c]
  | None => []
  end.

(** [a[i] = v] on an array: overwrite inside, extend by one at the end.
    A write further out would leave holes, which the model does not have. *)
Definition array_set {A : Type} (a : list A) (i : nat) (v : A) : completion (list A) :=
  if decide (i < length a) then Normal (<[i:=v]> a)
  else if decide (i = length a) then Normal (a ++ [v])
  else Throw UndefinedCell.

(** [for (let i = lo; i < lo + n; i++) body] on a state passed along. *)
Fixpoint for_range {St : Type} (lo n : nat) (body : nat -> St -> completion St) (s : St)
  : completion St :=
  match n with
  | 0 => Normal s
  | S n' => s' ← body lo s; for_range (S lo) n' body s'
  end.

(** *** Parsed JSON *)

(** What [request.json()] and [response.json()] give and [JSON.stringify]
    takes.  An object is the list of its entries; a number is the value
    that was parsed. *)
#[warnings="-register-all"]
Inductive json : Type :=
  | JNull
  | JBool (b : bool)
  | JNumber (q : Q)
  | JString (s : jsstring)
  | JArray (items : list json)
  | JObject (fields : list (jsstring * json)).

(** A parsed value, or [undefined]. *)
Abbreviation any := (option json).

(** The first entry under a key: [URLSearchParams.get] and own-property lookup. *)
Fixpoint assoc {A : Type} (k : jsstring) (l : list (jsstring * A)) : option A :=
  match l with
  | [] => None
  | (k', v) :: l' => if decide (k = k') then Some v else assoc k l'
  end.

(** [body.name] on a parsed body: [null] has no properties and the read
    throws; an object gives its entry or [undefined]; other values have no
    such property.  (The names the programs read, [document], [firstName],
    [userEmail] and the like, are properties of no prototype.) *)
Definition get_property (body : json) (name : jsstring) : completion (option json) :=
  match body with
  | JNull => Throw TypeError
  | JObject fields => Normal (assoc name fields)
  | _ => Normal None
  end.

(** [o.name] where [o] may also be [undefined]. *)
Definition member (o : any) (name : jsstring) : completion any :=
  match o with
  | Some v => get_property v name
  | None => Throw TypeError
  end.

(** [o?.name]: [undefined] when [o] is [undefined] or [null]. *)
Definition opt_member (o : any) (name : jsstring) : any :=
  match o with
  | Some (JObject fields) => assoc name fields
  | _ => None
  end.

(** ToBoolean on a parsed value or [undefined]. *)
Definition json_truthy (v : option json) : bool :=
  match v with
  | None => false
  | Some JNull => false
  | Some (JBool b) => b
  | Some (JNumber q) => negb (Qeq_bool q 0)
  | Some (JString s) => truthy (Some s)
  | Some (JArray _) => true
  | Some (JObject _) => true
  end.

(** [v || d] on parsed values. *)
Definition json_or_else (v : option json) (d : json) : json :=
  match v with
  | Some x => if json_truthy v then x else d
  | None => d
  end.

(** [s === v] where [s] is a string: no other value is strictly equal to it. *)
Definition strict_equal (s : jsstring) (v : json) : bool :=
  match v with
  | JString s' => bool_decide (s = s')
  | _ => false
  end.

(** *** Numbers *)

(** A length or a distance as a JavaScript number (exact below 2^53). *)
Definition of_nat (n : nat) : float := PrimFloat.of_uint63 (Uint63.of_Z (Z.of_nat n)).

(** [x >= t] on numbers. *)
Definition geq (x t : float) : bool := PrimFloat.leb t x.

(** *** What the engine supplies *)

(** The case conversions of [String.prototype], and ToString on the parsed
    values that are not strings (the digits of a number, the joined
    elements of an array, [[object Object]]; it throws on an object that
    has an entry named [toString]). *)
Class Engine : Type := {
  toLowerCase : jsstring -> jsstring;
  toUpperCase : jsstring -> jsstring;
  ToString_other : json -> completion jsstring
}.

(** ToString, as a template literal applies it to a parsed value. *)
Definition ToString `{Engine} (v : json) : completion jsstring :=
  match v with
  | JString s => Normal s
  | _ => ToString_other v
  end.

(** *** [btoa] *)

(** The base64 alphabet: A-Z, a-z, 0-9, [+] and [/]. *)
Definition base64_digit (n : N) : N :=
  (if n <? 26 then 65 + n
   else if n <? 52 then 97 + (n - 26)
   else if n <? 62 then 48 + (n - 52)
   else if n =? 62 then 43 else 47)%N.

(** Three bytes give four digits; one or two bytes at the end are padded with [=]. *)
Fixpoint base64 (bytes : list N) : list N :=
  match bytes with
  | [] => []
  | [a] => [base64_digit (a / 4); base64_digit (a mod 4 * 16); 61; 61]%N
  | [a; b] =>
      [base64_digit (a / 4); base64_digit (a mod 4 * 16 + b / 16);
       base64_digit (b mod 16 * 4); 61]%N
  | a :: b :: c :: rest =>
      [base64_digit (a / 4); base64_digit (a mod 4 * 16 + b / 16);
       base64_digit (b mod 16 * 4 + c / 64); base64_digit (c mod 64)]%N
      ++ base64 rest
  end.

(** [btoa(s)]: every code unit of [s] is taken as a byte; a code unit above
    U+00FF makes the call throw. *)
Definition btoa (s : jsstring) : completion jsstring :=
  if forallb (fun c => c <=? 0xFF)%N s then Normal (base64 s)
  else Throw InvalidCharacterError.

End JS.

(** ** What is assumed of the case conversions *)

Module Unicode.
Import JS.

Definition is_ascii (c : N) : bool := (c <? 0x80)%N.

(** The case pairs of ASCII. *)
Definition ascii_lower (c : N) : N :=
  if ((0x41 <=? c) && (c <=? 0x5A))%N then (c + 0x20)%N else c.

Definition ascii_upper (c : N) : N :=
  if ((0x61 <=? c) && (c <=? 0x7A))%N then (c - 0x20)%N else c.

(** On a string of ASCII code units both conversions are the ASCII ones. *)
Class AsciiLaws (E : Engine) : Prop := {
  lower_ascii (s : jsstring) :
    Forall (fun c => is_ascii c = true) s -> toLowerCase s = ascii_lower <$> s;
  upper_ascii (s : jsstring) :
    Forall (fun c => is_ascii c = true) s -> toUpperCase s = ascii_upper <$> s
}.

(** Lowercasing gives the empty string for the empty string only, and
    commutes with [trim]: white space has no case, no character is
    lowercased to white space or to nothing, and the one rule that looks
    at the neighbours of a character (the final sigma) looks for cased
    letters, which white space is not. *)
Class LowerLaws (E : Engine) : Prop := {
  lower_empty (s : jsstring) : toLowerCase s = [] <-> s = [];
  trim_lower (s : jsstring) : trim (toLowerCase s) = toLowerCase (trim s)
}.

(** Uppercasing twice is uppercasing once, and no character is uppercased
    to white space. *)
Class UpperLaws (E : Engine) : Prop := {
  upper_idem (s : jsstring) : toUpperCase (toUpperCase s) = toUpperCase s;
  upper_no_space (s : jsstring) :
    Forall (fun c => is_space c = false) s ->
    Forall (fun c => is_space c = false) (toUpperCase s)
}.

(** The engine restricted to what it does on ASCII: the case pairs of
    ASCII, every other code unit left alone.  It stands in for the engine
    wherever a theorem is applied to concrete ASCII strings. *)
Definition ascii_engine : Engine := {|
  toLowerCase := fmap ascii_lower;
  toUpperCase := fmap ascii_upper;
  ToString_other := fun _ => Normal (str "[object Object]")
|}.

End Unicode.

(** ** The reconciliation engine *)

Module Matching.
Import JS.

(** The array of rows built by [getLevenshteinDistance]. *)
Abbreviation matrix := (list (list nat)).

(** [matrix[i]], about to be indexed: a missing row makes the access throw. *)
Definition get_row (m : matrix) (i : nat) : completion (list nat) :=
  match m !! i with
  | Some row => Normal row
  | None => Throw TypeError
  end.

(** [matrix[i][j]] read as a number. *)
Definition get_cell (m : matrix) (i j : nat) : completion nat :=
  row ← get_row m i;
  match row !! j with
  | Some v => Normal v
  | None => Throw UndefinedCell
  end.

(** [matrix[i][j] = v]: the row object is updated in place. *)
Definition set_cell (m : matrix) (i j v : nat) : completion matrix :=
  row ← get_row m i;
  row' ← array_set row j v;
  Normal (<[i:=row']> m).

(** The body of the inner loop, at row [i] and column [j]. *)
Definition fill_cell (a b : jsstring) (i j : nat) (m : matrix) : completion matrix :=
  if decide (charAt b (i - 1) = charAt a (j - 1)) then
    d ← get_cell m (i - 1) (j - 1);
    set_cell m i j d
  else
    x ← get_cell m (i - 1) (j - 1);
    y ← get_cell m i (j - 1);
    z ← get_cell m (i - 1) j;
    set_cell m i j (Nat.min (x + 1) (Nat.min (y + 1) (z + 1))).

Definition getLevenshteinDistance (a b : jsstring) : completion nat :=
  let m : matrix := [] in
  if negb (truthy (Some a)) || negb (truthy (Some b)) then Normal 0 else
  m ← for_range 0 (S (length b)) (fun i m => array_set m i [i]) m;
  m ← for_range 0 (S (length a)) (fun j m => set_cell m 0 j j) m;
  m ← for_range 1 (length b) (fun i m =>
         for_range 1 (length a) (fun j m => fill_cell a b i j m) m) m;
  get_cell m (length b) (length a).

(** What the user typed into the registration form. *)
Module Reg.
Record t : Type := {
  firstName : jsstring;
  lastName : jsstring;
  dob : jsstring;
  houseNo : jsstring;
  street : jsstring;
  flat : jsstring;
  postcode : jsstring;
  city : jsstring
}.
End Reg.

(** The local object [docData]: each field holds what the payload holds
    there when that is truthy, and a default string otherwise. *)
Module Doc.
Record t : Type := {
  firstName : json;
  lastName : json;
  dob : json;
  postcode : json;
  addressLine : json;
  city : json;
  type : json;
  country : json
}.
End Doc.

(** The text of a check.  The fuzzy checks print
    [`Similarity: ${sim.toFixed(0)}%`]; the score is kept, its digits are
    the renderer's. *)
Inductive Message : Type :=
  | Text (s : jsstring)
  | SimilarityPercent (sim : float).

Record FieldCheck : Type := {
  field : jsstring;
  reg : jsstring;
  doc : json;
  match_ : bool;
  message : Message
}.

Record Report : Type := { passed : bool; checks : list FieldCheck }.

(** [report.checks.push(c)] *)
Definition push (report : Report) (c : FieldCheck) : Report :=
  {| passed := passed report; checks := checks report ++ [c] |}.

(** [report.passed = b] *)
Definition set_passed (report : Report) (b : bool) : Report :=
  {| passed := b; checks := checks report |}.

Notation "o ?. f" := (opt_member o (str f)) (at level 15, left associativity, only parsing).

(** The object literal that initialises [docData]: eight reads of
    [jumioData.document], each followed by optional chaining and a default. *)
Definition prepare (jumioData : any) : completion Doc.t :=
  d1 ← member jumioData (str "document");
  d2 ← member jumioData (str "document");
  d3 ← member jumioData (str "document");
  d4 ← member jumioData (str "document");
  d5 ← member jumioData (str "document");
  d6 ← member jumioData (str "document");
  d7 ← member jumioData (str "document");
  d8 ← member jumioData (str "document");
  Normal {|
    Doc.firstName := json_or_else (d1 ?. "firstName") (JString (str ""));
    Doc.lastName := json_or_else (d2 ?. "lastName") (JString (str ""));
    Doc.dob := json_or_else (d3 ?. "dob") (JString (str ""));
    Doc.postcode := json_or_else (d4 ?. "address" ?. "postalCode") (JString (str ""));
    Doc.addressLine := json_or_else (d5 ?. "address" ?. "line1") (JString (str ""));
    Doc.city := json_or_else (d6 ?. "address" ?. "city") (JString (str ""));
    Doc.type := json_or_else (d7 ?. "type") (JString (str "UNKNOWN"));
    Doc.country := json_or_else (d8 ?. "issuingCountry") (JString (str "UNKNOWN"))
  |}.

Section Engine.
Context {E : Engine}.

(** [pc ? pc.replace(/\s+/g, '').toUpperCase() : '']: a truthy value that
    is no string has no [replace] to call. *)
Definition normalizePostcode (pc : any) : completion jsstring :=
  if json_truthy pc then
    match pc with
    | Some (JString s) => Normal (toUpperCase (remove_spaces s))
    | _ => Throw TypeError
    end
  else Normal (str "").

(** [(v || '').toLowerCase().trim()]: a truthy value that is no string has
    no [toLowerCase] to call. *)
Definition lower_trim (v : any) : completion jsstring :=
  match json_or_else v (JString (str "")) with
  | JString s => Normal (trim (toLowerCase s))
  | _ => Throw TypeError
  end.

Definition calculateSimilarity (str1 str2 : any) : completion float :=
  s1 ← lower_trim str1;
  s2 ← lower_trim str2;
  if decide (s1 = s2) then Normal 100%float else
  if negb (truthy (Some s1)) || negb (truthy (Some s2)) then Normal 0%float else
  distance ← getLevenshteinDistance s1 s2;
  let longest := Nat.max (length s1) (length s2) in
  Normal (((of_nat longest - of_nat distance) / of_nat longest) * 100)%float.

Definition performMatching (regData : Reg.t) (jumioData : any) : completion Report :=
  docData ← prepare jumioData;
  let regFullAddress := trim (Reg.houseNo regData ++ str " " ++ Reg.street regData) in
  let report := {| passed := false; checks := [] |} in
  (* CHECK 1: DOB *)
  let dobMatch := strict_equal (Reg.dob regData) (Doc.dob docData) in
  let report := push report {|
    field := str "Date of Birth"; reg := Reg.dob regData; doc := Doc.dob docData;
    match_ := dobMatch;
    message := Text (if dobMatch then str "Match" else str "Mismatch") |} in
  (* CHECK 2: Postcode *)
  regPC ← normalizePostcode (Some (JString (Reg.postcode regData)));
  docPC ← normalizePostcode (Some (Doc.postcode docData));
  let pcMatch := bool_decide (regPC = docPC) in
  let report := push report {|
    field := str "Postcode"; reg := regPC; doc := JString docPC; match_ := pcMatch;
    message := Text (if pcMatch then str "Match" else str "Mismatch") |} in
  (* CHECK 3: Last Name *)
  lnSim ← calculateSimilarity (Some (JString (Reg.lastName regData)))
            (Some (Doc.lastName docData));
  let lnMatch := geq lnSim 85 in
  let report := push report {|
    field := str "Last Name"; reg := Reg.lastName regData; doc := Doc.lastName docData;
    match_ := lnMatch; message := SimilarityPercent lnSim |} in
  (* CHECK 4: First Name *)
  fnSim ← calculateSimilarity (Some (JString (Reg.firstName regData)))
            (Some (Doc.firstName docData));
  let fnMatch := geq fnSim 85 in
  let report := push report {|
    field := str "First Name"; reg := Reg.firstName regData; doc := Doc.firstName docData;
    match_ := fnMatch; message := SimilarityPercent fnSim |} in
  (* CHECK 5: Address *)
  adSim ← calculateSimilarity (Some (JString regFullAddress)) (Some (Doc.addressLine docData));
  let adMatch := geq adSim 70 in
  let report := push report {|
    field := str "Address Match"; reg := regFullAddress; doc := Doc.addressLine docData;
    match_ := adMatch; message := SimilarityPercent adSim |} in
  (* CHECK 6: City *)
  citySim ← calculateSimilarity (Some (JString (Reg.city regData))) (Some (Doc.city docData));
  let cityMatch := geq citySim 80 in
  let report := push report {|
    field := str "City"; reg := Reg.city regData; doc := Doc.city docData;
    match_ := cityMatch; message := SimilarityPercent citySim |} in
  (* CHECK 7: Document Rules *)
  let docValid := true in
  let isUKDL := strict_equal (str "DRIVING_LICENSE") (Doc.type docData)
                && strict_equal (str "GBR") (Doc.country docData) in
  '(report, docValid) ←
    (if negb isUKDL then
       country ← ToString (Doc.country docData);
       type ← ToString (Doc.type docData);
       Normal
         (push report {|
            field := str "Document Rules"; reg := str "UK Logic";
            doc := JString (country ++ str " " ++ type); match_ := false;
            message := Text (str "Non-UK Driving License. Proof of Address required.") |},
          false)
     else
       Normal
         (push report {|
            field := str "Document Rules"; reg := str "UK Logic";
            doc := JString (str "UK Driving License"); match_ := true;
            message := Text (str "Address verified via License.") |},
          docValid));
  (* Final Pass Requirement *)
  let report :=
    set_passed report (dobMatch && pcMatch && lnMatch && fnMatch && adMatch && docValid) in
  Normal report.

End Engine.

End Matching.

(** ** The earlier reconciliation routine ([src/App.jsx]) *)

Module Legacy.
Import JS Matching.

(** The registration form of the earlier page: one address line, no city. *)
Module Reg.
Record t : Type := {
  firstName : jsstring;
  lastName : jsstring;
  dob : jsstring;
  address1 : jsstring;
  postcode : jsstring
}.
End Reg.

(** The local object [docData] of the earlier routine. *)
Module Doc.
Record t : Type := {
  firstName : json;
  lastName : json;
  dob : json;
  postcode : json;
  address1 : json;
  type : json;
  country : json
}.
End Doc.

Definition prepare (jumioData : any) : completion Doc.t :=
  d1 ← member jumioData (str "document");
  d2 ← member jumioData (str "document");
  d3 ← member jumioData (str "document");
  d4 ← member jumioData (str "document");
  d5 ← member jumioData (str "document");
  d6 ← member jumioData (str "document");
  d7 ← member jumioData (str "document");
  Normal {|
    Doc.firstName := json_or_else (d1 ?. "firstName") (JString (str ""));
    Doc.lastName := json_or_else (d2 ?. "lastName") (JString (str ""));
    Doc.dob := json_or_else (d3 ?. "dob") (JString (str ""));
    Doc.postcode := json_or_else (d4 ?. "address" ?. "postalCode") (JString (str ""));
    Doc.address1 := json_or_else (d5 ?. "address" ?. "line1") (JString (str ""));
    Doc.type := json_or_else (d6 ?. "type") (JString (str "UNKNOWN"));
    Doc.country := json_or_else (d7 ?. "issuingCountry") (JString (str "UNKNOWN"))
  |}.

Section Engine.
Context {E : Engine}.

Definition performMatching (regData : Reg.t) (jumioData : any) : completion Report :=
  docData ← prepare jumioData;
  let report := {| passed := false; checks := [] |} in
  (* 1. DOB *)
  let dobMatch := strict_equal (Reg.dob regData) (Doc.dob docData) in
  let report := push report {|
    field := str "Date of Birth"; reg := Reg.dob regData; doc := Doc.dob docData;
    match_ := dobMatch;
    message := Text (if dobMatch then str "Match" else str "Mismatch") |} in
  (* 2. Postcode *)
  regPC ← normalizePostcode (Some (JString (Reg.postcode regData)));
  docPC ← normalizePostcode (Some (Doc.postcode docData));
  let pcMatch := bool_decide (regPC = docPC) in
  let report := push report {|
    field := str "Postcode"; reg := regPC; doc := JString docPC; match_ := pcMatch;
    message := Text (if pcMatch then str "Match" else str "Mismatch") |} in
  (* 3. Last Name *)
  lnSim ← calculateSimilarity (Some (JString (Reg.lastName regData)))
            (Some (Doc.lastName docData));
  let lnMatch := geq lnSim 85 in
  let report := push report {|
    field := str "Last Name"; reg := Reg.lastName regData; doc := Doc.lastName docData;
    match_ := lnMatch; message := SimilarityPercent lnSim |} in
  (* 4. First Name *)
  fnSim ← calculateSimilarity (Some (JString (Reg.firstName regData)))
            (Some (Doc.firstName docData));
  let fnMatch := geq fnSim 85 in
  let report := push report {|
    field := str "First Name"; reg := Reg.firstName regData; doc := Doc.firstName docData;
    match_ := fnMatch; message := SimilarityPercent fnSim |} in
  (* 5. Address *)
  adSim ← calculateSimilarity (Some (JString (Reg.address1 regData)))
            (Some (Doc.address1 docData));
  let adMatch := geq adSim 70 in
  let report := push report {|
    field := str "Address Line 1"; reg := Reg.address1 regData; doc := Doc.address1 docData;
    match_ := adMatch; message := SimilarityPercent adSim |} in
  (* 6. Logic: Document Type *)
  let docValid := true in
  let isUKDL := strict_equal (str "DRIVING_LICENSE") (Doc.type docData)
                && strict_equal (str "GBR") (Doc.country docData) in
  '(report, docValid) ←
    (if negb isUKDL then
       country ← ToString (Doc.country docData);
       type ← ToString (Doc.type docData);
       Normal
         (push report {|
            field := str "Document Rules"; reg := str "UK Logic";
            doc := JString (country ++ str " " ++ type); match_ := false;
            message := Text (str "Non-UK Driving License. Proof of Address required.") |},
          false)
     else
       Normal
         (push report {|
            field := str "Document Rules"; reg := str "UK Logic";
            doc := JString (str "UK Driving License"); match_ := true;
            message := Text (str "Address verified via License.") |},
          docValid));
  let report :=
    set_passed report (dobMatch && pcMatch && lnMatch && fnMatch && adMatch && docValid) in
  Normal report.

End Engine.

(** The form of the earlier page that says what the later one says: the
    house number, one space and the street as its address line. *)
Definition of_registration (r : Matching.Reg.t) : Reg.t := {|
  Reg.firstName := Matching.Reg.firstName r;
  Reg.lastName := Matching.Reg.lastName r;
  Reg.dob := Matching.Reg.dob r;
  Reg.address1 := Matching.Reg.houseNo r ++ str " " ++ Matching.Reg.street r;
  Reg.postcode := Matching.Reg.postcode r |}.

End Legacy.

(** ** The relay worker *)

Module Relay.
Import JS.

(** [context.env] *)
Record Env : Type := {
  JUMIO_TOKEN : value;
  JUMIO_SECRET : value
}.

(** The incoming request: its method, the query of its URL, and what
    [await request.json()] completes with. *)
Record Request : Type := {
  method : jsstring;
  searchParams : list (jsstring * jsstring);
  request_json : completion json
}.

Record Context : Type := { env : Env; request : Request }.

(** The argument of an outgoing [fetch]. *)
Record FetchCall : Type := {
  fetch_url : jsstring;
  fetch_method : jsstring;
  fetch_headers : list (jsstring * jsstring);
  fetch_body : option json
}.

(** The provider's answer; only [response.json()] is used. *)
Record Upstream : Type := { upstream_json : completion json }.

(** What the platform supplies. *)
Record Host : Type := {
  fetch : FetchCall -> completion Upstream;
  randomUUID : jsstring;
  error_message : error -> jsstring
}.

Inductive Body : Type :=
  | Stringified (j : json)     (* JSON.stringify(j) *)
  | Plain (s : jsstring).

(** The arguments of [new Response(body, init)]: the body, and the status
    and the headers of [init] (200 and none when [init] does not give
    them). *)
Record Response : Type := {
  body : Body;
  status : nat;
  headers : list (jsstring * jsstring)
}.

(** [try { block } catch (err) { handler }] *)
Definition try_catch {A : Type} (block : completion A) (handler : error -> completion A)
  : completion A :=
  match block with
  | Normal a => Normal a
  | Throw e => handler e
  end.

Definition DATACENTER : jsstring := str "https://netverify.com/api/v4".

Definition json_headers : list (jsstring * jsstring) :=
  [(str "Content-Type", str "application/json")].

Definition onRequest (host : Host) (context : Context) : completion Response :=
  let JUMIO_TOKEN := JUMIO_TOKEN (env context) in
  let JUMIO_SECRET := JUMIO_SECRET (env context) in
  if negb (truthy JUMIO_TOKEN) || negb (truthy JUMIO_SECRET) then
    Normal {| body := Stringified (JObject [(str "error", JString (str "Missing API Keys in Cloudflare"))]);
              status := 500; headers := [] |}
  else
  let request := request context in
  auth ← btoa (template JUMIO_TOKEN ++ str ":" ++ template JUMIO_SECRET);
  (* 1. START SCAN (POST) *)
  if decide (method request = str "POST") then
    try_catch
      (body ← request_json request;
       userEmail ← get_property body (str "userEmail");
       response ← fetch host {|
         fetch_url := DATACENTER ++ str "/initiate";
         fetch_method := str "POST";
         fetch_headers := [(str "Authorization", str "Basic " ++ auth);
                           (str "Content-Type", str "application/json");
                           (str "User-Agent", str "Cloudflare Worker")];
         fetch_body := Some (JObject [
           (str "customerInternalReference", JString (randomUUID host));
           (str "userReference", json_or_else userEmail (JString (str "guest_user")));
           (str "successUrl", JString (str "https://example.com/success"));
           (str "errorUrl", JString (str "https://example.com/error"))]) |};
       data ← upstream_json response;
       Normal {| body := Stringified data; status := 200; headers := json_headers |})
      (fun err =>
       Normal {| body := Stringified (JObject [(str "error", JString (error_message host err))]);
                 status := 500; headers := [] |})
  else
  (* 2. GET RESULTS (GET) *)
  if decide (method request = str "GET") then
    let scanRef := assoc (str "scanReference") (searchParams request) in
    if negb (truthy scanRef) then
      Normal {| body := Plain (str "Missing Reference"); status := 400; headers := [] |}
    else
      response ← fetch host {|
        fetch_url := DATACENTER ++ str "/transactions/" ++ template scanRef;
        fetch_method := str "GET";
        fetch_headers := [(str "Authorization", str "Basic " ++ auth)];
        fetch_body := None |};
      data ← upstream_json response;
      Normal {| body := Stringified data; status := 200; headers := json_headers |}
  else
  Normal {| body := Plain (str "Method not allowed"); status := 405; headers := [] |}.

End Relay.

(** ** The front-end component *)

Module App.
Import JS Matching.

Abbreviation thrown := error.

(** The inputs of the registration form. *)
Inductive Field : Type :=
  | FirstName | LastName | Dob | HouseNo | Street | Flat | Postcode | City.

Global Instance Field_eq_dec : EqDecision Field.
Proof. solve_decision. Defined.

(** [{...regData, f: v}] *)
Definition with_field (r : Reg.t) (f : Field) (v : jsstring) : Reg.t :=
  {| Reg.firstName := if decide (f = FirstName) then v else Reg.firstName r;
     Reg.lastName := if decide (f = LastName) then v else Reg.lastName r;
     Reg.dob := if decide (f = Dob) then v else Reg.dob r;
     Reg.houseNo := if decide (f = HouseNo) then v else Reg.houseNo r;
     Reg.street := if decide (f = Street) then v else Reg.street r;
     Reg.flat := if decide (f = Flat) then v else Reg.flat r;
     Reg.postcode := if decide (f = Postcode) then v else Reg.postcode r;
     Reg.city := if decide (f = City) then v else Reg.city r |}.

(** What [startJumio] reads of the body of the backend's answer. *)
Record SessionData : Type := {
  transactionReference : value;
  authorizationToken : value
}.

(** The answer to [fetch('/api/jumio', {method: 'POST', ...})]: its [ok]
    flag and what [response.json()] completes with ([None] for [null]). *)
Record SessionResponse : Type := {
  ok : bool;
  session_json : completion (option SessionData)
}.

(** The answer to [fetch(`/api/jumio?scanReference=${scanRef}`)]: what
    [response.json()] completes with. *)
Record ResultsResponse : Type := {
  results_json : completion json
}.

(** What the browser supplies: the two requests to the backend, whether
    the vendor script defined [window.JumioClient], and the text an engine
    gives to the errors it raises itself. *)
Record Browser : Type := {
  post_session : completion SessionResponse;
  get_results : jsstring -> completion ResultsResponse;
  JumioClient : bool;
  engine_message : thrown -> jsstring
}.

(** [err.message]: an [Error] made with a message carries it. *)
Definition message_of (br : Browser) (err : thrown) : jsstring :=
  match err with
  | HostError m => m
  | _ => engine_message br err
  end.

(** The capture widget once [init] ran: the token it was given, and what
    its [success] callback closes over. *)
Record Widget : Type := {
  token : value;
  scanRef : value;
  registration : Reg.t
}.

(** The cells of [useState], and the widget of the page. *)
Record State : Type := {
  step : nat;
  loading : bool;
  error : value;
  regData : Reg.t;
  matchReport : option Report;
  widget : option Widget
}.

Definition setStep (s : State) (n : nat) : State :=
  {| step := n; loading := loading s; error := error s; regData := regData s;
     matchReport := matchReport s; widget := widget s |}.

Definition setLoading (s : State) (b : bool) : State :=
  {| step := step s; loading := b; error := error s; regData := regData s;
     matchReport := matchReport s; widget := widget s |}.

Definition setError (s : State) (e : value) : State :=
  {| step := step s; loading := loading s; error := e; regData := regData s;
     matchReport := matchReport s; widget := widget s |}.

Definition setRegData (s : State) (r : Reg.t) : State :=
  {| step := step s; loading := loading s; error := error s; regData := r;
     matchReport := matchReport s; widget := widget s |}.

Definition setMatchReport (s : State) (r : option Report) : State :=
  {| step := step s; loading := loading s; error := error s; regData := regData s;
     matchReport := r; widget := widget s |}.

(** [new window.JumioClient(container).init({...})] *)
Definition init (s : State) (w : Widget) : State :=
  {| step := step s; loading := loading s; error := error s; regData := regData s;
     matchReport := matchReport s; widget := Some w |}.

(** The state a page load starts from. *)
Definition initial : State := {|
  step := 1; loading := false; error := None;
  regData := {| Reg.firstName := str ""; Reg.lastName := str ""; Reg.dob := str "";
                Reg.houseNo := str ""; Reg.street := str ""; Reg.flat := str "";
                Reg.postcode := str ""; Reg.city := str "" |};
  matchReport := None; widget := None |}.

(** [o.f] where [o] may be [undefined] or [null]: the read throws then. *)
Definition prop {O A : Type} (o : option O) (f : O -> A) : completion A :=
  match o with
  | Some x => Normal (f x)
  | None => Throw TypeError
  end.

Definition startJumio (br : Browser) (s : State) : State :=
  let s := setLoading s true in
  let s := setError s None in
  let attempt : completion State :=
    response ← post_session br;
    _ ← (if negb (ok response)
         then Throw (HostError (str "Could not connect to Jumio backend."))
         else Normal tt);
    data ← session_json response;
    scanRef ← prop data transactionReference;
    if JumioClient br then
      authorizationToken ← prop data authorizationToken;
      Normal (init s {| token := authorizationToken; scanRef := scanRef;
                        registration := regData s |})
    else Normal s in
  match attempt with
  | Normal s' => s'
  | Throw err => setLoading (setError s (Some (message_of br err))) false
  end.

(** [!regData.postcode || !regData.street || !regData.houseNo] *)
Definition next_disabled (r : Reg.t) : bool :=
  negb (truthy (Some (Reg.postcode r))) || negb (truthy (Some (Reg.street r)))
  || negb (truthy (Some (Reg.houseNo r))).

(** What can happen to the page.  A handler is run to its end, awaits
    included, before the next event is looked at. *)
Inductive Event : Type :=
  | Change (f : Field) (v : jsstring)   (* typing into an input *)
  | NextStep                            (* the button of step 1 *)
  | StartVerification                   (* the button of step 2 *)
  | WidgetSuccess                       (* the widget calls [success] *)
  | WidgetError                         (* the widget calls [error] *)
  | StartAgain.                         (* the button of step 4: the page reloads *)

(** One line of the results table. *)
Record Row : Type := {
  row_field : jsstring;
  row_verdict : jsstring;
  row_message : Message
}.

Inductive Panel : Type :=
  | RegisterPanel (form : Reg.t) (disabled : bool)
  | VerificationRequiredPanel
  | ContainerPanel (spinner : bool) (errorBox : value)
  | ResultsPanel (green : bool) (heading : jsstring) (rows : list Row).

(** The children of [<main>]: each [cond && <div>...</div>] gives one panel or none. *)
Definition render (s : State) : list Panel :=
  (if decide (step s = 1)
   then [RegisterPanel (regData s) (next_disabled (regData s))] else [])
  ++ (if decide (step s = 2) then [VerificationRequiredPanel] else [])
  ++ (if decide (step s = 3)
      then [ContainerPanel (loading s && negb (truthy (error s)))
                           (if truthy (error s) then error s else None)]
      else [])
  ++ (if decide (step s = 4) then
        match matchReport s with
        | Some report =>
            [ResultsPanel (passed report)
               (if passed report then str "Verification Passed" else str "Verification Failed")
               ((fun check => {| row_field := field check;
                                 row_verdict := if match_ check then str "Pass" else str "Fail";
                                 row_message := message check |}) <$> checks report)]
        | None => []
        end
      else []).

Section Engine.
Context {E : Engine}.

Definition fetchJumioData (br : Browser) (regData : Reg.t) (scanRef : value) (s : State)
  : State :=
  let attempt : completion State :=
    response ← get_results br (str "/api/jumio?scanReference=" ++ template scanRef);
    apiData ← results_json response;
    report ← performMatching regData (Some apiData);
    let s := setMatchReport s (Some report) in
    Normal (setStep s 4) in
  let s :=
    match attempt with
    | Normal s' => s'
    | Throw err => setError s (Some (str "Failed to retrieve verification results."))
    end in
  setLoading s false.

(** The handler an event runs, [None] when the control is not on the page
    (or is disabled) in this state. *)
Definition handle (br : Browser) (s : State) (e : Event) : option State :=
  match e with
  | Change f v =>
      if decide (step s = 1) then Some (setRegData s (with_field (regData s) f v)) else None
  | NextStep =>
      if decide (step s = 1) then
        if next_disabled (regData s) then None else Some (setStep s 2)
      else None
  | StartVerification =>
      if decide (step s = 2) then Some (startJumio br (setStep s 3)) else None
  | WidgetSuccess =>
      match widget s with
      | Some w => Some (fetchJumioData br (registration w) (scanRef w) s)
      | None => None
      end
  | WidgetError =>
      match widget s with
      | Some w => Some (setLoading (setError s (Some (str "Verification cancelled."))) false)
      | None => None
      end
  | StartAgain =>
      if decide (step s = 4) then
        match matchReport s with
        | Some _ => Some initial
        | None => None
        end
      else None
  end.

(** The states a page can be in. *)
Inductive reachable (br : Browser) : State -> Prop :=
  | reachable_initial : reachable br initial
  | reachable_handle (s s' : State) (e : Event) :
      reachable br s -> handle br s e = Some s' -> reachable br s'.

(** The handlers of a sequence of events, one after the other. *)
Fixpoint run (br : Browser) (events : list Event) (s : State) : option State :=
  match events with
  | [] => Some s
  | e :: events' => s' ← handle br s e; run br events' s'
  end.

(** What holds of every state the page can be in (see [AppFacts.reachable_invariant]). *)
Record invariant (s : State) : Prop := {
  inv_step : 1 <= step s <= 4;
  inv_report : matchReport s <> None <-> step s = 4;
  inv_form : 2 <= step s -> next_disabled (regData s) = false;
  inv_widget : forall w, widget s = Some w -> 3 <= step s /\ registration w = regData s;
  inv_origin : forall report, matchReport s = Some report ->
    exists payload : json, performMatching (regData s) (Some payload) = Normal report
}.

End Engine.

End App.

(** ** Edit distance, as the specification words it *)

Module EditDistance.
Section Scripts.
Context {A : Type} `{EqDecision A}.

(** One edit: a single character inserted, deleted or substituted, anywhere
    in the string. *)
Inductive edit : list A -> list A -> Prop :=
  | edit_insert (p q : list A) (c : A) : edit (p ++ q) (p ++ c :: q)
  | edit_delete (p q : list A) (c : A) : edit (p ++ c :: q) (p ++ q)
  | edit_substitute (p q : list A) (c d : A) : edit (p ++ c :: q) (p ++ d :: q).

(** [transforms n s t]: [n] edits, one after the other, turn [s] into [t]. *)
Inductive transforms : nat -> list A -> list A -> Prop :=
  | transforms_done (s : list A) : transforms 0 s s
  | transforms_step (n : nat) (s t u : list A) :
      edit s t -> transforms n t u -> transforms (S n) s u.

(** [d] is the minimum number of edits that transform [s] into [t]. *)
Definition edit_distance (s t : list A) (d : nat) : Prop :=
  transforms d s t /\ forall n, transforms n s t -> d <= n.

(** An alignment of [s] with [t], read from the left, and its cost. *)
Inductive script : list A -> list A -> nat -> Prop :=
  | script_nil : script [] [] 0
  | script_keep (c : A) (s t : list A) (n : nat) :
      script s t n -> script (c :: s) (c :: t) n
  | script_substitute (c d : A) (s t : list A) (n : nat) :
      script s t n -> script (c :: s) (d :: t) (S n)
  | script_delete (c : A) (s t : list A) (n : nat) :
      script s t n -> script (c :: s) t (S n)
  | script_insert (d : A) (s t : list A) (n : nat) :
      script s t n -> script s (d :: t) (S n).

(** The textbook recurrence, on the first characters. *)
Fixpoint lev (s : list A) : list A -> nat :=
  fix lev_s (t : list A) : nat :=
    match s, t with
    | [], _ => length t
    | _, [] => length s
    | c :: s', d :: t' =>
        if decide (c = d) then lev s' t'
        else S (Nat.min (lev s' t') (Nat.min (lev s' t) (lev_s t')))
    end.

End Scripts.
End EditDistance.

(** ** The similarity score in binary64 and in exact arithmetic *)

Module Binary64.
Import JS.

(** A natural number in exact arithmetic. *)
Definition num (n : nat) : Q := inject_Z (Z.of_nat n).

(** [((longest - distance) / longest) * 100] as the engine evaluates it. *)
Definition score64 (longest distance : nat) : float :=
  ((of_nat longest - of_nat distance) / of_nat longest * 100)%float.

(** The same expression in exact arithmetic. *)
Definition score (longest distance : nat) : Q :=
  (((num longest - num distance) / num longest) * 100)%Q.

(** [x >= t] in exact arithmetic. *)
Definition exact_geq (x t : Q) : bool := Qle_bool t x.

(** The rational number a finite binary64 number is. *)
Definition to_Q (x : float) : Q :=
  match Prim2SF x with
  | S754_finite s m e =>
      let v := if s then Z.neg m else Z.pos m in
      match e with
      | Z.neg p => v # (2 ^ p)
      | _ => inject_Z (v * 2 ^ e)
      end
  | _ => 0
  end.

(** The three comparisons of [performMatching] and the range of the score
    agree between binary64 and exact arithmetic; the binary64 score is
    within 2^-40 of the exact one, and is not 100. *)
Definition agree (longest distance : nat) : bool :=
  let x := score64 longest distance in
  let q := score longest distance in
  eqb (geq x 70) (exact_geq q 70)
  && eqb (geq x 80) (exact_geq q 80)
  && eqb (geq x 85) (exact_geq q 85)
  && geq x 0 && geq 100 x
  && negb (PrimFloat.eqb x 100)
  && Qle_bool (Qabs (to_Q x - q)) (1 # 2 ^ 40).

Definition agree_upto (bound : nat) : bool :=
  forallb (fun longest => forallb (fun distance => agree longest distance) (seq 1 longest))
          (seq 1 bound).

End Binary64.

(** ** The specification's words *)

Module Specification.
Import JS Matching EditDistance Binary64.

Section Engine.
Context {E : Engine}.

(** Lowercase, then trim surrounding white space. *)
Definition normalized (a : jsstring) : jsstring := trim (toLowerCase a).


(** Postcode normalization: strip all white space, uppercase the remainder. *)
Definition Normalize (x : jsstring) : jsstring :=
  toUpperCase (filter (fun c => is_space c = false) x).

End Engine.

(** What a payload holds at a path of names: [undefined] as soon as a name
    leads nowhere. *)
Fixpoint at_path (v : any) (path : list jsstring) : any :=
  match path with
  | [] => v
  | name :: path' =>
      match v with
      | Some (JObject fields) => at_path (assoc name fields) path'
      | _ => None
      end
  end.

(** A field of the payload's document, and of the document's address. *)
Definition document_field (payload : json) (name : string) : any :=
  at_path (Some payload) [str "document"; str name].

Definition address_field (payload : json) (name : string) : any :=
  at_path (Some payload) [str "document"; str "address"; str name].

(** What the program takes for a field: the value found when that is
    truthy, a default string otherwise. *)
Definition read (v : any) (default : string) : json :=
  json_or_else v (JString (str default)).

(** The text a value is read as where the program wants text: a string as
    it is; what is absent or falsy ([null], [false], [0]) as the empty
    string, by [|| '']; any other value as none, and the call of
    [toLowerCase] or [replace] on it throws. *)
Definition text (v : any) : option jsstring :=
  match v with
  | Some (JString s) => Some s
  | _ => if json_truthy v then None else Some []
  end.

Definition has_text (v : any) : bool :=
  match text v with Some _ => true | None => false end.

(** The five values [performMatching] compares as text are text where
    they are present. *)
Definition text_fields (payload : json) : bool :=
  has_text (document_field payload "firstName")
  && has_text (document_field payload "lastName")
  && has_text (address_field payload "postalCode")
  && has_text (address_field payload "line1")
  && has_text (address_field payload "city").

(** A payload other than [null] whose text fields, type and issuing
    country are text where they are present. *)
Definition textual (payload : json) : bool :=
  match payload with JNull => false | _ => true end
  && text_fields payload
  && has_text (document_field payload "type")
  && has_text (document_field payload "issuingCountry").

(** Two registration records that differ at most in the city. *)
Definition same_registration_but_city (r r' : Reg.t) : Prop :=
  Reg.firstName r = Reg.firstName r' /\ Reg.lastName r = Reg.lastName r'
  /\ Reg.dob r = Reg.dob r' /\ Reg.houseNo r = Reg.houseNo r'
  /\ Reg.street r = Reg.street r' /\ Reg.flat r = Reg.flat r'
  /\ Reg.postcode r = Reg.postcode r'.

(** Two payloads in which [performMatching] reads the same values, the city apart. *)
Definition same_payload_but_city (j j' : json) : Prop :=
  document_field j "firstName" = document_field j' "firstName"
  /\ document_field j "lastName" = document_field j' "lastName"
  /\ document_field j "dob" = document_field j' "dob"
  /\ address_field j "postalCode" = address_field j' "postalCode"
  /\ address_field j "line1" = address_field j' "line1"
  /\ document_field j "type" = document_field j' "type"
  /\ document_field j "issuingCountry" = document_field j' "issuingCountry".

(** The payload of a home-country driving license that repeats the
    registration record: the round trip of the specification. *)
Definition echo (r : Reg.t) : json :=
  JObject [(str "document", JObject [
    (str "firstName", JString (Reg.firstName r));
    (str "lastName", JString (Reg.lastName r));
    (str "dob", JString (Reg.dob r));
    (str "address", JObject [
      (str "postalCode", JString (Reg.postcode r));
      (str "line1", JString (Reg.houseNo r ++ str " " ++ Reg.street r));
      (str "city", JString (Reg.city r))]);
    (str "type", JString (str "DRIVING_LICENSE"));
    (str "issuingCountry", JString (str "GBR"))])].

(** The fields of [docData], read off the payload. *)
Definition document_data (payload : json) : Doc.t := {|
  Doc.firstName := read (document_field payload "firstName") "";
  Doc.lastName := read (document_field payload "lastName") "";
  Doc.dob := read (document_field payload "dob") "";
  Doc.postcode := read (address_field payload "postalCode") "";
  Doc.addressLine := read (address_field payload "line1") "";
  Doc.city := read (address_field payload "city") "";
  Doc.type := read (document_field payload "type") "UNKNOWN";
  Doc.country := read (document_field payload "issuingCountry") "UNKNOWN"
|}.

(** The score of two normalized strings, as [calculateSimilarity] computes it. *)
Definition score_of (a' b' : jsstring) : float :=
  if decide (a' = b') then 100%float
  else if decide (a' = [] \/ b' = []) then 0%float
  else score64 (Nat.max (length a') (length b')) (lev a' b').

(** The seven checks [performMatching] pushes, given what was computed on the way. *)
Definition checks_of (regData : Reg.t) (docData : Doc.t) (regPC docPC : jsstring)
    (lnSim fnSim adSim citySim : float) (docText : jsstring) : list FieldCheck :=
  let dobMatch := strict_equal (Reg.dob regData) (Doc.dob docData) in
  let pcMatch := bool_decide (regPC = docPC) in
  let isUKDL := strict_equal (str "DRIVING_LICENSE") (Doc.type docData)
                && strict_equal (str "GBR") (Doc.country docData) in
  [ {| field := str "Date of Birth"; reg := Reg.dob regData; doc := Doc.dob docData;
       match_ := dobMatch;
       message := Text (if dobMatch then str "Match" else str "Mismatch") |};
    {| field := str "Postcode"; reg := regPC; doc := JString docPC; match_ := pcMatch;
       message := Text (if pcMatch then str "Match" else str "Mismatch") |};
    {| field := str "Last Name"; reg := Reg.lastName regData; doc := Doc.lastName docData;
       match_ := geq lnSim 85; message := SimilarityPercent lnSim |};
    {| field := str "First Name"; reg := Reg.firstName regData; doc := Doc.firstName docData;
       match_ := geq fnSim 85; message := SimilarityPercent fnSim |};
    {| field := str "Address Match";
       reg := trim (Reg.houseNo regData ++ str " " ++ Reg.street regData);
       doc := Doc.addressLine docData;
       match_ := geq adSim 70; message := SimilarityPercent adSim |};
    {| field := str "City"; reg := Reg.city regData; doc := Doc.city docData;
       match_ := geq citySim 80; message := SimilarityPercent citySim |};
    {| field := str "Document Rules"; reg := str "UK Logic"; doc := JString docText;
       match_ := isUKDL;
       message := Text (if isUKDL then str "Address verified via License."
                        else str "Non-UK Driving License. Proof of Address required.") |} ].

(** The document side of the last check. *)
Definition rules_text {E : Engine} (docData : Doc.t) : completion jsstring :=
  if strict_equal (str "DRIVING_LICENSE") (Doc.type docData)
     && strict_equal (str "GBR") (Doc.country docData)
  then Normal (str "UK Driving License")
  else
    country ← ToString (Doc.country docData);
    type ← ToString (Doc.type docData);
    Normal (country ++ str " " ++ type).

End Specification.

(** ** The matrix of [getLevenshteinDistance] while it is filled *)

Module Table.
Import JS Matching EditDistance.
Section Cells.
Variables a b : jsstring.

(** The distance between the first [i] characters of [b] and the first [j]
    characters of [a]. *)
Definition entry (i j : nat) : nat := lev (reverse (take i b)) (reverse (take j a)).

(** The first [n] cells of row [i]. *)
Definition row (i n : nat) : list nat := entry i <$> seq 0 n.

(** After the first loop has run [k] times. *)
Definition created (k : nat) : matrix := (fun i => [i]) <$> seq 0 k.

(** After the second loop has run [k] times. *)
Definition headed (k : nat) : matrix :=
  (fun i => if decide (i = 0) then seq 0 (Nat.max 1 k) else [i]) <$> seq 0 (S (length b)).

(** How many cells row [r] holds when the loops stand at row [i], column
    [j]: the rows before [i] are complete, row [i] is filled up to column
    [j], the rows below hold their first cell. *)
Definition width (i j r : nat) : nat :=
  if decide (r < i) then S (length a) else if decide (r = i) then j else 1.

Definition filled (i j : nat) : matrix :=
  (fun r => row r (width i j r)) <$> seq 0 (S (length b)).

End Cells.
End Table.

(** ** Concrete inputs: the scenarios of the specification *)

Module Scenarios.
Import JS Matching Relay.

(** A payload made of a document with an address, all in strings. *)
Definition payload_of (firstName lastName dob postalCode line1 : string)
    (city : any) (type issuingCountry : string) : json :=
  JObject [(str "document", JObject ([
    (str "firstName", JString (str firstName));
    (str "lastName", JString (str lastName));
    (str "dob", JString (str dob));
    (str "address", JObject ([
      (str "postalCode", JString (str postalCode));
      (str "line1", JString (str line1))]
      ++ match city with Some c => [(str "city", c)] | None => [] end));
    (str "type", JString (str type));
    (str "issuingCountry", JString (str issuingCountry))]))].

(** Scenario D: every check passes but the city, whose similarity is 60. *)
Definition scenario_D_registration : Reg.t := {|
  Reg.firstName := str "John"; Reg.lastName := str "Smith"; Reg.dob := str "1990-01-01";
  Reg.houseNo := str "10"; Reg.street := str "Downing Street"; Reg.flat := str "";
  Reg.postcode := str "SW1A 2AA"; Reg.city := str "abcde" |}.

Definition scenario_D_payload : json :=
  payload_of "JOHN" "Smith" "1990-01-01" "sw1a2aa" "10 Downing Street"
    (Some (JString (str "abcxy"))) "DRIVING_LICENSE" "GBR".

(** Scenario D again, with no city on either side. *)
Definition blank_city_registration : Reg.t := {|
  Reg.firstName := str "John"; Reg.lastName := str "Smith"; Reg.dob := str "1990-01-01";
  Reg.houseNo := str "10"; Reg.street := str "Downing Street"; Reg.flat := str "";
  Reg.postcode := str "SW1A 2AA"; Reg.city := str "" |}.

Definition no_city_payload : json :=
  payload_of "JOHN" "Smith" "1990-01-01" "sw1a2aa" "10 Downing Street"
    None "DRIVING_LICENSE" "GBR".

(** Scenario C: a French passport, every other check passing. *)
Definition scenario_C_payload : json :=
  payload_of "JOHN" "Smith" "1990-01-01" "sw1a2aa" "10 Downing Street"
    (Some (JString (str "abcde"))) "PASSPORT" "FRA".

(** A payload that lacks everything but a last name, and that a number. *)
Definition numbered_name_payload : json :=
  JObject [(str "document", JObject [(str "lastName", JNumber 7)])].

(** Scenario D with a city that is a number, as a provider might send a code. *)
Definition numbered_city_payload : json :=
  payload_of "JOHN" "Smith" "1990-01-01" "sw1a2aa" "10 Downing Street"
    (Some (JNumber 7)) "DRIVING_LICENSE" "GBR".

(** A form submitted without a date of birth and a city (the form asks for
    the house number, the street and the postcode only), and a payload with
    no document at all. *)
Definition undated_registration : Reg.t := {|
  Reg.firstName := str "John"; Reg.lastName := str "Smith"; Reg.dob := str "";
  Reg.houseNo := str "10"; Reg.street := str "Downing Street"; Reg.flat := str "";
  Reg.postcode := str "SW1A 2AA"; Reg.city := str "" |}.

Definition empty_payload : json := JObject [].

(** Scenario D's registration as somebody else would type it: capitals,
    white space around the values, a flat number. *)
Definition loud_registration : Reg.t := {|
  Reg.firstName := str "  JOHN "; Reg.lastName := str "SMITH"; Reg.dob := str "1990-01-01";
  Reg.houseNo := str "10"; Reg.street := str "downing street "; Reg.flat := str "Flat 2";
  Reg.postcode := str "sw1a2aa"; Reg.city := str " ABCDE" |}.

(** The relay's answer when a credential is missing. *)
Definition missing_keys : Response := {|
  body := Stringified (JObject [(str "error", JString (str "Missing API Keys in Cloudflare"))]);
  status := 500; headers := [] |}.

(** A platform whose provider is unreachable. *)
Definition offline_host : Host := {|
  fetch := fun _ => Throw (HostError (str "fetch failed"));
  randomUUID := str "00000000-0000-4000-8000-000000000000";
  error_message := fun e =>
    match e with
    | HostError m => m
    | TypeError => str "TypeError"
    | UndefinedCell => str "NaN"
    | InvalidCharacterError => str "InvalidCharacterError"
    end |}.

Definition configured : Env :=
  {| JUMIO_TOKEN := Some (str "token"); JUMIO_SECRET := Some (str "secret") |}.

Definition unconfigured : Env :=
  {| JUMIO_TOKEN := None; JUMIO_SECRET := Some (str "secret") |}.

(** A secret with a euro sign (U+20AC) in it. *)
Definition misencoded : Env :=
  {| JUMIO_TOKEN := Some (str "token"); JUMIO_SECRET := Some (str "secret" ++ [0x20AC%N]) |}.

(** [GET /api/jumio] with no query, and [DELETE /api/jumio]. *)
Definition get_without_reference : Request :=
  {| method := str "GET"; searchParams := []; request_json := Throw (HostError (str "no body")) |}.

Definition delete_request : Request :=
  {| method := str "DELETE"; searchParams := []; request_json := Throw (HostError (str "no body")) |}.

End Scenarios.

(** ** Concrete sessions *)

Module Sessions.
Import JS Matching Relay App.

(** A browser in which everything works, one without the vendor script,
    one whose backend refuses the session, and one whose results hold a
    number where a city is expected. *)
Definition online_browser : Browser := {|
  post_session := Normal {|
    ok := true;
    session_json := Normal (Some {| transactionReference := Some (str "ref-1");
                                    authorizationToken := Some (str "token-1") |}) |};
  get_results := fun _ => Normal {| results_json := Normal Scenarios.scenario_D_payload |};
  JumioClient := true;
  engine_message := fun _ => str "TypeError" |}.

Definition bare_browser : Browser := {|
  post_session := post_session online_browser;
  get_results := get_results online_browser;
  JumioClient := false;
  engine_message := engine_message online_browser |}.

Definition refused_browser : Browser := {|
  post_session := Normal {| ok := false; session_json := Throw (HostError (str "no body")) |};
  get_results := get_results online_browser;
  JumioClient := true;
  engine_message := engine_message online_browser |}.

Definition numbered_browser : Browser := {|
  post_session := post_session online_browser;
  get_results := fun _ => Normal {| results_json := Normal Scenarios.numbered_city_payload |};
  JumioClient := true;
  engine_message := engine_message online_browser |}.

(** Typing an address and pressing the button of step 1. *)
Definition fill_form : list Event :=
  [Change FirstName (str "John"); Change LastName (str "Smith");
   Change Dob (str "1990-01-01"); Change HouseNo (str "10");
   Change Street (str "Downing Street"); Change Postcode (str "SW1A 2AA");
   Change City (str "abcde"); NextStep].

(** What the provider answers to a session request. *)
Definition session_answer : json :=
  JObject [(str "transactionReference", JString (str "ref-1"));
           (str "authorizationToken", JString (str "token-1"))].

(** A platform whose provider answers every request with that JSON. *)
Definition answering_host : Host := {|
  fetch := fun _ => Normal {| upstream_json := Normal session_answer |};
  randomUUID := randomUUID Scenarios.offline_host;
  error_message := error_message Scenarios.offline_host |}.

(** The request [startJumio] sends, and the one [fetchJumioData] sends. *)
Definition post_request : Request :=
  {| method := str "POST"; searchParams := [];
     request_json := Normal (JObject [(str "userEmail", JString (str "user_test_01"))]) |}.

Definition get_request : Request :=
  {| method := str "GET"; searchParams := [(str "scanReference", str "ref-1")];
     request_json := Throw (HostError (str "no body")) |}.

(** Typing a registration into the form, input by input. *)
Definition typing (r : Reg.t) : list Event :=
  [Change FirstName (Reg.firstName r); Change LastName (Reg.lastName r);
   Change Dob (Reg.dob r); Change HouseNo (Reg.houseNo r);
   Change Street (Reg.street r); Change Flat (Reg.flat r);
   Change Postcode (Reg.postcode r); Change City (Reg.city r)].

(** A whole visit: the form, the two buttons, the widget's success. *)
Definition visit : list Event := fill_form ++ [StartVerification; WidgetSuccess].

End Sessions.

(** * Proofs *)

Module JSFacts.
Import JS.

(** *** Removing white space *)

Lemma remove_spaces_idem s : remove_spaces (remove_spaces s) = remove_spaces s.
Proof.
  unfold remove_spaces. induction s as [|c s IH]; [done|].
  rewrite filter_cons. destruct (decide (is_space c = false)) as [E|E]; [|done].
  by rewrite filter_cons, decide_True, IH.
Qed.

Lemma remove_spaces_no_space s : Forall (fun c => is_space c = false) (remove_spaces s).
Proof.
  unfold remove_spaces. apply Forall_forall. intros c Hc.
  by apply list_elem_of_filter in Hc as [? _].
Qed.

Lemma remove_spaces_fixed s :
  Forall (fun c => is_space c = false) s -> remove_spaces s = s.
Proof.
  unfold remove_spaces. induction 1 as [|c s Hc _ IH]; [done|].
  by rewrite filter_cons, decide_True, IH.
Qed.

Lemma remove_spaces_app s t : remove_spaces (s ++ t) = remove_spaces s ++ remove_spaces t.
Proof. apply filter_app. Qed.

Lemma remove_spaces_spaces s :
  Forall (fun c => is_space c = true) s -> remove_spaces s = [].
Proof.
  unfold remove_spaces. induction 1 as [|c s Hc _ IH]; [done|].
  rewrite filter_cons, decide_False by (rewrite Hc; discriminate). done.
Qed.

(** *** Trimming *)

Lemma trimStart_spaces s : Forall (fun c => is_space c = true) s -> trimStart s = [].
Proof. induction 1 as [|c s Hc _ IH]; [done|]. simpl. by rewrite Hc. Qed.

Lemma trimStart_head s c s' : trimStart s = c :: s' -> is_space c = false.
Proof.
  induction s as [|x s IH]; [done|]. simpl. destruct (is_space x) eqn:E; [done|].
  by intros [= <- _].
Qed.

Lemma trimStart_cons_char c s : is_space c = false -> trimStart (c :: s) = c :: s.
Proof. intros E. simpl. by rewrite E. Qed.

Lemma trimStart_idem s : trimStart (trimStart s) = trimStart s.
Proof.
  destruct (trimStart s) as [|c s'] eqn:E; [done|].
  apply trimStart_cons_char. by eapply trimStart_head.
Qed.

Lemma trimStart_snoc_char s c :
  is_space c = false -> trimStart (s ++ [c]) = trimStart s ++ [c].
Proof.
  intros E. induction s as [|x s IH]; simpl; [by rewrite E|].
  by destruct (is_space x).
Qed.

Lemma trimEnd_cons_char c s : is_space c = false -> trimEnd (c :: s) = c :: trimEnd s.
Proof.
  intros E. unfold trimEnd. by rewrite reverse_cons, trimStart_snoc_char, reverse_snoc.
Qed.

Lemma trimEnd_idem s : trimEnd (trimEnd s) = trimEnd s.
Proof. unfold trimEnd. by rewrite reverse_involutive, trimStart_idem. Qed.

Lemma trim_idem s : trim (trim s) = trim s.
Proof.
  unfold trim. destruct (trimStart s) as [|c s'] eqn:E; [done|].
  pose proof (trimStart_head _ _ _ E) as Hc.
  by rewrite (trimEnd_cons_char c s'), (trimStart_cons_char c), trimEnd_cons_char, trimEnd_idem.
Qed.

Lemma trim_spaces s : Forall (fun c => is_space c = true) s -> trim s = [].
Proof. intros Hs. unfold trim. by rewrite trimStart_spaces. Qed.

Lemma trimStart_nil_inv s : trimStart s = [] -> Forall (fun c => is_space c = true) s.
Proof.
  induction s as [|c s IH]; [done|]. simpl. destruct (is_space c) eqn:E; [|done].
  intros Hs. constructor; auto.
Qed.

Lemma trim_nil_inv s : trim s = [] -> Forall (fun c => is_space c = true) s.
Proof.
  unfold trim. destruct (trimStart s) as [|c s'] eqn:E.
  - intros _. by apply trimStart_nil_inv.
  - pose proof (trimStart_head _ _ _ E). by rewrite trimEnd_cons_char.
Qed.

Lemma trimStart_app_spaces pre s :
  Forall (fun c => is_space c = true) pre -> trimStart (pre ++ s) = trimStart s.
Proof. induction 1 as [|c pre Hc _ IH]; [done|]. simpl. by rewrite Hc. Qed.

Lemma trimEnd_app_spaces s post :
  Forall (fun c => is_space c = true) post -> trimEnd (s ++ post) = trimEnd s.
Proof.
  intros Hpost. unfold trimEnd. rewrite reverse_app, trimStart_app_spaces; [done|].
  by apply Forall_reverse.
Qed.

Lemma trim_app_spaces pre s post :
  Forall (fun c => is_space c = true) pre -> Forall (fun c => is_space c = true) post ->
  trim (pre ++ s ++ post) = trim s.
Proof.
  intros Hpre Hpost. unfold trim. rewrite trimStart_app_spaces by done.
  induction s as [|c s IH].
  - simpl. by rewrite trimStart_spaces.
  - simpl. destruct (is_space c) eqn:E; [done|].
    change (c :: s ++ post) with ((c :: s) ++ post). by apply trimEnd_app_spaces.
Qed.

(** *** Truthiness and defaults *)

Lemma truthy_Some s : truthy (Some s) = bool_decide (s <> []).
Proof. by destruct s. Qed.

Lemma or_else_Some_empty s : or_else (Some s) (str "") = s.
Proof. by destruct s. Qed.

Lemma json_or_else_string s : json_or_else (Some (JString s)) (JString (str "")) = JString s.
Proof. by destruct s. Qed.

Lemma strict_equal_true s v : strict_equal s v = true <-> v = JString s.
Proof.
  destruct v; simpl; try (split; [done|congruence]).
  rewrite bool_decide_eq_true. split; congruence.
Qed.

(** *** [btoa] *)

Lemma btoa_cases s :
  (Forall (fun c => (c <= 0xFF)%N) s /\ btoa s = Normal (base64 s))
  \/ (Exists (fun c => (0xFF < c)%N) s /\ btoa s = Throw InvalidCharacterError).
Proof.
  unfold btoa. destruct (forallb _ s) eqn:Hall.
  - left. split; [|done]. apply Forall_forall. intros c Hc%list_elem_of_In.
    rewrite forallb_forall in Hall. apply Hall in Hc. by apply N.leb_le.
  - right. split; [|done]. apply Exists_exists.
    induction s as [|c s IH]; [done|]. simpl in Hall.
    apply andb_false_iff in Hall as [Hc|Hs].
    + exists c. split; [left|]. by apply N.leb_gt.
    + destruct (IH Hs) as (x & Hx & Hgt). exists x. split; [by right|done].
Qed.

End JSFacts.

(** ** The sample engine keeps the laws *)

Module UnicodeFacts.
Import JS Unicode JSFacts.

Ltac by_comparisons :=
  repeat match goal with
  | |- context [(?a <=? ?b)%N] => destruct (N.leb_spec a b); try lia
  | |- context [(?a =? ?b)%N] => destruct (N.eqb_spec a b); try lia
  end; try reflexivity.

Lemma is_space_ascii_lower c : is_space (ascii_lower c) = is_space c.
Proof.
  unfold ascii_lower.
  destruct (N.leb_spec 0x41 c), (N.leb_spec c 0x5A); cbn [andb]; try reflexivity.
  unfold is_space. by_comparisons.
Qed.

Lemma is_space_ascii_upper c : is_space (ascii_upper c) = is_space c.
Proof.
  unfold ascii_upper.
  destruct (N.leb_spec 0x61 c), (N.leb_spec c 0x7A); cbn [andb]; try reflexivity.
  unfold is_space. by_comparisons.
Qed.

Lemma ascii_upper_idem c : ascii_upper (ascii_upper c) = ascii_upper c.
Proof.
  unfold ascii_upper at 2.
  destruct (N.leb_spec 0x61 c), (N.leb_spec c 0x7A); cbn [andb]; try reflexivity.
  unfold ascii_upper. by_comparisons.
Qed.

Lemma trimStart_fmap (f : N -> N) s :
  (forall c, is_space (f c) = is_space c) -> trimStart (f <$> s) = f <$> trimStart s.
Proof.
  intros Hf. induction s as [|c s IH]; [done|].
  rewrite fmap_cons. simpl. rewrite Hf. by destruct (is_space c).
Qed.

Lemma trim_fmap (f : N -> N) s :
  (forall c, is_space (f c) = is_space c) -> trim (f <$> s) = f <$> trim s.
Proof.
  intros Hf. unfold trim, trimEnd.
  by rewrite trimStart_fmap, <-fmap_reverse, trimStart_fmap, fmap_reverse.
Qed.

Lemma ascii_engine_ascii : AsciiLaws ascii_engine.
Proof. by split. Qed.

Lemma ascii_engine_lower : LowerLaws ascii_engine.
Proof.
  split; cbn [toLowerCase ascii_engine].
  - intros s. split; [apply fmap_nil_inv|by intros ->].
  - intros s. apply trim_fmap, is_space_ascii_lower.
Qed.

Lemma ascii_engine_upper : UpperLaws ascii_engine.
Proof.
  split; cbn [toUpperCase ascii_engine].
  - intros s. rewrite <-list_fmap_compose. apply list_fmap_ext.
    intros _ c _. apply ascii_upper_idem.
  - intros s Hs. apply Forall_fmap. eapply Forall_impl; [done|].
    intros c Hc. cbn. by rewrite is_space_ascii_upper.
Qed.

End UnicodeFacts.

Module EditDistanceFacts.
Import EditDistance.
Section Facts.
Context {A : Type} `{EqDecision A}.
Implicit Types (s t u p q : list A) (c d : A) (n m k : nat).

Lemma lev_nil_l t : lev [] t = length t.
Proof. by destruct t. Qed.

Lemma lev_nil_r s : lev s [] = length s.
Proof. by destruct s. Qed.

Lemma lev_cons c d s t :
  lev (c :: s) (d :: t) =
  if decide (c = d) then lev s t
  else S (Nat.min (lev s t) (Nat.min (lev s (d :: t)) (lev (c :: s) t))).
Proof. reflexivity. Qed.

Lemma script_nil_l t : script [] t (length t).
Proof. induction t; simpl; eauto using @script. Qed.

Lemma script_nil_r s : script s [] (length s).
Proof. induction s; simpl; eauto using @script. Qed.

(** The recurrence is the cost of some alignment. *)
Lemma script_lev s t : script s t (lev s t).
Proof.
  revert t. induction s as [|c s IHs]; intros t.
  { rewrite lev_nil_l. apply script_nil_l. }
  induction t as [|d t IHt].
  { rewrite lev_nil_r. apply script_nil_r. }
  rewrite lev_cons. case_decide as Hcd.
  - subst d. apply script_keep, IHs.
  - destruct (Nat.min_spec (lev s t) (Nat.min (lev s (d :: t)) (lev (c :: s) t)))
      as [[_ ->]|[_ ->]].
    + apply script_substitute, IHs.
    + destruct (Nat.min_spec (lev s (d :: t)) (lev (c :: s) t)) as [[_ ->]|[_ ->]].
      * apply script_delete, IHs.
      * apply script_insert, IHt.
Qed.

Lemma script_sym s t n : script s t n -> script t s n.
Proof. induction 1; eauto using @script. Qed.

(** Dropping the first character of the source costs at most one more. *)
Lemma script_uncons_l c s t n :
  script (c :: s) t n -> exists m, m <= S n /\ script s t m.
Proof.
  intros Hs. remember (c :: s) as cs eqn:E. revert c s E.
  induction Hs as [|c' s' t' n' Hs IH|c' d' s' t' n' Hs IH|c' s' t' n' Hs IH|d' s' t' n' Hs IH];
    intros c s E; simplify_eq.
  - exists (S n'). split; [lia|]. by apply script_insert.
  - exists (S n'). split; [lia|]. by apply script_insert.
  - exists n'. split; [lia|done].
  - destruct (IH _ _ eq_refl) as (m & Hm & Hs'). exists (S m). split; [lia|].
    by apply script_insert.
Qed.

Lemma script_uncons_r d s t n :
  script s (d :: t) n -> exists m, m <= S n /\ script s t m.
Proof.
  intros Hs%script_sym. apply script_uncons_l in Hs as (m & Hm & Hs).
  exists m. split; [done|]. by apply script_sym.
Qed.

(** Replacing the first character of the source costs at most one more. *)
Lemma script_recons_l c d s t n :
  script (d :: s) t n -> exists m, m <= S n /\ script (c :: s) t m.
Proof.
  intros Hs. remember (d :: s) as ds eqn:E. revert d s E.
  induction Hs as [|c' s' t' n' Hs IH|c' d' s' t' n' Hs IH|c' s' t' n' Hs IH|d' s' t' n' Hs IH];
    intros d s E; simplify_eq.
  - exists (S n'). split; [lia|]. by apply script_substitute.
  - exists (S n'). split; [lia|]. by apply script_substitute.
  - exists (S n'). split; [lia|]. by apply script_delete.
  - destruct (IH _ _ eq_refl) as (m & Hm & Hs'). exists (S m). split; [lia|].
    by apply script_insert.
Qed.

(** No alignment is cheaper than the recurrence. *)
Lemma lev_le_script s t n : script s t n -> lev s t <= n.
Proof.
  remember (length s + length t) as size eqn:Hsize.
  revert s t n Hsize. induction (lt_wf size) as [size _ IH].
  intros s t n -> Hs.
  assert (Hrec : forall s' t' n', length s' + length t' < length s + length t ->
            script s' t' n' -> lev s' t' <= n') by (intros; eapply IH; eauto).
  clear IH. destruct Hs as [|c s t n Hs|c d s t n Hs|c s t n Hs|d s t n Hs].
  - done.
  - rewrite lev_cons, decide_True by done. apply Hrec; [simpl; lia|done].
  - rewrite lev_cons. assert (lev s t <= n) by (apply Hrec; [simpl; lia|done]).
    case_decide; lia.
  - destruct t as [|d t].
    { rewrite lev_nil_r. simpl. assert (lev s [] <= n) by (apply Hrec; [simpl; lia|done]).
      rewrite lev_nil_r in *. lia. }
    rewrite lev_cons. assert (lev s (d :: t) <= n) by (apply Hrec; [simpl; lia|done]).
    case_decide; [|lia].
    apply script_uncons_r in Hs as (m & Hm & Hs).
    assert (lev s t <= m) by (apply Hrec; [simpl; lia|done]). lia.
  - destruct s as [|c s].
    { rewrite lev_nil_l. simpl. assert (lev [] t <= n) by (apply Hrec; [simpl; lia|done]).
      rewrite lev_nil_l in *. lia. }
    rewrite lev_cons. assert (lev (c :: s) t <= n) by (apply Hrec; [simpl; lia|done]).
    case_decide; [|lia].
    apply script_uncons_l in Hs as (m & Hm & Hs).
    assert (lev s t <= m) by (apply Hrec; [simpl; lia|done]). lia.
Qed.

Lemma lev_sym s t : lev s t = lev t s.
Proof.
  apply Nat.le_antisymm; apply lev_le_script, script_sym, script_lev.
Qed.

Lemma script_app s t n s' t' m :
  script s t n -> script s' t' m -> script (s ++ s') (t ++ t') (n + m).
Proof. induction 1; intros; simpl; eauto using @script. Qed.

Lemma script_reverse s t n : script s t n -> script (reverse s) (reverse t) n.
Proof.
  induction 1 as [|c s t n _ IH|c d s t n _ IH|c s t n _ IH|d s t n _ IH];
    rewrite ?reverse_cons.
  - constructor.
  - replace n with (n + 0) by lia. apply script_app; [done|]. repeat constructor.
  - replace (S n) with (n + 1) by lia. apply script_app; [done|]. repeat constructor.
  - replace (S n) with (n + 1) by lia. rewrite <-(app_nil_r (reverse t)).
    apply script_app; [done|]. repeat constructor.
  - replace (S n) with (n + 1) by lia. rewrite <-(app_nil_r (reverse s)).
    apply script_app; [done|]. repeat constructor.
Qed.

Lemma lev_reverse s t : lev (reverse s) (reverse t) = lev s t.
Proof.
  apply Nat.le_antisymm.
  - apply lev_le_script, script_reverse, script_lev.
  - rewrite <-(reverse_involutive s), <-(reverse_involutive t) at 1.
    apply lev_le_script, script_reverse, script_lev.
Qed.

Lemma lev_refl s : lev s s = 0.
Proof.
  induction s as [|c s IH]; [done|]. by rewrite lev_cons, decide_True.
Qed.

Lemma lev_cons_le c d s t : lev (c :: s) (d :: t) <= S (lev s t).
Proof. rewrite lev_cons. case_decide; lia. Qed.

Lemma lev_le_max s t : lev s t <= Nat.max (length s) (length t).
Proof.
  revert t. induction s as [|c s IH]; intros [|d t]; simpl length.
  - done.
  - rewrite lev_nil_l. simpl. lia.
  - rewrite lev_nil_r. simpl. lia.
  - etrans; [apply lev_cons_le|]. specialize (IH t). lia.
Qed.

(** *** Alignments against chains of single edits *)

Lemma edit_cons c s t : edit s t -> edit (c :: s) (c :: t).
Proof.
  destruct 1 as [p q x|p q x|p q x y].
  - apply (edit_insert (c :: p)).
  - apply (edit_delete (c :: p)).
  - apply (edit_substitute (c :: p)).
Qed.

Lemma transforms_cons c n s t : transforms n s t -> transforms n (c :: s) (c :: t).
Proof. induction 1; econstructor; eauto using edit_cons. Qed.

Lemma transforms_script s t n : script s t n -> transforms n s t.
Proof.
  induction 1 as [|c s t n _ IH|c d s t n _ IH|c s t n _ IH|d s t n _ IH].
  - constructor.
  - by apply transforms_cons.
  - eapply transforms_step; [apply (edit_substitute [] s c d)|].
    by apply transforms_cons.
  - eapply transforms_step; [apply (edit_delete [] s c)|done].
  - eapply transforms_step; [apply (edit_insert [] s d)|].
    by apply transforms_cons.
Qed.

(** An edit inside the source, undone at the cost of one more step. *)
Lemma script_under_prefix p x y :
  (forall u m, script x u m -> exists k, k <= S m /\ script y u k) ->
  forall u m, script (p ++ x) u m -> exists k, k <= S m /\ script (p ++ y) u k.
Proof.
  intros Hbase. induction p as [|c p IHp]; [done|].
  intros u m Hs. simpl in *. remember (c :: p ++ x) as cs eqn:E.
  induction Hs as [|c' s' t' n' Hs IH|c' d' s' t' n' Hs IH|c' s' t' n' Hs IH|d' s' t' n' Hs IH];
    simplify_eq.
  - destruct (IHp _ _ Hs) as (k & Hk & Hs'). exists k. split; [done|].
    by apply script_keep.
  - destruct (IHp _ _ Hs) as (k & Hk & Hs'). exists (S k). split; [lia|].
    by apply script_substitute.
  - destruct (IHp _ _ Hs) as (k & Hk & Hs'). exists (S k). split; [lia|].
    by apply script_delete.
  - destruct (IH eq_refl) as (k & Hk & Hs'). exists (S k). split; [lia|].
    by apply script_insert.
Qed.

Lemma script_after_edit s t u m :
  edit s t -> script t u m -> exists k, k <= S m /\ script s u k.
Proof.
  destruct 1 as [p q c|p q c|p q c d]; apply script_under_prefix; clear u m; intros u m Hs.
  - by eapply script_uncons_l.
  - exists (S m). split; [done|]. by apply script_delete.
  - by eapply script_recons_l.
Qed.

Lemma lev_le_transforms n s t : transforms n s t -> lev s t <= n.
Proof.
  induction 1 as [s|n s t u He _ IH].
  - by rewrite lev_refl.
  - destruct (script_after_edit s t u (lev t u) He (script_lev t u)) as (k & Hk & Hs).
    apply lev_le_script in Hs. lia.
Qed.

(** The recurrence computes the minimum number of single edits. *)
Theorem lev_edit_distance s t : edit_distance s t (lev s t).
Proof.
  split.
  - apply transforms_script, script_lev.
  - intros n. apply lev_le_transforms.
Qed.

End Facts.
End EditDistanceFacts.

Module TableFacts.
Import JS Matching EditDistance EditDistanceFacts Table.

Lemma bind_normal {A B : Type} (f : A -> completion B) (x : A) :
  (Normal x ≫= f) = f x.
Proof. reflexivity. Qed.

(** A loop whose every pass moves the state one step along [st]. *)
Lemma for_range_steps {St : Type} (body : nat -> St -> completion St) (st : nat -> St) n :
  forall lo,
  (forall k, k < n -> body (lo + k) (st k) = Normal (st (S k))) ->
  for_range lo n body (st 0) = Normal (st n).
Proof.
  revert st. induction n as [|n IH]; intros st lo Hbody; [done|].
  simpl. specialize (Hbody 0 ltac:(lia)) as H0. rewrite Nat.add_0_r in H0.
  rewrite H0, bind_normal. apply (IH (fun k => st (S k))).
  intros k Hk. replace (S lo + k) with (lo + S k) by lia. apply Hbody. lia.
Qed.

Lemma array_set_end {A : Type} (l : list A) (v : A) :
  array_set l (length l) v = Normal (l ++ [v]).
Proof.
  unfold array_set. rewrite decide_False by lia. by rewrite decide_True.
Qed.

Section Loops.
Variables a b : jsstring.

Lemma entry_0_l j : j <= length a -> entry a b 0 j = j.
Proof.
  intros Hj. unfold entry. rewrite take_0, reverse_nil, lev_nil_l.
  rewrite length_reverse, length_take. lia.
Qed.

Lemma entry_0_r i : i <= length b -> entry a b i 0 = i.
Proof.
  intros Hi. unfold entry. rewrite take_0, reverse_nil, lev_nil_r.
  rewrite length_reverse, length_take. lia.
Qed.

(** The recurrence of the inner loop. *)
Lemma entry_S i j cb ca :
  b !! i = Some cb -> a !! j = Some ca ->
  entry a b (S i) (S j) =
  if decide (cb = ca) then entry a b i j
  else Nat.min (entry a b i j + 1) (Nat.min (entry a b (S i) j + 1) (entry a b i (S j) + 1)).
Proof.
  intros Hb Ha. unfold entry.
  rewrite (take_S_r b i cb), (take_S_r a j ca) by done.
  rewrite !reverse_snoc, lev_cons. case_decide; [done|]. lia.
Qed.

Lemma row_S i n : row a b i (S n) = row a b i n ++ [entry a b i n].
Proof. unfold row. by rewrite seq_S, fmap_app. Qed.

Lemma length_row i n : length (row a b i n) = n.
Proof. unfold row. by rewrite length_fmap, length_seq. Qed.

Lemma lookup_row i n j : j < n -> row a b i n !! j = Some (entry a b i j).
Proof. intros Hj. unfold row. by rewrite list_lookup_fmap, lookup_seq_lt. Qed.

(** *** The first loop *)

Lemma created_step k : array_set (created k) k [k] = Normal (created (S k)).
Proof.
  unfold created. rewrite seq_S, fmap_app. simpl.
  pose proof (array_set_end ((fun i => [i]) <$> seq 0 k) [k]) as E.
  by rewrite length_fmap, length_seq in E.
Qed.

Lemma created_loop :
  for_range 0 (S (length b)) (fun i m => array_set m i [i]) [] = Normal (created (S (length b))).
Proof. apply (for_range_steps _ created). intros k _. apply created_step. Qed.

Lemma created_headed : created (S (length b)) = headed b 0.
Proof.
  unfold created, headed. apply list_fmap_ext. intros i x _. by case_decide; subst.
Qed.

(** *** The second loop *)

Lemma headed_cons k :
  headed b k = seq 0 (Nat.max 1 k) :: ((fun i => [i]) <$> seq 1 (length b)).
Proof.
  unfold headed. simpl seq. rewrite fmap_cons, decide_True by done. f_equal.
  apply list_fmap_ext. intros i r Hr. apply lookup_seq in Hr as [-> _].
  by rewrite decide_False.
Qed.

Lemma array_set_heading k :
  array_set (seq 0 (Nat.max 1 k)) k k = Normal (seq 0 (Nat.max 1 (S k))).
Proof.
  destruct k as [|k]; [done|].
  replace (Nat.max 1 (S k)) with (S k) by lia.
  replace (Nat.max 1 (S (S k))) with (S (S k)) by lia.
  pose proof (array_set_end (seq 0 (S k)) (S k)) as E.
  rewrite length_seq in E. by rewrite (seq_S (S k)).
Qed.

Lemma headed_step k : set_cell (headed b k) 0 k k = Normal (headed b (S k)).
Proof.
  rewrite !headed_cons. unfold set_cell, get_row. cbn [lookup list_lookup].
  rewrite bind_normal, array_set_heading. reflexivity.
Qed.

Lemma headed_loop :
  for_range 0 (S (length a)) (fun j m => set_cell m 0 j j) (headed b 0) = Normal (headed b (S (length a))).
Proof. apply (for_range_steps _ (headed b)). intros k _. apply headed_step. Qed.

Lemma headed_filled : headed b (S (length a)) = filled a b 1 1.
Proof.
  unfold headed, filled. apply list_fmap_ext. intros i r Hr.
  apply lookup_seq in Hr as [-> Hi]. rewrite Nat.add_0_l. unfold width.
  destruct (decide (i = 0)) as [->|Hne].
  - rewrite decide_True by lia. unfold row.
    replace (Nat.max 1 (S (length a))) with (S (length a)) by lia.
    symmetry. rewrite <-(list_fmap_id (seq 0 (S (length a)))) at 2.
    apply list_fmap_ext. intros k j Hj. apply lookup_seq in Hj as [-> Hk].
    simpl. apply entry_0_l. lia.
  - assert (row a b i 1 = [i]) as Hrow.
    { unfold row. simpl. by rewrite entry_0_r by lia. }
    repeat case_decide; done || lia.
Qed.

(** *** The nested loops *)

Lemma lookup_filled i j r :
  r <= length b -> filled a b i j !! r = Some (row a b r (width a i j r)).
Proof.
  intros Hr. unfold filled. by rewrite list_lookup_fmap, lookup_seq_lt by lia.
Qed.

Lemma length_filled i j : length (filled a b i j) = S (length b).
Proof. unfold filled. by rewrite length_fmap, length_seq. Qed.

Lemma get_cell_filled i j r c :
  r <= length b -> c < width a i j r -> get_cell (filled a b i j) r c = Normal (entry a b r c).
Proof.
  intros Hr Hc. unfold get_cell, get_row. rewrite lookup_filled by done.
  simpl. by rewrite lookup_row.
Qed.

Lemma set_cell_filled i j :
  i <= length b ->
  set_cell (filled a b i j) i j (entry a b i j) = Normal (filled a b i (S j)).
Proof.
  intros Hi. unfold set_cell, get_row. rewrite lookup_filled by done. simpl.
  unfold width. rewrite decide_False, decide_True by lia.
  rewrite <-(length_row i j) at 2. rewrite array_set_end. simpl. f_equal.
  rewrite <-row_S. apply list_eq. intros r.
  destruct (decide (r <= length b)) as [Hr|Hr].
  - destruct (decide (i = r)) as [->|Hne].
    + rewrite list_lookup_insert_eq, lookup_filled by (rewrite ?length_filled; lia).
      unfold width. by rewrite decide_False, decide_True by lia.
    + rewrite list_lookup_insert_ne, !lookup_filled by done.
      unfold width. repeat case_decide; done || lia.
  - rewrite list_lookup_insert_ne by lia. unfold filled.
    by rewrite !list_lookup_fmap, !lookup_seq_ge by lia.
Qed.

Lemma fill_cell_filled i j :
  1 <= i <= length b -> 1 <= j <= length a ->
  fill_cell a b i j (filled a b i j) = Normal (filled a b i (S j)).
Proof.
  intros Hi Hj. destruct i as [|i]; [lia|]. destruct j as [|j]; [lia|].
  destruct (lookup_lt_is_Some_2 b i ltac:(lia)) as [cb Hb].
  destruct (lookup_lt_is_Some_2 a j ltac:(lia)) as [ca Ha].
  unfold fill_cell, charAt.
  replace (S i - 1) with i by lia. replace (S j - 1) with j by lia.
  rewrite Hb, Ha.
  generalize (entry_S i j cb ca Hb Ha).
  destruct (decide (cb = ca)) as [E|E]; intros Hrec.
  - rewrite decide_True by congruence.
    rewrite get_cell_filled by (unfold width; repeat case_decide; lia).
    rewrite bind_normal, <-Hrec. apply set_cell_filled. lia.
  - rewrite decide_False by congruence.
    rewrite !get_cell_filled by (unfold width; repeat case_decide; lia).
    rewrite !bind_normal, <-Hrec. apply set_cell_filled. lia.
Qed.

Lemma filled_next i : filled a b i (S (length a)) = filled a b (S i) 1.
Proof.
  unfold filled. apply list_fmap_ext. intros k r Hr. f_equal.
  unfold width. repeat case_decide; done || lia.
Qed.

Lemma filled_row_loop i :
  1 <= i <= length b ->
  for_range 1 (length a) (fun j m => fill_cell a b i j m) (filled a b i 1)
  = Normal (filled a b (S i) 1).
Proof.
  intros Hi. rewrite <-filled_next.
  apply (for_range_steps _ (fun k => filled a b i (S k))).
  intros k Hk. apply fill_cell_filled; lia.
Qed.

Lemma filled_loop :
  for_range 1 (length b) (fun i m => for_range 1 (length a) (fun j m => fill_cell a b i j m) m)
    (filled a b 1 1)
  = Normal (filled a b (S (length b)) 1).
Proof.
  apply (for_range_steps _ (fun k => filled a b (S k) 1)).
  intros k Hk. apply filled_row_loop. lia.
Qed.

End Loops.

(** The loops of [getLevenshteinDistance] end, never leave the matrix, and
    leave the recurrence's value in the last cell. *)
Theorem getLevenshteinDistance_lev (a b : jsstring) :
  a <> [] -> b <> [] -> getLevenshteinDistance a b = Normal (lev a b).
Proof.
  intros Ha Hb. unfold getLevenshteinDistance.
  destruct a as [|ca a']; [done|]. destruct b as [|cb b']; [done|].
  cbn [truthy negb orb].
  rewrite created_loop, bind_normal, created_headed.
  rewrite headed_loop, bind_normal, headed_filled.
  rewrite filled_loop, bind_normal.
  rewrite get_cell_filled by (unfold width; repeat case_decide; lia).
  unfold entry. rewrite !firstn_all, lev_reverse. f_equal. apply lev_sym.
Qed.

Lemma getLevenshteinDistance_empty (a b : jsstring) :
  a = [] \/ b = [] -> getLevenshteinDistance a b = Normal 0.
Proof.
  unfold getLevenshteinDistance. intros [->| ->]; [done|]. by destruct a.
Qed.

End TableFacts.

Module SimilarityFacts.
Import JS Unicode Matching EditDistance Specification Binary64.
Import JSFacts EditDistanceFacts TableFacts.

Lemma num_pos n : 0 < n -> (0 < num n)%Q.
Proof. intros Hn. unfold num. replace 0%Q with (inject_Z 0) by done. rewrite <-Zlt_Qlt. lia. Qed.

Lemma num_le n m : n <= m -> (num n <= num m)%Q.
Proof. intros Hn. unfold num. rewrite <-Zle_Qle. lia. Qed.

Lemma num_nonneg n : (0 <= num n)%Q.
Proof. apply (num_le 0). lia. Qed.

Lemma num_le_iff n m : (num n <= num m)%Q <-> n <= m.
Proof. unfold num. rewrite <-Zle_Qle. lia. Qed.

Lemma num_mult n m : (num (n * m) == num n * num m)%Q.
Proof. unfold num. by rewrite Nat2Z.inj_mul, inject_Z_mult. Qed.

Lemma num_sub n m : m <= n -> (num (n - m) == num n - num m)%Q.
Proof.
  intros Hle. unfold num. rewrite Nat2Z.inj_sub by done.
  unfold Zminus. by rewrite inject_Z_plus, inject_Z_opp.
Qed.

(** The exact score is a percentage as soon as the distance is at most the length. *)
Lemma score_range longest distance :
  0 < longest -> distance <= longest ->
  (0 <= score longest distance /\ score longest distance <= 100)%Q.
Proof.
  intros Hl Hd. pose proof (num_pos _ Hl) as Hpos. pose proof (num_le _ _ Hd) as Hle.
  pose proof (num_nonneg distance) as Hnn. unfold score.
  set (x := ((num longest - num distance) / num longest)%Q).
  assert (0 <= x /\ x <= 1)%Q as [H0 H1].
  { unfold x. split.
    - apply Qle_shift_div_l; [done|]. lra.
    - apply Qle_shift_div_r; [done|]. lra. }
  split; lra.
Qed.


Lemma Qle_mult_div (a b c x : Q) :
  (0 < x)%Q -> (a <= (b / x) * c)%Q <-> (a * x <= b * c)%Q.
Proof.
  intros Hx. assert (E : ((b / x) * c == (b * c) / x)%Q) by (field; lra).
  rewrite E. split.
  - intros Hle. apply (Qmult_le_compat_r _ _ x) in Hle; [|lra].
    assert (E' : ((b * c) / x * x == b * c)%Q) by (field; lra). by rewrite E' in Hle.
  - intros Hle. by apply Qle_shift_div_l.
Qed.

(** A comparison of the exact score with a percentage, in whole numbers. *)
Lemma score_geq_iff (longest distance p : nat) :
  0 < longest -> distance <= longest ->
  exact_geq (score longest distance) (num p) = true
  <-> p * longest <= 100 * (longest - distance).
Proof.
  intros Hl Hd. unfold exact_geq, score. rewrite Qle_bool_iff.
  rewrite Qle_mult_div by (by apply num_pos).
  rewrite <-num_sub by done. change 100%Q with (num 100).
  rewrite <-!num_mult, num_le_iff. lia.
Qed.

Lemma lev_pos_max {A : Type} `{EqDecision A} (s t : list A) :
  ~ (s = [] \/ t = []) -> 0 < Nat.max (length s) (length t).
Proof. destruct s, t; simpl; try tauto; lia. Qed.

(** *** The table of binary64 scores *)

Lemma agree_upto_256 : agree_upto 256 = true.
Proof. vm_compute. reflexivity. Qed.

Lemma agree_below (bound longest distance : nat) :
  agree_upto bound = true ->
  1 <= distance -> distance <= longest -> longest <= bound ->
  agree longest distance = true.
Proof.
  unfold agree_upto. intros Hall Hd Hl Hbound.
  rewrite forallb_forall in Hall. specialize (Hall longest).
  rewrite forallb_forall in Hall. apply Hall; apply in_seq; lia.
Qed.

(** What the table says of one score. *)
Lemma score64_facts (longest distance : nat) :
  1 <= distance -> distance <= longest -> longest <= 256 ->
  let x := score64 longest distance in
  let q := score longest distance in
  geq x 70 = exact_geq q 70 /\ geq x 80 = exact_geq q 80 /\ geq x 85 = exact_geq q 85
  /\ geq x 0 = true /\ geq 100 x = true /\ PrimFloat.eqb x 100 = false
  /\ (Qabs (to_Q x - q) <= 1 # 2 ^ 40)%Q.
Proof.
  intros Hd Hl Hbound x q.
  pose proof (agree_below 256 longest distance agree_upto_256 Hd Hl Hbound) as Hall.
  unfold agree in Hall. fold x q in Hall.
  apply andb_prop in Hall as [Hall Hclose]. apply andb_prop in Hall as [Hall Hne].
  apply andb_prop in Hall as [Hall H100]. apply andb_prop in Hall as [Hall H0].
  apply andb_prop in Hall as [Hall H85]. apply andb_prop in Hall as [H70 H80].
  apply Bool.eqb_prop in H70, H80, H85. apply negb_true_iff in Hne.
  apply Qle_bool_iff in Hclose. by repeat split.
Qed.

Section Engine.
Context {E : Engine}.

(** *** Reading a value as text *)

Lemma text_default (v : any) : text (Some (json_or_else v (JString (str "")))) = text v.
Proof.
  destruct v as [[|b|q|s|items|fields]|]; try done.
  - by destruct b.
  - cbv beta iota delta [text json_or_else json_truthy].
    destruct (Qeq_bool q 0) eqn:Hq; cbv beta iota delta [negb]; by rewrite ?Hq.
  - by destruct s.
Qed.

Lemma lower_trim_text (v : any) :
  lower_trim v = match text v with
                 | Some s => Normal (normalized s)
                 | None => Throw TypeError
                 end.
Proof.
  unfold lower_trim.
  destruct v as [[|b|q|s|items|fields]|]; try done.
  - by destruct b.
  - cbv beta iota delta [text json_or_else json_truthy].
    destruct (Qeq_bool q 0) eqn:Hq; cbv beta iota delta [negb]; by rewrite ?Hq.
  - by destruct s.
Qed.

Lemma normalizePostcode_text (v : any) :
  normalizePostcode v = match text v with
                        | Some [] => Normal (str "")
                        | Some s => Normal (Normalize s)
                        | None => Throw TypeError
                        end.
Proof.
  unfold normalizePostcode.
  destruct v as [[|b|q|s|items|fields]|]; try done.
  - by destruct b.
  - cbv beta iota delta [text json_truthy].
    destruct (Qeq_bool q 0) eqn:Hq; cbv beta iota delta [negb]; by rewrite ?Hq.
  - by destruct s.
Qed.

Lemma normalizePostcode_string (x : jsstring) :
  normalizePostcode (Some (JString x)) = Normal (if decide (x = []) then str "" else Normalize x).
Proof. by destruct x. Qed.

(** *** What [calculateSimilarity] returns *)

Lemma calculateSimilarity_text (v w : any) :
  calculateSimilarity v w =
  match text v, text w with
  | Some a, Some b => Normal (score_of (normalized a) (normalized b))
  | _, _ => Throw TypeError
  end.
Proof.
  unfold calculateSimilarity. rewrite !lower_trim_text.
  destruct (text v) as [a|]; [|done]. destruct (text w) as [b|]; [|done].
  rewrite !bind_normal. unfold score_of.
  set (s1 := normalized a). set (s2 := normalized b).
  destruct (decide (s1 = s2)) as [Heq|Hne]; [done|].
  rewrite !truthy_Some.
  destruct (decide (s1 = [] \/ s2 = [])) as [[H1|H2]|Hboth].
  - by rewrite (bool_decide_eq_false_2 (s1 <> [])) by tauto.
  - rewrite (bool_decide_eq_false_2 (s2 <> [])) by tauto. simpl. by rewrite orb_true_r.
  - rewrite !bool_decide_eq_true_2 by tauto. simpl.
    by rewrite getLevenshteinDistance_lev by tauto.
Qed.

(** On two strings. *)
Lemma calculateSimilarity_cases (a b : jsstring) :
  calculateSimilarity (Some (JString a)) (Some (JString b))
  = Normal (score_of (normalized a) (normalized b)).
Proof. by rewrite calculateSimilarity_text. Qed.

(** The comparisons of a score with the thresholds, in edits. *)
Lemma score_of_thresholds (a' b' : jsstring) :
  let longest := Nat.max (length a') (length b') in
  longest <= 256 ->
  (geq (score_of a' b') 85 = true <-> 20 * lev a' b' <= 3 * longest)
  /\ (geq (score_of a' b') 80 = true <-> 5 * lev a' b' <= longest)
  /\ (geq (score_of a' b') 70 = true <-> 10 * lev a' b' <= 3 * longest)
  /\ (PrimFloat.eqb (score_of a' b') 100 = true <-> a' = b')
  /\ geq (score_of a' b') 0 = true /\ geq 100 (score_of a' b') = true.
Proof.
  intros longest Hbound. unfold score_of.
  destruct (decide (a' = b')) as [Heq|Hneq].
  { rewrite Heq, lev_refl. repeat split; try done; lia. }
  assert (Hpos : 0 < lev a' b').
  { destruct (lev a' b') eqn:E0; [|lia]. exfalso. apply Hneq.
    pose proof (script_lev a' b') as Hs. rewrite E0 in Hs.
    apply transforms_script in Hs. by inversion Hs. }
  destruct (decide (a' = [] \/ b' = [])) as [Hnil|Hne].
  { assert (Hall : lev a' b' = longest).
    { unfold longest. destruct Hnil as [-> | ->]; rewrite ?lev_nil_l, ?lev_nil_r; cbn; lia. }
    split; [|split; [|split; [|split]]]; try (split; [discriminate|]; intros ?; (done || lia)).
    by split. }
  pose proof (lev_pos_max _ _ Hne) as Hl. fold longest in Hl.
  pose proof (lev_le_max a' b') as Hd. fold longest in Hd. fold longest.
  destruct (score64_facts longest (lev a' b')) as (H70 & H80 & H85 & H0 & H100 & Hne100 & _);
    [lia..|].
  cbn zeta in *. rewrite H70, H80, H85, Hne100.
  split; [|split; [|split; [|split]]].
  - change 85%Q with (num 85). rewrite score_geq_iff by done. lia.
  - change 80%Q with (num 80). rewrite score_geq_iff by done. lia.
  - change 70%Q with (num 70). rewrite score_geq_iff by done. lia.
  - split; [discriminate|done].
  - by split.
Qed.

(** *** Normal forms under the laws *)

Lemma lower_nil `{!LowerLaws E} : toLowerCase [] = [].
Proof. by apply (lower_empty []). Qed.

Lemma normalized_nil `{!LowerLaws E} : normalized (str "") = [].
Proof. unfold normalized. change (str "") with (@nil N). by rewrite lower_nil. Qed.

Lemma normalized_trim `{!LowerLaws E} (s : jsstring) : normalized (trim s) = normalized s.
Proof. unfold normalized. by rewrite <-trim_lower, trim_idem. Qed.

Lemma normalized_blank `{!LowerLaws E} (s : jsstring) :
  Forall (fun c => is_space c = true) s -> normalized s = [].
Proof.
  intros Hs. unfold normalized. rewrite trim_lower, trim_spaces by done. apply lower_nil.
Qed.

Lemma normalized_nonempty `{!LowerLaws E} (s : jsstring) : trim s <> [] -> normalized s <> [].
Proof.
  intros Hs. unfold normalized. rewrite trim_lower. intros Hnil. by apply (proj1 (lower_empty _)) in Hnil.
Qed.

Lemma normalized_margins `{!LowerLaws E} (pre s post : jsstring) :
  Forall (fun c => is_space c = true) pre -> Forall (fun c => is_space c = true) post ->
  normalized (pre ++ s ++ post) = normalized s.
Proof.
  intros Hpre Hpost. unfold normalized. by rewrite !trim_lower, trim_app_spaces.
Qed.

Lemma calculateSimilarity_normalized (a a' b b' : jsstring) :
  normalized a = normalized a' -> normalized b = normalized b' ->
  calculateSimilarity (Some (JString a)) (Some (JString b))
  = calculateSimilarity (Some (JString a')) (Some (JString b')).
Proof. intros Ha Hb. by rewrite !calculateSimilarity_cases, Ha, Hb. Qed.

End Engine.

End SimilarityFacts.

Module MatchingFacts.
Import JS Unicode Matching EditDistance Specification Binary64.
Import JSFacts EditDistanceFacts TableFacts SimilarityFacts.

Lemma at_path_cons (v : any) (name : jsstring) (path : list jsstring) :
  at_path v (name :: path) = at_path (opt_member v name) path.
Proof. destruct v as [[]|]; try done; by destruct path. Qed.

Lemma prepare_payload (payload : json) :
  prepare (Some payload)
  = match payload with
    | JNull => Throw TypeError
    | _ => Normal (document_data payload)
    end.
Proof.
  unfold document_data, document_field, address_field, read.
  rewrite !at_path_cons. cbn [at_path]. by destruct payload.
Qed.

Lemma prepare_bind_inv {B : Type} (payload : json) (k : Doc.t -> completion B) (r : B) :
  prepare (Some payload) ≫= k = Normal r -> k (document_data payload) = Normal r.
Proof. rewrite prepare_payload. by destruct payload. Qed.

Lemma prepare_bind {B : Type} (payload : json) (k : Doc.t -> completion B) :
  match payload with JNull => false | _ => true end = true ->
  prepare (Some payload) ≫= k = k (document_data payload).
Proof. rewrite prepare_payload. by destruct payload. Qed.

Lemma prepare_undefined : prepare None = Throw TypeError.
Proof. reflexivity. Qed.

Lemma text_read (v : any) : text (Some (read v "")) = text v.
Proof. apply text_default. Qed.

(** A default of the program is text. *)
Lemma read_unknown (v : any) :
  has_text v = true ->
  exists s, read v "UNKNOWN" = JString s
    /\ (s = str "UNKNOWN" \/ v = Some (JString s) /\ s <> []).
Proof.
  unfold has_text, text, read.
  destruct v as [[|b|q|s|items|fields]|]; try (by eauto); try done.
  - destruct b; [done|eauto].
  - cbv beta iota delta [json_or_else json_truthy].
    destruct (Qeq_bool q 0) eqn:Hq; cbv beta iota delta [negb]; rewrite ?Hq; [eauto|done].
  - destruct s as [|c s]; [by eauto|]. intros _. exists (c :: s). split; [done|]. by right.
Qed.

Section Engine.
Context {E : Engine}.

(** [performMatching], with the report written out. *)
Lemma performMatching_steps (regData : Reg.t) (jumioData : any) :
  performMatching regData jumioData =
  (docData ← prepare jumioData;
   regPC ← normalizePostcode (Some (JString (Reg.postcode regData)));
   docPC ← normalizePostcode (Some (Doc.postcode docData));
   lnSim ← calculateSimilarity (Some (JString (Reg.lastName regData)))
             (Some (Doc.lastName docData));
   fnSim ← calculateSimilarity (Some (JString (Reg.firstName regData)))
             (Some (Doc.firstName docData));
   adSim ← calculateSimilarity
             (Some (JString (trim (Reg.houseNo regData ++ str " " ++ Reg.street regData))))
             (Some (Doc.addressLine docData));
   citySim ← calculateSimilarity (Some (JString (Reg.city regData))) (Some (Doc.city docData));
   docText ← rules_text docData;
   Normal {|
     passed :=
       strict_equal (Reg.dob regData) (Doc.dob docData) && bool_decide (regPC = docPC)
       && geq lnSim 85 && geq fnSim 85 && geq adSim 70
       && (strict_equal (str "DRIVING_LICENSE") (Doc.type docData)
           && strict_equal (str "GBR") (Doc.country docData));
     checks := checks_of regData docData regPC docPC lnSim fnSim adSim citySim docText |}).
Proof.
  unfold performMatching, rules_text.
  destruct (prepare jumioData) as [docData|e]; [|done]. rewrite !bind_normal.
  destruct (normalizePostcode (Some (JString _))) as [regPC|e]; [|done]. rewrite !bind_normal.
  destruct (normalizePostcode (Some (Doc.postcode _))) as [docPC|e]; [|done].
  rewrite !bind_normal.
  destruct (calculateSimilarity (Some (JString (Reg.lastName _))) _) as [lnSim|e]; [|done].
  rewrite !bind_normal.
  destruct (calculateSimilarity (Some (JString (Reg.firstName _))) _) as [fnSim|e]; [|done].
  rewrite !bind_normal.
  destruct (calculateSimilarity (Some (JString (trim _))) _) as [adSim|e]; [|done].
  rewrite !bind_normal.
  destruct (calculateSimilarity (Some (JString (Reg.city _))) _) as [citySim|e]; [|done].
  rewrite !bind_normal.
  destruct (strict_equal (str "DRIVING_LICENSE") (Doc.type docData)
            && strict_equal (str "GBR") (Doc.country docData)) eqn:Hrules.
  - cbn [negb]. rewrite !bind_normal. unfold checks_of. rewrite Hrules.
    by rewrite andb_true_r.
  - cbn [negb]. destruct (ToString (Doc.country docData)) as [country|e]; [|done].
    rewrite !bind_normal. destruct (ToString (Doc.type docData)) as [type|e]; [|done].
    rewrite !bind_normal. unfold checks_of. rewrite Hrules. by rewrite !andb_false_r.
Qed.

(** What a report that was returned holds. *)
Lemma performMatching_report (regData : Reg.t) (payload : json) (report : Report) :
  performMatching regData (Some payload) = Normal report ->
  let docData := document_data payload in
  exists regPC docPC lnSim fnSim adSim citySim docText,
    normalizePostcode (Some (JString (Reg.postcode regData))) = Normal regPC
    /\ normalizePostcode (Some (Doc.postcode docData)) = Normal docPC
    /\ calculateSimilarity (Some (JString (Reg.lastName regData)))
         (Some (Doc.lastName docData)) = Normal lnSim
    /\ calculateSimilarity (Some (JString (Reg.firstName regData)))
         (Some (Doc.firstName docData)) = Normal fnSim
    /\ calculateSimilarity
         (Some (JString (trim (Reg.houseNo regData ++ str " " ++ Reg.street regData))))
         (Some (Doc.addressLine docData)) = Normal adSim
    /\ calculateSimilarity (Some (JString (Reg.city regData))) (Some (Doc.city docData))
       = Normal citySim
    /\ rules_text docData = Normal docText
    /\ checks report = checks_of regData docData regPC docPC lnSim fnSim adSim citySim docText
    /\ passed report =
       strict_equal (Reg.dob regData) (Doc.dob docData) && bool_decide (regPC = docPC)
       && geq lnSim 85 && geq fnSim 85 && geq adSim 70
       && (strict_equal (str "DRIVING_LICENSE") (Doc.type docData)
           && strict_equal (str "GBR") (Doc.country docData)).
Proof.
  intros Hrun docData. rewrite performMatching_steps in Hrun.
  apply prepare_bind_inv in Hrun as Hrun'. clear Hrun. fold docData in Hrun'.
  destruct (normalizePostcode (Some (JString _))) as [regPC|e]; [|done].
  rewrite bind_normal in Hrun'.
  destruct (normalizePostcode (Some (Doc.postcode _))) as [docPC|e]; [|done].
  rewrite bind_normal in Hrun'.
  destruct (calculateSimilarity (Some (JString (Reg.lastName _))) _) as [lnSim|e]; [|done].
  rewrite bind_normal in Hrun'.
  destruct (calculateSimilarity (Some (JString (Reg.firstName _))) _) as [fnSim|e]; [|done].
  rewrite bind_normal in Hrun'.
  destruct (calculateSimilarity (Some (JString (trim _))) _) as [adSim|e]; [|done].
  rewrite bind_normal in Hrun'.
  destruct (calculateSimilarity (Some (JString (Reg.city _))) _) as [citySim|e]; [|done].
  rewrite bind_normal in Hrun'.
  destruct (rules_text docData) as [docText|e]; [|done].
  rewrite bind_normal in Hrun'. injection Hrun' as <-.
  exists regPC, docPC, lnSim, fnSim, adSim, citySim, docText. by repeat split.
Qed.

(** The registration side of the postcode check never throws. *)
Lemma normalizePostcode_total (x : jsstring) :
  exists y, normalizePostcode (Some (JString x)) = Normal y.
Proof. rewrite normalizePostcode_string. eauto. Qed.

(** Where the five text fields are text, only the last check can throw. *)
Lemma performMatching_rules (regData : Reg.t) (payload : json) :
  match payload with JNull => false | _ => true end = true ->
  text_fields payload = true ->
  exists k : jsstring -> Report,
    performMatching regData (Some payload)
    = (docText ← rules_text (document_data payload); Normal (k docText)).
Proof.
  intros Hnull. unfold text_fields, has_text. rewrite !andb_true_iff.
  intros ((((Hfn & Hln) & Hpc) & Hl1) & Hcity).
  rewrite performMatching_steps, prepare_bind by done.
  destruct (normalizePostcode_total (Reg.postcode regData)) as [regPC ->].
  rewrite bind_normal.
  rewrite !normalizePostcode_text, !calculateSimilarity_text.
  cbn [document_data Doc.firstName Doc.lastName Doc.postcode Doc.addressLine Doc.city].
  rewrite !text_read. cbn [text].
  destruct (text (document_field payload "firstName")) as [fn|]; [|done].
  destruct (text (document_field payload "lastName")) as [ln|]; [|done].
  destruct (text (address_field payload "postalCode")) as [pc|]; [|done].
  destruct (text (address_field payload "line1")) as [l1|]; [|done].
  destruct (text (address_field payload "city")) as [city|]; [|done].
  assert (exists docPC, match pc with
                        | [] => Normal (str "")
                        | _ :: _ => Normal (Normalize pc)
                        end = Normal docPC) as [docPC ->].
  { destruct pc; eauto. }
  rewrite !bind_normal. eexists (fun docText => _). reflexivity.
Qed.

(** Where one of them is not, the call of a string method on it throws. *)
Lemma performMatching_untext (regData : Reg.t) (payload : json) :
  match payload with JNull => false | _ => true end = true ->
  text_fields payload = false ->
  performMatching regData (Some payload) = Throw TypeError.
Proof.
  intros Hnull. unfold text_fields, has_text. intros Hfields.
  rewrite performMatching_steps, prepare_bind by done.
  destruct (normalizePostcode_total (Reg.postcode regData)) as [regPC ->].
  rewrite bind_normal.
  rewrite !normalizePostcode_text, !calculateSimilarity_text.
  cbn [document_data Doc.firstName Doc.lastName Doc.postcode Doc.addressLine Doc.city].
  rewrite !text_read. cbn [text].
  destruct (text (address_field payload "postalCode")) as [pc|]; [|done].
  assert (exists docPC, match pc with
                        | [] => Normal (str "")
                        | _ :: _ => Normal (Normalize pc)
                        end = Normal docPC) as [docPC ->].
  { destruct pc; eauto. }
  rewrite bind_normal.
  destruct (text (document_field payload "lastName")) as [ln|]; [|done].
  rewrite bind_normal.
  destruct (text (document_field payload "firstName")) as [fn|]; [|done].
  rewrite bind_normal.
  destruct (text (address_field payload "line1")) as [l1|]; [|done].
  rewrite bind_normal.
  destruct (text (address_field payload "city")) as [city|]; [|done].
  done.
Qed.

(** On a textual payload the last check returns as well. *)
Lemma rules_text_textual (payload : json) :
  has_text (document_field payload "type") = true ->
  has_text (document_field payload "issuingCountry") = true ->
  exists docText, rules_text (document_data payload) = Normal docText.
Proof.
  intros Hty Hic. unfold rules_text. destruct (_ && _); [eauto|].
  cbn [document_data Doc.type Doc.country].
  destruct (read_unknown _ Hic) as (c & -> & _). destruct (read_unknown _ Hty) as (t & -> & _).
  cbn [ToString]. rewrite !bind_normal. eauto.
Qed.

Lemma performMatching_textual (regData : Reg.t) (payload : json) :
  textual payload = true -> exists report, performMatching regData (Some payload) = Normal report.
Proof.
  unfold textual. rewrite !andb_true_iff. intros (((Hnull & Hfields) & Hty) & Hic).
  destruct (performMatching_rules regData payload Hnull Hfields) as [k ->].
  destruct (rules_text_textual payload Hty Hic) as [docText ->].
  rewrite bind_normal. eauto.
Qed.

End Engine.

(** Seven labels name seven checks. *)
Lemma seven_checks {A : Type} (f : FieldCheck -> A) (l : list FieldCheck) a1 a2 a3 a4 a5 a6 a7 :
  f <$> l = [a1; a2; a3; a4; a5; a6; a7] ->
  exists c1 c2 c3 c4 c5 c6 c7, l = [c1; c2; c3; c4; c5; c6; c7].
Proof.
  intros Hl. do 7 (destruct l as [|? l]; [discriminate|]).
  destruct l; [|discriminate]. eauto 10.
Qed.

End MatchingFacts.

Module SimilarityClaims.
Import JS Unicode Matching EditDistance Binary64 Specification.
Import JSFacts UnicodeFacts EditDistanceFacts TableFacts SimilarityFacts.


Section Engine.
Context {E : Engine}.


(** C5.  The similarity score is symmetric, whatever the two values are. *)
Theorem similarity_symmetric (a b : jsstring) :
  calculateSimilarity (Some (JString a)) (Some (JString b))
  = calculateSimilarity (Some (JString b)) (Some (JString a))
  /\ forall v w : any, calculateSimilarity v w = calculateSimilarity w v.
Proof.
  assert (Hsym : forall v w : any, calculateSimilarity v w = calculateSimilarity w v).
  { intros v w. rewrite !calculateSimilarity_text.
    destruct (text v) as [x|], (text w) as [y|]; try done.
    f_equal. unfold score_of.
    set (a' := normalized x). set (b' := normalized y).
    destruct (decide (a' = b')) as [Heq|Hne].
    - by rewrite decide_True.
    - rewrite (decide_False (P := b' = a')) by congruence.
      destruct (decide (a' = [] \/ b' = [])).
      + by rewrite decide_True by tauto.
      + rewrite decide_False by tauto. by rewrite Nat.max_comm, lev_sym. }
  split; [apply Hsym|exact Hsym].
Qed.

(** C10.  A string of white space only scores 100 against the empty string
    and 0 against every string whose trimmed form is not empty. *)
Theorem blank_strings_are_empty `{!LowerLaws E} (a : jsstring) :
  Forall (fun c => is_space c = true) a ->
  calculateSimilarity (Some (JString a)) (Some (JString (str ""))) = Normal 100%float
  /\ forall b : jsstring, trim b <> [] ->
       calculateSimilarity (Some (JString a)) (Some (JString b)) = Normal 0%float.
Proof.
  intros Ha. pose proof (normalized_blank a Ha) as Hnil. split.
  - rewrite calculateSimilarity_cases, Hnil, normalized_nil. done.
  - intros b Hb. rewrite calculateSimilarity_cases, Hnil.
    pose proof (normalized_nonempty b Hb). unfold score_of.
    rewrite decide_False by done. by rewrite decide_True by tauto.
Qed.

(** C6.  [normalizePostcode] deletes every white-space character and
    uppercases what remains; its result holds no white space, is left as
    it is by [toUpperCase], and normalizing it again changes nothing. *)
Theorem normalizePostcode_idempotent `{!AsciiLaws E} `{!UpperLaws E} (x : jsstring) :
  exists y, normalizePostcode (Some (JString x)) = Normal y
    /\ y = Normalize x
    /\ Forall (fun c => is_space c = false) y
    /\ toUpperCase y = y
    /\ normalizePostcode (Some (JString y)) = Normal y.
Proof.
  assert (Hnil : toUpperCase [] = []) by (by rewrite upper_ascii).
  assert (Hnorm : forall z, normalizePostcode (Some (JString z)) = Normal (Normalize z)).
  { intros z. rewrite normalizePostcode_string. case_decide as Hz; [|done].
    subst z. unfold Normalize. by rewrite filter_nil, Hnil. }
  exists (Normalize x). split; [apply Hnorm|]. split; [done|].
  assert (Hclean : Forall (fun c => is_space c = false) (Normalize x)).
  { apply upper_no_space, remove_spaces_no_space. }
  split; [done|]. split; [apply upper_idem|].
  rewrite Hnorm. unfold Normalize at 1. fold (remove_spaces (Normalize x)).
  rewrite remove_spaces_fixed by done. f_equal. apply upper_idem.
Qed.

End Engine.



Lemma blank_strings_are_empty_witness :
  calculateSimilarity (E := ascii_engine) (Some (JString [0x20; 0xA0; 0x9; 0x3000]%N))
    (Some (JString (str ""))) = Normal 100%float
  /\ forall b : jsstring, trim b <> [] ->
       calculateSimilarity (E := ascii_engine) (Some (JString [0x20; 0xA0; 0x9; 0x3000]%N))
         (Some (JString b)) = Normal 0%float.
Proof.
  apply (@blank_strings_are_empty ascii_engine ascii_engine_lower [0x20; 0xA0; 0x9; 0x3000]%N).
  repeat constructor.
Defined.

Lemma normalizePostcode_idempotent_witness :
  exists y, normalizePostcode (E := ascii_engine) (Some (JString (str " sw1a 2aa "))) = Normal y
    /\ y = Normalize (E := ascii_engine) (str " sw1a 2aa ")
    /\ Forall (fun c => is_space c = false) y
    /\ toUpperCase (Engine := ascii_engine) y = y
    /\ normalizePostcode (E := ascii_engine) (Some (JString y)) = Normal y.
Proof.
  exact (@normalizePostcode_idempotent ascii_engine ascii_engine_ascii ascii_engine_upper
           (str " sw1a 2aa ")).
Defined.

End SimilarityClaims.

Module MatchingClaims.
Import JS Unicode Matching EditDistance Binary64 Specification Scenarios.
Import JSFacts UnicodeFacts EditDistanceFacts TableFacts SimilarityFacts MatchingFacts.

(** What is read under a default is a given text exactly when the payload holds it. *)
Lemma read_eq (v : any) (default : string) (s : jsstring) :
  s <> str default -> s <> [] -> read v default = JString s <-> v = Some (JString s).
Proof.
  intros Hd Hs. unfold read.
  destruct v as [[|b|q|x|items|fields]|]; cbv beta iota delta [json_or_else json_truthy].
  - split; [intros [= ?]|]; done.
  - destruct b; (split; [intros [= ?]|]; done).
  - destruct (Qeq_bool q 0); cbv beta iota delta [negb]; (split; [intros [= ?]|]; done).
  - destruct x as [|c x]; cbn [truthy].
    + split; [intros [= ?]; done|]. intros [= <-]. done.
    + split; [by intros [= ->]|by intros [= ->]].
  - split; [intros [= ?]|]; done.
  - split; [intros [= ?]|]; done.
  - split; [intros [= ?]|]; done.
Qed.

Section Engine.
Context {E : Engine}.

(** C1.  On every registration record and payload, whenever a report is
    returned (as it is on every textual payload) it holds seven checks, and
    [passed] is the conjunction of the flags of the date of birth, postcode,
    last name, first name, address and document-rules checks: it is true
    exactly when these six are, whatever the city check says. *)
Theorem passed_iff_six_checks (regData : Reg.t) (payload : json) :
  (textual payload = true ->
   exists report, performMatching regData (Some payload) = Normal report)
  /\ forall report, performMatching regData (Some payload) = Normal report ->
     exists dobC pcC lnC fnC adC cityC docC,
       checks report = [dobC; pcC; lnC; fnC; adC; cityC; docC]
       /\ field <$> checks report =
          [str "Date of Birth"; str "Postcode"; str "Last Name"; str "First Name";
           str "Address Match"; str "City"; str "Document Rules"]
       /\ passed report =
          match_ dobC && match_ pcC && match_ lnC && match_ fnC && match_ adC && match_ docC
       /\ (passed report = true <->
           match_ dobC = true /\ match_ pcC = true /\ match_ lnC = true
           /\ match_ fnC = true /\ match_ adC = true /\ match_ docC = true)
       /\ (match_ dobC = true -> match_ pcC = true -> match_ lnC = true ->
           match_ fnC = true -> match_ adC = true -> match_ docC = true ->
           match_ cityC = false -> passed report = true).
Proof.
  split; [apply performMatching_textual|]. intros report Hrun.
  destruct (performMatching_report regData payload report Hrun)
    as (regPC & docPC & lnSim & fnSim & adSim & citySim & docText
        & _ & _ & _ & _ & _ & _ & _ & Hchecks & Hpassed).
  unfold checks_of in Hchecks. do 7 eexists. split; [exact Hchecks|].
  rewrite Hchecks, Hpassed. cbn [match_ fmap list_fmap field].
  split; [done|]. split; [done|]. split; [rewrite !andb_true_iff; tauto|].
  by intros -> -> -> -> -> ->.
Qed.


(** C4.  The document-rules check passes exactly when the payload holds
    "DRIVING_LICENSE" as the document's type and "GBR" as its issuing
    country.  When it fails its message asks for a proof of address and
    [passed] is false, whatever the other checks say. *)
Theorem document_rules (regData : Reg.t) (payload : json) :
  (textual payload = true ->
   exists report, performMatching regData (Some payload) = Normal report)
  /\ forall report, performMatching regData (Some payload) = Normal report ->
     exists docC,
       checks report !! 6 = Some docC
       /\ length (checks report) = 7
       /\ field docC = str "Document Rules"
       /\ (match_ docC = true <->
           document_field payload "type" = Some (JString (str "DRIVING_LICENSE"))
           /\ document_field payload "issuingCountry" = Some (JString (str "GBR")))
       /\ (match_ docC = false ->
           message docC = Text (str "Non-UK Driving License. Proof of Address required.")
           /\ passed report = false).
Proof.
  split; [apply performMatching_textual|]. intros report Hrun.
  destruct (performMatching_report regData payload report Hrun)
    as (regPC & docPC & lnSim & fnSim & adSim & citySim & docText
        & _ & _ & _ & _ & _ & _ & _ & Hchecks & Hpassed).
  unfold checks_of in Hchecks. rewrite Hchecks, Hpassed. eexists.
  split; [reflexivity|]. split; [done|]. split; [done|].
  cbn [match_ message document_data Doc.type Doc.country]. split.
  - rewrite andb_true_iff, !strict_equal_true.
    by rewrite !read_eq by (by vm_compute).
  - intros ->. split; [done|]. by rewrite andb_false_r.
Qed.

End Engine.


(** Scenario D: the six checks pass, the city scores 60, [passed] is true. *)
Example scenario_D :
  exists report,
    performMatching (E := ascii_engine) scenario_D_registration (Some scenario_D_payload)
    = Normal report
    /\ match_ <$> checks report = [true; true; true; true; true; false; true]
    /\ (message <$> checks report) !! 5 = Some (SimilarityPercent 60)
    /\ passed report = true.
Proof. eexists. split; [vm_compute; reflexivity|]. by repeat split. Qed.

(** Scenario C: a French passport fails the report on its own. *)
Example scenario_C :
  exists report,
    performMatching (E := ascii_engine) scenario_D_registration (Some scenario_C_payload)
    = Normal report
    /\ match_ <$> checks report = [true; true; true; true; true; true; false]
    /\ (doc <$> checks report) !! 6 = Some (JString (str "FRA PASSPORT"))
    /\ passed report = false.
Proof. eexists. split; [vm_compute; reflexivity|]. by repeat split. Qed.

(** Scenario A: equal dates of birth, and postcodes equal after normalization. *)
Example scenario_A :
  normalizePostcode (E := ascii_engine) (Some (JString (str "SW1A 2AA")))
  = normalizePostcode (E := ascii_engine) (Some (JString (str "sw1a2aa")))
  /\ exists report,
       performMatching (E := ascii_engine) scenario_D_registration (Some scenario_D_payload)
       = Normal report
       /\ (match_ <$> checks report) !! 0 = Some true
       /\ (match_ <$> checks report) !! 1 = Some true.
Proof.
  split; [reflexivity|]. eexists. split; [vm_compute; reflexivity|].
  split; reflexivity.
Qed.

End MatchingClaims.

Module DegradationClaims.
Import JS Unicode Matching EditDistance Binary64 Specification Scenarios.
Import JSFacts UnicodeFacts EditDistanceFacts TableFacts SimilarityFacts MatchingFacts.

Lemma read_falsy (v : any) (default : string) :
  json_truthy v = false -> read v default = JString (str default).
Proof. unfold read, json_or_else. destruct v; [|done]. by intros ->. Qed.

Section Engine.
Context {E : Engine}.

(** Against an empty document value, a registration value that is not blank scores 0. *)
Lemma calculateSimilarity_against_empty `{!LowerLaws E} (x : jsstring) (q : float) :
  normalized x <> [] ->
  calculateSimilarity (Some (JString x)) (Some (JString (str ""))) = Normal q ->
  q = 0%float.
Proof.
  intros Hx. rewrite calculateSimilarity_cases, normalized_nil. unfold score_of.
  rewrite decide_False by done. rewrite decide_True by tauto. congruence.
Qed.

(** C8 (amended).  On every textual payload (any value but [null], in
    which first name, last name, postal code, address line, city, type and
    issuing country are strings where they are present and truthy),
    whichever of the document, its address and their fields are absent,
    [performMatching] returns a report of seven checks.  An absent (or
    falsy) first name, last name, date of birth, postal code, address line
    or city is read as the empty string; an absent type or issuing country
    is read as "UNKNOWN".  The check of an absent field is a mismatch
    whenever the registration value it is compared with is not empty after
    that check's normalization; an absent type or issuing country fails
    the document rules and the report. *)
Theorem absent_fields_degrade `{!LowerLaws E} (regData : Reg.t) (payload : json) :
  textual payload = true ->
  exists report dobC pcC lnC fnC adC cityC docC regPC,
    performMatching regData (Some payload) = Normal report
    /\ checks report = [dobC; pcC; lnC; fnC; adC; cityC; docC]
    /\ normalizePostcode (Some (JString (Reg.postcode regData))) = Normal regPC
    /\ (json_truthy (document_field payload "dob") = false ->
        doc dobC = JString (str "")
        /\ (Reg.dob regData <> str "" -> match_ dobC = false))
    /\ (json_truthy (address_field payload "postalCode") = false ->
        doc pcC = JString (str "")
        /\ (regPC <> str "" -> match_ pcC = false))
    /\ (json_truthy (document_field payload "lastName") = false ->
        doc lnC = JString (str "")
        /\ (normalized (Reg.lastName regData) <> [] -> match_ lnC = false))
    /\ (json_truthy (document_field payload "firstName") = false ->
        doc fnC = JString (str "")
        /\ (normalized (Reg.firstName regData) <> [] -> match_ fnC = false))
    /\ (json_truthy (address_field payload "line1") = false ->
        doc adC = JString (str "")
        /\ (normalized (Reg.houseNo regData ++ str " " ++ Reg.street regData) <> [] ->
            match_ adC = false))
    /\ (json_truthy (address_field payload "city") = false ->
        doc cityC = JString (str "")
        /\ (normalized (Reg.city regData) <> [] -> match_ cityC = false))
    /\ (json_truthy (document_field payload "type") = false ->
        match_ docC = false /\ passed report = false
        /\ exists country, doc docC = JString (country ++ str " UNKNOWN"))
    /\ (json_truthy (document_field payload "issuingCountry") = false ->
        match_ docC = false /\ passed report = false
        /\ exists type, doc docC = JString (str "UNKNOWN " ++ type)).
Proof.
  intros Htext. destruct (performMatching_textual regData payload Htext) as [report Hrun].
  destruct (performMatching_report regData payload report Hrun)
    as (regPC & docPC & lnSim & fnSim & adSim & citySim & docText
        & HregPC & HdocPC & Hln & Hfn & Had & Hcity & Hrules & Hchecks & Hpassed).
  unfold checks_of in Hchecks.
  do 8 eexists. exists regPC. split; [exact Hrun|]. split; [exact Hchecks|].
  split; [done|].
  cbn [document_data Doc.firstName Doc.lastName Doc.dob Doc.postcode Doc.addressLine
       Doc.city Doc.type Doc.country doc match_] in *.
  split; [|split; [|split; [|split; [|split; [|split; [|split]]]]]].
  - intros Habs. rewrite (read_falsy _ _ Habs). split; [done|].
    intros Hreg. cbn. by apply bool_decide_eq_false_2.
  - intros Habs. rewrite (read_falsy _ _ Habs) in HdocPC.
    cbv in HdocPC. injection HdocPC as <-. split; [done|].
    intros Hreg. by apply bool_decide_eq_false_2.
  - intros Habs. rewrite (read_falsy _ _ Habs) in Hln |- *. split; [done|].
    intros Hreg. by rewrite (calculateSimilarity_against_empty _ _ Hreg Hln).
  - intros Habs. rewrite (read_falsy _ _ Habs) in Hfn |- *. split; [done|].
    intros Hreg. by rewrite (calculateSimilarity_against_empty _ _ Hreg Hfn).
  - intros Habs. rewrite (read_falsy _ _ Habs) in Had |- *. split; [done|].
    intros Hreg. rewrite <-normalized_trim in Hreg.
    by rewrite (calculateSimilarity_against_empty _ _ Hreg Had).
  - intros Habs. rewrite (read_falsy _ _ Habs) in Hcity |- *. split; [done|].
    intros Hreg. by rewrite (calculateSimilarity_against_empty _ _ Hreg Hcity).
  - intros Habs. rewrite Hpassed. unfold rules_text in Hrules.
    cbn [document_data Doc.type Doc.country] in Hrules.
    rewrite (read_falsy _ _ Habs) in Hrules |- *.
    change (strict_equal (str "DRIVING_LICENSE") (JString (str "UNKNOWN"))) with false
      in Hrules |- *.
    cbn [andb] in Hrules |- *. split; [done|]. split; [by rewrite andb_false_r|].
    destruct (ToString (read (document_field payload "issuingCountry") "UNKNOWN"))
      as [country|e]; [|by cbn in Hrules].
    rewrite bind_normal in Hrules. cbn [ToString] in Hrules. rewrite bind_normal in Hrules.
    injection Hrules as <-. by exists country.
  - intros Habs. rewrite Hpassed. unfold rules_text in Hrules.
    cbn [document_data Doc.type Doc.country] in Hrules.
    rewrite (read_falsy _ _ Habs) in Hrules |- *.
    change (strict_equal (str "GBR") (JString (str "UNKNOWN"))) with false in Hrules |- *.
    rewrite andb_false_r in Hrules |- *. split; [done|]. split; [by rewrite andb_false_r|].
    change (ToString (JString (str "UNKNOWN"))) with (Normal (str "UNKNOWN")) in Hrules.
    rewrite bind_normal in Hrules.
    destruct (ToString (read (document_field payload "type") "UNKNOWN")) as [type|e];
      [|by cbn in Hrules].
    rewrite bind_normal in Hrules. injection Hrules as <-. by exists type.
Qed.

(** X5.  When [performMatching] throws.  A payload that is [undefined] or
    [null] makes the first read of [jumioData.document] throw a TypeError.
    On any other payload the document, its address and their fields are
    read through optional chaining, which never throws, whatever is
    missing; but a first name, last name, postal code, address line or city
    that is truthy and no string makes the call of [toLowerCase] or
    [replace] on it throw a TypeError.  Where these five are text, the
    only step left that can throw is the conversion of a type or an issuing
    country that is no string to the text of the last check; on a textual
    payload a report is returned. *)
Theorem performMatching_throws (regData : Reg.t) (jumioData : any) :
  (jumioData = None \/ jumioData = Some JNull ->
   performMatching regData jumioData = Throw TypeError)
  /\ forall payload, jumioData = Some payload ->
       match payload with JNull => false | _ => true end = true ->
       (text_fields payload = false -> performMatching regData jumioData = Throw TypeError)
       /\ (text_fields payload = true ->
           forall e, performMatching regData jumioData = Throw e
                     <-> rules_text (document_data payload) = Throw e)
       /\ (textual payload = true ->
           exists report, performMatching regData jumioData = Normal report).
Proof.
  split.
  - intros [-> | ->]; by rewrite performMatching_steps.
  - intros payload -> Hnull. split; [by apply performMatching_untext|].
    split; [|apply performMatching_textual].
    intros Hfields e.
    destruct (performMatching_rules regData payload Hnull Hfields) as [k ->].
    destruct (rules_text (document_data payload)) as [docText|e']; [by rewrite bind_normal|].
    change (@Throw Report e' = Throw e <-> @Throw jsstring e' = Throw e).
    split; by intros [= ->].
Qed.

End Engine.

Lemma absent_fields_degrade_witness :
  let E := ascii_engine in
  exists report dobC pcC lnC fnC adC cityC docC regPC,
    performMatching undated_registration (Some empty_payload) = Normal report
    /\ checks report = [dobC; pcC; lnC; fnC; adC; cityC; docC]
    /\ normalizePostcode (Some (JString (Reg.postcode undated_registration))) = Normal regPC
    /\ (json_truthy (document_field empty_payload "dob") = false ->
        doc dobC = JString (str "")
        /\ (Reg.dob undated_registration <> str "" -> match_ dobC = false))
    /\ (json_truthy (address_field empty_payload "postalCode") = false ->
        doc pcC = JString (str "")
        /\ (regPC <> str "" -> match_ pcC = false))
    /\ (json_truthy (document_field empty_payload "lastName") = false ->
        doc lnC = JString (str "")
        /\ (normalized (Reg.lastName undated_registration) <> [] -> match_ lnC = false))
    /\ (json_truthy (document_field empty_payload "firstName") = false ->
        doc fnC = JString (str "")
        /\ (normalized (Reg.firstName undated_registration) <> [] -> match_ fnC = false))
    /\ (json_truthy (address_field empty_payload "line1") = false ->
        doc adC = JString (str "")
        /\ (normalized (Reg.houseNo undated_registration ++ str " "
                        ++ Reg.street undated_registration) <> [] ->
            match_ adC = false))
    /\ (json_truthy (address_field empty_payload "city") = false ->
        doc cityC = JString (str "")
        /\ (normalized (Reg.city undated_registration) <> [] -> match_ cityC = false))
    /\ (json_truthy (document_field empty_payload "type") = false ->
        match_ docC = false /\ passed report = false
        /\ exists country, doc docC = JString (country ++ str " UNKNOWN"))
    /\ (json_truthy (document_field empty_payload "issuingCountry") = false ->
        match_ docC = false /\ passed report = false
        /\ exists type, doc docC = JString (str "UNKNOWN " ++ type)).
Proof.
  apply (@absent_fields_degrade ascii_engine ascii_engine_lower undated_registration
           empty_payload).
  reflexivity.
Defined.

(** C8, as stated, fails.  On a form without a date of birth and a payload
    without a document, the absent type is read as "UNKNOWN", not as the
    empty string, and the checks of the absent date of birth and city are
    reported as matches.  And a payload that lacks every field but a last
    name, which is a number, makes [performMatching] throw. *)
Lemma absent_fields_not_all_empty_mismatches :
  (document_field empty_payload "dob" = None
   /\ address_field empty_payload "city" = None
   /\ document_field empty_payload "type" = None
   /\ forall (E : Engine), LowerLaws E ->
        exists report dobC pcC lnC fnC adC cityC docC,
          performMatching undated_registration (Some empty_payload) = Normal report
          /\ checks report = [dobC; pcC; lnC; fnC; adC; cityC; docC]
          /\ match_ dobC = true /\ match_ cityC = true
          /\ doc docC = JString (str "UNKNOWN UNKNOWN"))
  /\ (document_field numbered_name_payload "dob" = None
      /\ forall (E : Engine) (regData : Reg.t),
           performMatching regData (Some numbered_name_payload) = Throw TypeError).
Proof.
  split.
  - do 3 (split; [reflexivity|]). intros E HE.
    destruct (performMatching_textual undated_registration empty_payload eq_refl)
      as [report Hrun].
    destruct (performMatching_report _ _ report Hrun)
      as (regPC & docPC & lnSim & fnSim & adSim & citySim & docText
          & _ & _ & _ & _ & _ & Hcity & Hrules & Hchecks & _).
    unfold checks_of in Hchecks. do 8 eexists. split; [exact Hrun|].
    split; [exact Hchecks|]. cbn [match_ doc]. split; [reflexivity|].
    split.
    + change (Doc.city (document_data empty_payload)) with (JString (str "")) in Hcity.
      rewrite calculateSimilarity_cases in Hcity. unfold score_of in Hcity.
      rewrite decide_True in Hcity by done. by injection Hcity as <-.
    + cbv in Hrules. by injection Hrules as <-.
  - split; [reflexivity|]. intros E regData. by apply performMatching_untext.
Qed.

End DegradationClaims.

Module FurtherProperties.
Import JS Unicode Matching EditDistance Binary64 Specification Scenarios.
Import JSFacts UnicodeFacts EditDistanceFacts TableFacts SimilarityFacts MatchingFacts.

(** X1.  On two non-empty strings the loops of [getLevenshteinDistance] run to
    their end and return the minimum number of single-character insertions,
    deletions and substitutions that turn one string into the other. *)
Theorem getLevenshteinDistance_minimal (a b : jsstring) :
  a <> [] -> b <> [] ->
  exists d, getLevenshteinDistance a b = Normal d /\ edit_distance a b d.
Proof.
  intros Ha Hb. exists (lev a b). split.
  - by apply getLevenshteinDistance_lev.
  - apply lev_edit_distance.
Qed.

Lemma getLevenshteinDistance_minimal_witness :
  exists d, getLevenshteinDistance (str "kitten") (str "sitting") = Normal d
            /\ edit_distance (str "kitten") (str "sitting") d.
Proof.
  apply (getLevenshteinDistance_minimal (str "kitten") (str "sitting")); discriminate.
Defined.

(** What [prepare] reads off a document that repeats the registration record. *)
Lemma document_data_echo (regData : Reg.t) :
  document_data (echo regData) = {|
    Doc.firstName := JString (Reg.firstName regData);
    Doc.lastName := JString (Reg.lastName regData);
    Doc.dob := JString (Reg.dob regData);
    Doc.postcode := JString (Reg.postcode regData);
    Doc.addressLine := JString (Reg.houseNo regData ++ str " " ++ Reg.street regData);
    Doc.city := JString (Reg.city regData);
    Doc.type := JString (str "DRIVING_LICENSE");
    Doc.country := JString (str "GBR") |}.
Proof.
  unfold document_data. f_equal; try reflexivity; apply json_or_else_string.
Qed.

Section Engine.
Context {E : Engine}.

(** X3.  The round trip: a driving license of the home country that repeats the
    registration record passes, every check matching. *)
Theorem round_trip `{!LowerLaws E} (regData : Reg.t) :
  exists report,
    performMatching regData (Some (echo regData)) = Normal report
    /\ match_ <$> checks report = [true; true; true; true; true; true; true]
    /\ passed report = true.
Proof.
  assert (Htext : textual (echo regData) = true) by reflexivity.
  destruct (performMatching_textual regData _ Htext) as [report Hrun].
  destruct (performMatching_report regData _ report Hrun)
    as (regPC & docPC & lnSim & fnSim & adSim & citySim & docText
        & HregPC & HdocPC & Hln & Hfn & Had & Hcity & _ & Hchecks & Hpassed).
  cbv zeta in *. rewrite document_data_echo in *.
  cbn [Doc.firstName Doc.lastName Doc.dob Doc.postcode Doc.addressLine Doc.city Doc.type
       Doc.country] in *.
  rewrite HregPC in HdocPC. injection HdocPC as <-.
  assert (Hsame : forall x y q, normalized x = normalized y ->
            calculateSimilarity (Some (JString x)) (Some (JString y)) = Normal q ->
            geq q 85 = true /\ geq q 80 = true /\ geq q 70 = true).
  { intros x y q Hxy. rewrite calculateSimilarity_cases. unfold score_of.
    rewrite decide_True by done. by intros [= <-]. }
  apply Hsame in Hln as (Hln & _ & _); [|done]. apply Hsame in Hfn as (Hfn & _ & _); [|done].
  apply Hsame in Had as (_ & _ & Had); [|apply normalized_trim].
  apply Hsame in Hcity as (_ & Hcity & _); [|done].
  exists report. split; [done|].
  assert (Hdob : strict_equal (Reg.dob regData) (JString (Reg.dob regData)) = true).
  { by apply strict_equal_true. }
  rewrite Hchecks, Hpassed. unfold checks_of.
  cbn [match_ fmap list_fmap Doc.dob Doc.type Doc.country].
  rewrite Hdob, Hln, Hfn, Had, Hcity. rewrite !bool_decide_eq_true_2 by done.
  by split.
Qed.

(** X4.  The city has no part in the verdict: two runs that differ at most in
    the city typed in and the city of the document, and that both return a
    report (as they do on textual payloads), agree on [passed]. *)
Theorem passed_ignores_city (regData regData' : Reg.t) (j j' : json) :
  same_registration_but_city regData regData' ->
  same_payload_but_city j j' ->
  (textual j = true -> textual j' = true ->
   exists report report',
     performMatching regData (Some j) = Normal report
     /\ performMatching regData' (Some j') = Normal report')
  /\ forall report report',
       performMatching regData (Some j) = Normal report ->
       performMatching regData' (Some j') = Normal report' ->
       passed report = passed report'.
Proof.
  intros (Rfn & Rln & Rdob & Rno & Rst & _ & Rpc) (Jfn & Jln & Jdob & Jpc & Jl1 & Jty & Jic).
  split.
  { intros Hj Hj'.
    destruct (performMatching_textual regData j Hj) as [report Hrun].
    destruct (performMatching_textual regData' j' Hj') as [report' Hrun'].
    by exists report, report'. }
  intros report report' Hrun Hrun'.
  destruct (performMatching_report _ _ report Hrun)
    as (regPC & docPC & lnSim & fnSim & adSim & citySim & docText
        & HregPC & HdocPC & Hln & Hfn & Had & _ & _ & _ & Hpassed).
  destruct (performMatching_report _ _ report' Hrun')
    as (regPC' & docPC' & lnSim' & fnSim' & adSim' & citySim' & docText'
        & HregPC' & HdocPC' & Hln' & Hfn' & Had' & _ & _ & _ & Hpassed').
  cbn [document_data Doc.firstName Doc.lastName Doc.dob Doc.postcode Doc.addressLine
       Doc.city Doc.type Doc.country] in *.
  rewrite <-Rfn, <-Rln, <-Rdob, <-Rno, <-Rst, <-Rpc, <-Jfn, <-Jln, <-Jdob, <-Jpc, <-Jl1,
    <-Jty, <-Jic in *.
  assert (regPC' = regPC) as -> by congruence.
  assert (docPC' = docPC) as -> by congruence.
  assert (lnSim' = lnSim) as -> by congruence.
  assert (fnSim' = fnSim) as -> by congruence.
  assert (adSim' = adSim) as -> by congruence.
  by rewrite Hpassed, Hpassed'.
Qed.

End Engine.

Lemma round_trip_witness :
  exists report,
    performMatching (E := ascii_engine) loud_registration (Some (echo loud_registration))
    = Normal report
    /\ match_ <$> checks report = [true; true; true; true; true; true; true]
    /\ passed report = true.
Proof. exact (@round_trip ascii_engine ascii_engine_lower loud_registration). Defined.

Lemma passed_ignores_city_witness :
  let E := ascii_engine in
  (textual scenario_D_payload = true -> textual no_city_payload = true ->
   exists report report',
     performMatching scenario_D_registration (Some scenario_D_payload) = Normal report
     /\ performMatching blank_city_registration (Some no_city_payload) = Normal report')
  /\ forall report report',
       performMatching scenario_D_registration (Some scenario_D_payload) = Normal report ->
       performMatching blank_city_registration (Some no_city_payload) = Normal report' ->
       passed report = passed report'.
Proof.
  apply (@passed_ignores_city ascii_engine scenario_D_registration blank_city_registration
           scenario_D_payload no_city_payload); by repeat split.
Defined.

End FurtherProperties.

Module RelayBasics.
Import JS Relay JSFacts TableFacts.

(** [btoa] returns on text whose code units all fit a byte. *)
Lemma btoa_bytes (s : jsstring) :
  Forall (fun c => (c <= 0xFF)%N) s -> btoa s = Normal (base64 s).
Proof.
  intros Hall. destruct (btoa_cases s) as [[_ ?]|[Hex _]]; [done|].
  apply Exists_exists in Hex as (c & Hc & Hgt).
  rewrite Forall_forall in Hall. apply Hall in Hc. lia.
Qed.

(** [btoa] throws on any other text. *)
Lemma btoa_wide (s : jsstring) :
  Exists (fun c => (0xFF < c)%N) s -> btoa s = Throw InvalidCharacterError.
Proof.
  intros Hex. destruct (btoa_cases s) as [[Hall _]|[_ ?]]; [|done].
  apply Exists_exists in Hex as (c & Hc & Hgt).
  rewrite Forall_forall in Hall. apply Hall in Hc. lia.
Qed.

(** What [onRequest] does once the credentials passed the guard and [btoa]
    returned. *)
Lemma onRequest_dispatch (host : Host) (context : Context) (auth : jsstring) :
  truthy (JUMIO_TOKEN (env context)) = true ->
  truthy (JUMIO_SECRET (env context)) = true ->
  btoa (template (JUMIO_TOKEN (env context)) ++ str ":"
        ++ template (JUMIO_SECRET (env context))) = Normal auth ->
  onRequest host context =
  if decide (method (request context) = str "POST") then
    try_catch
      (body ← request_json (request context);
       userEmail ← get_property body (str "userEmail");
       response ← fetch host {|
         fetch_url := str "https://netverify.com/api/v4/initiate";
         fetch_method := str "POST";
         fetch_headers := [(str "Authorization", str "Basic " ++ auth);
                           (str "Content-Type", str "application/json");
                           (str "User-Agent", str "Cloudflare Worker")];
         fetch_body := Some (JObject [
           (str "customerInternalReference", JString (randomUUID host));
           (str "userReference", json_or_else userEmail (JString (str "guest_user")));
           (str "successUrl", JString (str "https://example.com/success"));
           (str "errorUrl", JString (str "https://example.com/error"))]) |};
       data ← upstream_json response;
       Normal {| body := Stringified data; status := 200; headers := json_headers |})
      (fun err =>
       Normal {| body := Stringified (JObject [(str "error", JString (error_message host err))]);
                 status := 500; headers := [] |})
  else if decide (method (request context) = str "GET") then
    let scanRef := assoc (str "scanReference") (searchParams (request context)) in
    if negb (truthy scanRef) then
      Normal {| body := Plain (str "Missing Reference"); status := 400; headers := [] |}
    else
      response ← fetch host {|
        fetch_url := str "https://netverify.com/api/v4/transactions/" ++ template scanRef;
        fetch_method := str "GET";
        fetch_headers := [(str "Authorization", str "Basic " ++ auth)];
        fetch_body := None |};
      data ← upstream_json response;
      Normal {| body := Stringified data; status := 200; headers := json_headers |}
  else
    Normal {| body := Plain (str "Method not allowed"); status := 405; headers := [] |}.
Proof.
  intros Htoken Hsecret Hauth. unfold onRequest.
  rewrite Htoken, Hsecret. cbn [negb orb]. rewrite Hauth. by rewrite bind_normal.
Qed.

Lemma onRequest_guard (host : Host) (context : Context) :
  truthy (JUMIO_TOKEN (env context)) = false
  \/ truthy (JUMIO_SECRET (env context)) = false ->
  onRequest host context = Normal Scenarios.missing_keys.
Proof.
  intros Hfalsy. unfold onRequest. destruct Hfalsy as [-> | ->]; [done|].
  by rewrite orb_true_r.
Qed.

End RelayBasics.

Module RelayClaims.
Import JS Relay JSFacts Scenarios RelayBasics.

(** C7 (amended).  When both credentials are configured and hold no
    character above U+00FF, a GET request without the [scanReference] query
    parameter is answered with status 400, and a request whose method is
    neither POST nor GET with status 405. *)
Theorem relay_rejects_bad_requests (host : Host) (context : Context) :
  truthy (JUMIO_TOKEN (env context)) = true ->
  truthy (JUMIO_SECRET (env context)) = true ->
  Forall (fun c => (c <= 0xFF)%N)
    (template (JUMIO_TOKEN (env context)) ++ str ":"
     ++ template (JUMIO_SECRET (env context))) ->
  (method (request context) = str "GET" ->
   assoc (str "scanReference") (searchParams (request context)) = None ->
   exists response, onRequest host context = Normal response /\ status response = 400)
  /\ (method (request context) <> str "POST" -> method (request context) <> str "GET" ->
      exists response, onRequest host context = Normal response /\ status response = 405).
Proof.
  intros Htoken Hsecret Hbytes.
  rewrite (onRequest_dispatch host context _ Htoken Hsecret (btoa_bytes _ Hbytes)). split.
  - intros Hget Href. rewrite Hget, Href. rewrite decide_False by discriminate.
    rewrite decide_True by done. by eexists.
  - intros Hpost Hget. rewrite !decide_False by done. by eexists.
Qed.

(** C9.  When the token or the secret is absent, every request, whatever
    its method and query, is answered with status 500 and the JSON body
    [{error: "Missing API Keys in Cloudflare"}]: never with 400 or 405. *)
Theorem relay_without_credentials (host : Host) (context : Context) :
  JUMIO_TOKEN (env context) = None \/ JUMIO_SECRET (env context) = None ->
  onRequest host context = Normal missing_keys
  /\ status missing_keys = 500
  /\ status missing_keys <> 400 /\ status missing_keys <> 405.
Proof.
  intros Habsent. split; [|by repeat split].
  apply onRequest_guard. destruct Habsent as [-> | ->]; [by left|by right].
Qed.

Lemma relay_rejects_bad_requests_witness :
  (exists response,
     onRequest offline_host {| env := configured; request := get_without_reference |}
     = Normal response /\ status response = 400)
  /\ (exists response,
        onRequest offline_host {| env := configured; request := delete_request |}
        = Normal response /\ status response = 405).
Proof.
  split.
  - apply (relay_rejects_bad_requests offline_host
             {| env := configured; request := get_without_reference |});
      try reflexivity.
    apply (bool_decide_unpack _). by vm_compute.
  - apply (relay_rejects_bad_requests offline_host
             {| env := configured; request := delete_request |});
      try (reflexivity || discriminate).
    apply (bool_decide_unpack _). by vm_compute.
Defined.

(** C7, as stated, fails.  When a credential is missing, the GET request
    without a reference and the DELETE request are both answered with 500;
    and when a credential holds a character above U+00FF (here a euro
    sign), they are not answered at all: the handler throws. *)
Lemma relay_bad_requests_otherwise :
  (exists response,
     onRequest offline_host {| env := unconfigured; request := get_without_reference |}
     = Normal response
     /\ method get_without_reference = str "GET"
     /\ assoc (str "scanReference") (searchParams get_without_reference) = None
     /\ status response = 500 /\ status response <> 400)
  /\ (exists response,
        onRequest offline_host {| env := unconfigured; request := delete_request |}
        = Normal response
        /\ method delete_request <> str "POST" /\ method delete_request <> str "GET"
        /\ status response = 500 /\ status response <> 405)
  /\ onRequest offline_host {| env := misencoded; request := get_without_reference |}
     = Throw InvalidCharacterError
  /\ onRequest offline_host {| env := misencoded; request := delete_request |}
     = Throw InvalidCharacterError.
Proof.
  split; [|split]; [eexists; (split; [reflexivity|]); by repeat split ..|].
  by split.
Qed.

Lemma relay_without_credentials_witness :
  onRequest offline_host {| env := unconfigured; request := get_without_reference |}
  = Normal missing_keys
  /\ status missing_keys = 500
  /\ status missing_keys <> 400 /\ status missing_keys <> 405.
Proof.
  apply (relay_without_credentials offline_host
           {| env := unconfigured; request := get_without_reference |}).
  left. reflexivity.
Defined.

End RelayClaims.

Module Binary64Facts.
Import JS Matching Binary64 SimilarityFacts.

(** X6.  For strings of up to 256 characters the comparisons of [performMatching]
    come out the same in binary64 as in exact arithmetic, the binary64
    score is a percentage, and it is within 2^-40 of the exact score. *)
Theorem thresholds_agree (longest distance : nat) :
  1 <= distance -> distance <= longest -> longest <= 256 ->
  geq (score64 longest distance) 70 = exact_geq (score longest distance) 70
  /\ geq (score64 longest distance) 80 = exact_geq (score longest distance) 80
  /\ geq (score64 longest distance) 85 = exact_geq (score longest distance) 85
  /\ geq (score64 longest distance) 0 = true
  /\ geq 100 (score64 longest distance) = true
  /\ (Qabs (to_Q (score64 longest distance) - score longest distance) <= 1 # 2 ^ 40)%Q.
Proof.
  intros Hd Hl Hbound.
  destruct (score64_facts longest distance Hd Hl Hbound)
    as (H70 & H80 & H85 & H0 & H100 & _ & Hclose).
  by repeat split.
Qed.

Lemma thresholds_agree_witness :
  geq (score64 5 1) 70 = exact_geq (score 5 1) 70
  /\ geq (score64 5 1) 80 = exact_geq (score 5 1) 80
  /\ geq (score64 5 1) 85 = exact_geq (score 5 1) 85
  /\ geq (score64 5 1) 0 = true
  /\ geq 100 (score64 5 1) = true
  /\ (Qabs (to_Q (score64 5 1) - score 5 1) <= 1 # 2 ^ 40)%Q.
Proof. apply (thresholds_agree 5 1); lia. Defined.

End Binary64Facts.

Module DistanceFacts.
Import JS Matching EditDistance Specification Binary64.
Import JSFacts EditDistanceFacts TableFacts SimilarityFacts.

Section Chains.
Context {A : Type} `{EqDecision A}.
Implicit Types (s t u : list A) (n m : nat).

Lemma transforms_app n m s t u :
  transforms n s t -> transforms m t u -> transforms (n + m) s u.
Proof.
  induction 1 as [s|n s s' t He _ IH]; intros Htu; [done|].
  cbn. eapply transforms_step; [done|]. by apply IH.
Qed.

Lemma lev_triangle s t u : lev s u <= lev s t + lev t u.
Proof.
  apply lev_le_transforms, (transforms_app _ _ s t u);
    apply transforms_script, script_lev.
Qed.

Lemma transforms_0 s t : transforms 0 s t -> s = t.
Proof. by inversion 1. Qed.

Lemma lev_eq_0 s t : lev s t = 0 <-> s = t.
Proof.
  split.
  - intros E. apply transforms_0. rewrite <-E. apply transforms_script, script_lev.
  - intros ->. apply lev_refl.
Qed.

Lemma edit_length s t : edit s t -> length s <= S (length t) /\ length t <= S (length s).
Proof. destruct 1; rewrite !length_app; cbn; lia. Qed.

Lemma transforms_length n s t :
  transforms n s t -> length s <= length t + n /\ length t <= length s + n.
Proof.
  induction 1 as [s|n s s' t He%edit_length _ IH]; [lia|]. lia.
Qed.

Lemma lev_length s t : length s <= length t + lev s t /\ length t <= length s + lev s t.
Proof. apply transforms_length, transforms_script, script_lev. Qed.

Lemma edit_distance_unique s t d : edit_distance s t d -> d = lev s t.
Proof.
  intros [Hd Hmin]. apply Nat.le_antisymm.
  - apply Hmin, transforms_script, script_lev.
  - by apply lev_le_transforms.
Qed.

End Chains.

(** X7.  On non-empty strings the result of [getLevenshteinDistance] is a
    metric: zero exactly between equal strings, symmetric, and never more
    than the sum of the distances through a third string. *)
Theorem getLevenshteinDistance_metric (a b c : jsstring) :
  a <> [] -> b <> [] -> c <> [] ->
  exists dab dba dbc dac,
    getLevenshteinDistance a b = Normal dab
    /\ getLevenshteinDistance b a = Normal dba
    /\ getLevenshteinDistance b c = Normal dbc
    /\ getLevenshteinDistance a c = Normal dac
    /\ (dab = 0 <-> a = b) /\ dab = dba /\ dac <= dab + dbc.
Proof.
  intros Ha Hb Hc. exists (lev a b), (lev b a), (lev b c), (lev a c).
  rewrite !getLevenshteinDistance_lev by done. repeat split; try done.
  - by intros ?%lev_eq_0.
  - by intros ?%lev_eq_0.
  - apply lev_sym.
  - apply lev_triangle.
Qed.

Lemma getLevenshteinDistance_metric_witness :
  exists dab dba dbc dac,
    getLevenshteinDistance (str "kitten") (str "sitten") = Normal dab
    /\ getLevenshteinDistance (str "sitten") (str "kitten") = Normal dba
    /\ getLevenshteinDistance (str "sitten") (str "sitting") = Normal dbc
    /\ getLevenshteinDistance (str "kitten") (str "sitting") = Normal dac
    /\ (dab = 0 <-> str "kitten" = str "sitten") /\ dab = dba /\ dac <= dab + dbc.
Proof.
  apply (getLevenshteinDistance_metric (str "kitten") (str "sitten") (str "sitting"));
    discriminate.
Defined.

(** X26.  [getLevenshteinDistance] never throws, and its result is the
    minimum number of single-character edits except when exactly one of the
    strings is empty: the early return then gives 0, not the length of the
    other string. *)
Theorem getLevenshteinDistance_exact_iff (a b : jsstring) :
  exists d, getLevenshteinDistance a b = Normal d
    /\ (edit_distance a b d <-> ((a = [] <-> b = [])))
    /\ (a = [] \/ b = [] -> d = 0).
Proof.
  destruct (decide (a = [])) as [Ha|Ha]; [|destruct (decide (b = [])) as [Hb|Hb]].
  - exists 0. rewrite getLevenshteinDistance_empty by auto. split; [done|].
    split; [|done]. split.
    + intros Hd%edit_distance_unique. subst a. rewrite lev_nil_l in Hd.
      split; [|done]. intros _. by apply nil_length_inv.
    + intros [Hb _]. rewrite Ha, (Hb Ha). pose proof (lev_edit_distance (@nil N) []) as H.
      by rewrite lev_nil_l in H.
  - exists 0. rewrite getLevenshteinDistance_empty by auto. split; [done|].
    split; [|done]. split.
    + intros Hd%edit_distance_unique. subst b. rewrite lev_nil_r in Hd.
      split; [done|]. intros _. by apply nil_length_inv.
    + intros [_ Hab]. by destruct Ha; apply Hab.
  - exists (lev a b). rewrite getLevenshteinDistance_lev by done. split; [done|].
    split; [|tauto]. split; [tauto|]. intros _. apply lev_edit_distance.
Qed.

(** X8.  The distance is at least the difference of the two lengths and at most
    the greater of them. *)
Theorem getLevenshteinDistance_bounds (a b : jsstring) :
  a <> [] -> b <> [] ->
  exists d, getLevenshteinDistance a b = Normal d
    /\ length a - length b <= d /\ length b - length a <= d
    /\ d <= Nat.max (length a) (length b).
Proof.
  intros Ha Hb. exists (lev a b). rewrite getLevenshteinDistance_lev by done.
  pose proof (lev_length a b). pose proof (lev_le_max a b). repeat split; lia.
Qed.

Lemma getLevenshteinDistance_bounds_witness :
  exists d, getLevenshteinDistance (str "Jo") (str "Johnson") = Normal d
    /\ length (str "Jo") - length (str "Johnson") <= d
    /\ length (str "Johnson") - length (str "Jo") <= d
    /\ d <= Nat.max (length (str "Jo")) (length (str "Johnson")).
Proof. apply (getLevenshteinDistance_bounds (str "Jo") (str "Johnson")); discriminate. Defined.

End DistanceFacts.

Module ThresholdFacts.
Import JS Unicode Matching EditDistance Specification Binary64.
Import JSFacts UnicodeFacts EditDistanceFacts TableFacts SimilarityFacts DistanceFacts.

Section Engine.
Context {E : Engine}.

(** X9.  The checks of [performMatching], read as a budget of edits, for
    normalized strings of at most 256 characters: the names pass when at
    most 15 in 100 characters of the longer normalized string need
    editing, the address when at most 30 in 100, the city when at most 20
    in 100. *)
Theorem thresholds_in_edits (a b : jsstring) :
  Nat.max (length (normalized a)) (length (normalized b)) <= 256 ->
  exists q d,
    calculateSimilarity (Some (JString a)) (Some (JString b)) = Normal q
    /\ edit_distance (normalized a) (normalized b) d
    /\ let longest := Nat.max (length (normalized a)) (length (normalized b)) in
       (geq q 85 = true <-> 20 * d <= 3 * longest)
       /\ (geq q 80 = true <-> 5 * d <= longest)
       /\ (geq q 70 = true <-> 10 * d <= 3 * longest).
Proof.
  intros Hbound.
  destruct (score_of_thresholds (normalized a) (normalized b) Hbound)
    as (H85 & H80 & H70 & _).
  exists (score_of (normalized a) (normalized b)), (lev (normalized a) (normalized b)).
  split; [apply calculateSimilarity_cases|]. split; [apply lev_edit_distance|].
  intros longest. split; [exact H85|]. split; [exact H80|exact H70].
Qed.

(** X10.  Names of at most six characters must agree exactly, once lowercased
    and trimmed, to pass the 85 per cent threshold. *)
Theorem short_names_need_exact_match (a b : jsstring) :
  length (normalized a) <= 6 -> length (normalized b) <= 6 ->
  exists q, calculateSimilarity (Some (JString a)) (Some (JString b)) = Normal q
    /\ (geq q 85 = true <-> normalized a = normalized b).
Proof.
  intros Ha Hb.
  destruct (score_of_thresholds (normalized a) (normalized b)) as (H85 & _); [lia|].
  exists (score_of (normalized a) (normalized b)).
  split; [apply calculateSimilarity_cases|]. rewrite H85. split.
  - intros Hle. apply lev_eq_0. lia.
  - intros ->. rewrite lev_refl. lia.
Qed.

(** X11.  For normalized strings of at most 256 characters the score is 100
    only between strings that are equal once lowercased and trimmed. *)
Theorem full_score_means_equal (a b : jsstring) :
  Nat.max (length (normalized a)) (length (normalized b)) <= 256 ->
  exists q, calculateSimilarity (Some (JString a)) (Some (JString b)) = Normal q
    /\ (PrimFloat.eqb q 100 = true <-> normalized a = normalized b).
Proof.
  intros Hbound.
  destruct (score_of_thresholds (normalized a) (normalized b) Hbound)
    as (_ & _ & _ & H100 & _).
  exists (score_of (normalized a) (normalized b)).
  split; [apply calculateSimilarity_cases|exact H100].
Qed.

End Engine.

Lemma thresholds_in_edits_witness :
  let E := ascii_engine in
  exists q d,
    calculateSimilarity (Some (JString (str "10 Downing Street")))
      (Some (JString (str "10 Downing St"))) = Normal q
    /\ edit_distance (normalized (str "10 Downing Street")) (normalized (str "10 Downing St")) d
    /\ let longest := Nat.max (length (normalized (str "10 Downing Street")))
                              (length (normalized (str "10 Downing St"))) in
       (geq q 85 = true <-> 20 * d <= 3 * longest)
       /\ (geq q 80 = true <-> 5 * d <= longest)
       /\ (geq q 70 = true <-> 10 * d <= 3 * longest).
Proof.
  apply (@thresholds_in_edits ascii_engine (str "10 Downing Street") (str "10 Downing St")).
  vm_compute. lia.
Defined.

Lemma short_names_need_exact_match_witness :
  let E := ascii_engine in
  exists q, calculateSimilarity (Some (JString (str "Smith"))) (Some (JString (str "Smyth")))
            = Normal q
    /\ (geq q 85 = true <-> normalized (str "Smith") = normalized (str "Smyth")).
Proof.
  apply (@short_names_need_exact_match ascii_engine (str "Smith") (str "Smyth"));
    vm_compute; lia.
Defined.

Lemma full_score_means_equal_witness :
  let E := ascii_engine in
  exists q, calculateSimilarity (Some (JString (str " SMITH"))) (Some (JString (str "smith ")))
            = Normal q
    /\ (PrimFloat.eqb q 100 = true <-> normalized (str " SMITH") = normalized (str "smith ")).
Proof.
  apply (@full_score_means_equal ascii_engine (str " SMITH") (str "smith ")).
  vm_compute. lia.
Defined.

End ThresholdFacts.

Module NormalFormFacts.
Import JS Unicode Matching EditDistance Specification Binary64 Scenarios.
Import JSFacts UnicodeFacts EditDistanceFacts TableFacts SimilarityFacts MatchingFacts.

Lemma ascii_lower_upper c : ascii_lower (ascii_upper c) = ascii_lower c.
Proof.
  unfold ascii_lower, ascii_upper.
  repeat (match goal with
          | |- context [(?a <=? ?b)%N] => destruct (N.leb_spec a b)
          end; cbn [andb] in *); lia.
Qed.

Lemma ascii_upper_lower c : ascii_upper (ascii_lower c) = ascii_upper c.
Proof.
  unfold ascii_lower, ascii_upper.
  repeat (match goal with
          | |- context [(?a <=? ?b)%N] => destruct (N.leb_spec a b)
          end; cbn [andb] in *); lia.
Qed.

Lemma ascii_lower_idem c : ascii_lower (ascii_lower c) = ascii_lower c.
Proof.
  unfold ascii_lower.
  repeat (match goal with
          | |- context [(?a <=? ?b)%N] => destruct (N.leb_spec a b)
          end; cbn [andb] in *); lia.
Qed.

Lemma is_ascii_upper c : is_ascii c = true -> is_ascii (ascii_upper c) = true.
Proof.
  unfold is_ascii, ascii_upper. rewrite !N.ltb_lt.
  destruct (N.leb_spec 0x61 c), (N.leb_spec c 0x7A); cbn [andb]; lia.
Qed.

Lemma is_ascii_lower c : is_ascii c = true -> is_ascii (ascii_lower c) = true.
Proof.
  unfold is_ascii, ascii_lower. rewrite !N.ltb_lt.
  destruct (N.leb_spec 0x41 c), (N.leb_spec c 0x5A); cbn [andb]; lia.
Qed.

Lemma remove_spaces_ascii s :
  Forall (fun c => is_ascii c = true) s ->
  Forall (fun c => is_ascii c = true) (remove_spaces s).
Proof.
  unfold remove_spaces. induction 1 as [|c s Hc _ IH]; [done|].
  rewrite filter_cons. case_decide; [by constructor|done].
Qed.

Section Engine.
Context {E : Engine}.

(** On text in ASCII, a conversion of case before [toLowerCase] or
    [toUpperCase] is lost. *)
Lemma case_after_case `{!AsciiLaws E} (a : jsstring) :
  Forall (fun c => is_ascii c = true) a ->
  toLowerCase (toUpperCase a) = toLowerCase a
  /\ toLowerCase (toLowerCase a) = toLowerCase a
  /\ toUpperCase (toLowerCase a) = toUpperCase a.
Proof.
  intros Ha.
  assert (Hup : Forall (fun c => is_ascii c = true) (ascii_upper <$> a)).
  { apply Forall_fmap. eapply Forall_impl; [done|]. intros c. apply is_ascii_upper. }
  assert (Hlow : Forall (fun c => is_ascii c = true) (ascii_lower <$> a)).
  { apply Forall_fmap. eapply Forall_impl; [done|]. intros c. apply is_ascii_lower. }
  rewrite (upper_ascii a Ha), (lower_ascii a Ha), (lower_ascii _ Hup), (lower_ascii _ Hlow),
    (upper_ascii _ Hlow).
  rewrite <-!list_fmap_compose. split; [|split]; apply list_fmap_ext; intros _ c _; cbn.
  - apply ascii_lower_upper.
  - apply ascii_lower_idem.
  - apply ascii_upper_lower.
Qed.

Lemma upper_nil `{!AsciiLaws E} : toUpperCase [] = [].
Proof. by rewrite upper_ascii. Qed.

Lemma normalizePostcode_Normalize `{!AsciiLaws E} (x : jsstring) :
  normalizePostcode (Some (JString x)) = Normal (toUpperCase (remove_spaces x)).
Proof.
  rewrite normalizePostcode_string. case_decide as Hx; [|done].
  subst x. unfold remove_spaces. by rewrite filter_nil, upper_nil.
Qed.

Lemma remove_spaces_ascii_lower s :
  remove_spaces (ascii_lower <$> s) = ascii_lower <$> remove_spaces s.
Proof.
  unfold remove_spaces. induction s as [|c s IH]; [done|].
  rewrite fmap_cons, !filter_cons, is_space_ascii_lower, IH.
  by destruct (decide (is_space c = false)).
Qed.

(** X12.  Surrounding white space never counts, and on a value in ASCII
    neither does letter case: a value with any white space before and
    after it scores against every string what the value itself scores, and
    so does a value in ASCII written in capitals or in small letters. *)
Theorem similarity_ignores_case_and_margins `{!AsciiLaws E} `{!LowerLaws E}
    (pre a post b : jsstring) :
  Forall (fun c => is_space c = true) pre ->
  Forall (fun c => is_space c = true) post ->
  (calculateSimilarity (Some (JString (pre ++ a ++ post))) (Some (JString b))
     = calculateSimilarity (Some (JString a)) (Some (JString b))
   /\ calculateSimilarity (Some (JString b)) (Some (JString (pre ++ a ++ post)))
     = calculateSimilarity (Some (JString b)) (Some (JString a)))
  /\ (Forall (fun c => is_ascii c = true) a ->
      calculateSimilarity (Some (JString (pre ++ toUpperCase a ++ post))) (Some (JString b))
        = calculateSimilarity (Some (JString a)) (Some (JString b))
      /\ calculateSimilarity (Some (JString (pre ++ toLowerCase a ++ post))) (Some (JString b))
        = calculateSimilarity (Some (JString a)) (Some (JString b))
      /\ calculateSimilarity (Some (JString b)) (Some (JString (pre ++ toUpperCase a ++ post)))
        = calculateSimilarity (Some (JString b)) (Some (JString a))
      /\ calculateSimilarity (Some (JString b)) (Some (JString (pre ++ toLowerCase a ++ post)))
        = calculateSimilarity (Some (JString b)) (Some (JString a))).
Proof.
  intros Hpre Hpost.
  pose proof (fun s => normalized_margins pre s post Hpre Hpost) as Hmargins.
  split.
  - split; by apply calculateSimilarity_normalized.
  - intros Ha. destruct (case_after_case a Ha) as (Hu & Hl & _).
    assert (normalized (pre ++ toUpperCase a ++ post) = normalized a) as Hupper.
    { rewrite Hmargins. unfold normalized. by rewrite Hu. }
    assert (normalized (pre ++ toLowerCase a ++ post) = normalized a) as Hlower.
    { rewrite Hmargins. unfold normalized. by rewrite Hl. }
    repeat split; by apply calculateSimilarity_normalized.
Qed.

(** X13.  Postcodes are compared without their white space, and in ASCII
    without regard to case: white space put anywhere into a postcode
    leaves its normal form unchanged, and so do small letters for capitals
    in a postcode in ASCII; a postcode of white space only has the normal
    form of a missing one, the empty string. *)
Theorem postcode_ignores_case_and_spaces `{!AsciiLaws E} (x sp y : jsstring) :
  Forall (fun c => is_space c = true) sp ->
  normalizePostcode (Some (JString (x ++ sp ++ y)))
    = normalizePostcode (Some (JString (x ++ y)))
  /\ (Forall (fun c => is_ascii c = true) (x ++ y) ->
      normalizePostcode (Some (JString (toLowerCase (x ++ y))))
        = normalizePostcode (Some (JString (x ++ y))))
  /\ normalizePostcode (Some (JString sp)) = normalizePostcode None
  /\ normalizePostcode None = Normal (str "").
Proof.
  intros Hsp. rewrite !normalizePostcode_Normalize. split; [|split; [|split]].
  - by rewrite !remove_spaces_app, (remove_spaces_spaces sp).
  - intros Hxy. pose proof (remove_spaces_ascii _ Hxy) as Hclean.
    destruct (case_after_case _ Hclean) as (_ & _ & Hul).
    rewrite (lower_ascii _ Hxy), remove_spaces_ascii_lower.
    by rewrite <-(lower_ascii _ Hclean), Hul.
  - by rewrite remove_spaces_spaces, upper_nil.
  - reflexivity.
Qed.

(** X27.  The verdict reads the form through its normal forms only: two
    registrations with the same date of birth, the same postcode once
    normalized, and the same names, address line and city once lowercased
    and trimmed, get on every payload the same outcome: the same error, or
    reports with the same flags, the same messages, the same document
    values and the same [passed].  The flat number is never read. *)
Theorem verdict_reads_normal_forms `{!LowerLaws E} (r r' : Reg.t) (jumioData : any) :
  Reg.dob r = Reg.dob r' ->
  normalizePostcode (Some (JString (Reg.postcode r)))
    = normalizePostcode (Some (JString (Reg.postcode r'))) ->
  normalized (Reg.lastName r) = normalized (Reg.lastName r') ->
  normalized (Reg.firstName r) = normalized (Reg.firstName r') ->
  normalized (Reg.houseNo r ++ str " " ++ Reg.street r)
    = normalized (Reg.houseNo r' ++ str " " ++ Reg.street r') ->
  normalized (Reg.city r) = normalized (Reg.city r') ->
  match performMatching r jumioData, performMatching r' jumioData with
  | Normal report, Normal report' =>
      passed report = passed report'
      /\ match_ <$> checks report = match_ <$> checks report'
      /\ message <$> checks report = message <$> checks report'
      /\ doc <$> checks report = doc <$> checks report'
  | Throw e, Throw e' => e = e'
  | _, _ => False
  end.
Proof.
  intros Hdob Hpc Hln Hfn Had Hcity.
  rewrite !performMatching_steps.
  destruct (prepare jumioData) as [docData|e]; [|done]. rewrite !bind_normal.
  rewrite <-Hpc.
  destruct (normalizePostcode (Some (JString (Reg.postcode r)))) as [regPC|e]; [|done].
  rewrite !bind_normal.
  destruct (normalizePostcode (Some (Doc.postcode docData))) as [docPC|e]; [|done].
  rewrite !bind_normal.
  rewrite !calculateSimilarity_text.
  set (ln := text (Some (Doc.lastName docData))).
  set (fn := text (Some (Doc.firstName docData))).
  set (l1 := text (Some (Doc.addressLine docData))).
  set (city := text (Some (Doc.city docData))).
  cbn [text]. rewrite !normalized_trim, <-Hln, <-Hfn, <-Had, <-Hcity.
  destruct ln as [ln|]; [|done]. rewrite !bind_normal.
  destruct fn as [fn|]; [|done]. rewrite !bind_normal.
  destruct l1 as [l1|]; [|done]. rewrite !bind_normal.
  destruct city as [city|]; [|done]. rewrite !bind_normal.
  destruct (rules_text docData) as [docText|e]; [|done]. rewrite !bind_normal.
  cbn [passed checks]. unfold checks_of. cbn [fmap list_fmap match_ message doc].
  rewrite Hdob. by repeat split.
Qed.

End Engine.

Lemma similarity_ignores_case_and_margins_witness :
  let E := ascii_engine in
  let pre := str "  " in
  let a := str "Smith" in
  let post := [0xA0%N] in
  let b := str "smyth" in
  (calculateSimilarity (Some (JString (pre ++ a ++ post))) (Some (JString b))
     = calculateSimilarity (Some (JString a)) (Some (JString b))
   /\ calculateSimilarity (Some (JString b)) (Some (JString (pre ++ a ++ post)))
     = calculateSimilarity (Some (JString b)) (Some (JString a)))
  /\ (Forall (fun c => is_ascii c = true) a ->
      calculateSimilarity (Some (JString (pre ++ toUpperCase a ++ post))) (Some (JString b))
        = calculateSimilarity (Some (JString a)) (Some (JString b))
      /\ calculateSimilarity (Some (JString (pre ++ toLowerCase a ++ post))) (Some (JString b))
        = calculateSimilarity (Some (JString a)) (Some (JString b))
      /\ calculateSimilarity (Some (JString b)) (Some (JString (pre ++ toUpperCase a ++ post)))
        = calculateSimilarity (Some (JString b)) (Some (JString a))
      /\ calculateSimilarity (Some (JString b)) (Some (JString (pre ++ toLowerCase a ++ post)))
        = calculateSimilarity (Some (JString b)) (Some (JString a))).
Proof.
  apply (@similarity_ignores_case_and_margins ascii_engine ascii_engine_ascii
           ascii_engine_lower (str "  ") (str "Smith") [0xA0%N] (str "smyth"));
    repeat constructor.
Defined.

Lemma postcode_ignores_case_and_spaces_witness :
  let E := ascii_engine in
  let x := str "SW1A" in
  let sp := [0x20%N; 0x2009%N] in
  let y := str "1AA" in
  normalizePostcode (Some (JString (x ++ sp ++ y)))
    = normalizePostcode (Some (JString (x ++ y)))
  /\ (Forall (fun c => is_ascii c = true) (x ++ y) ->
      normalizePostcode (Some (JString (toLowerCase (x ++ y))))
        = normalizePostcode (Some (JString (x ++ y))))
  /\ normalizePostcode (Some (JString sp)) = normalizePostcode None
  /\ normalizePostcode None = Normal (str "").
Proof.
  apply (@postcode_ignores_case_and_spaces ascii_engine ascii_engine_ascii
           (str "SW1A") [0x20%N; 0x2009%N] (str "1AA")).
  repeat constructor.
Defined.

Lemma verdict_reads_normal_forms_witness :
  let E := ascii_engine in
  match performMatching scenario_D_registration (Some scenario_D_payload),
        performMatching loud_registration (Some scenario_D_payload) with
  | Normal report, Normal report' =>
      passed report = passed report'
      /\ match_ <$> checks report = match_ <$> checks report'
      /\ message <$> checks report = message <$> checks report'
      /\ doc <$> checks report = doc <$> checks report'
  | Throw e, Throw e' => e = e'
  | _, _ => False
  end.
Proof.
  apply (@verdict_reads_normal_forms ascii_engine ascii_engine_lower
           scenario_D_registration loud_registration (Some scenario_D_payload));
    vm_compute; reflexivity.
Defined.

End NormalFormFacts.

Module LegacyFacts.
Import JS Unicode Matching Specification Scenarios.
Import JSFacts UnicodeFacts TableFacts SimilarityFacts MatchingFacts.

Lemma Legacy_prepare_payload (payload : json) :
  Legacy.prepare (Some payload)
  = match payload with
    | JNull => Throw TypeError
    | _ => Normal {|
        Legacy.Doc.firstName := Doc.firstName (document_data payload);
        Legacy.Doc.lastName := Doc.lastName (document_data payload);
        Legacy.Doc.dob := Doc.dob (document_data payload);
        Legacy.Doc.postcode := Doc.postcode (document_data payload);
        Legacy.Doc.address1 := Doc.addressLine (document_data payload);
        Legacy.Doc.type := Doc.type (document_data payload);
        Legacy.Doc.country := Doc.country (document_data payload) |}
    end.
Proof.
  unfold document_data, document_field, address_field, read.
  rewrite !at_path_cons. cbn [at_path]. by destruct payload.
Qed.

Section Engine.
Context {E : Engine}.

(** X14.  Adding the city check to the routine changed no verdict: on a
    payload on which the later routine returns a report (as it does on
    every textual payload), the earlier routine (given the house number, a
    space and the street as its address line) returns one too, with the
    same flags, document values and messages for the six checks it has, in
    the same order, and the same [passed]. *)
Theorem city_check_changed_no_verdict `{!LowerLaws E} (regData : Reg.t) (payload : json) :
  (textual payload = true ->
   exists later, performMatching regData (Some payload) = Normal later)
  /\ forall later,
       performMatching regData (Some payload) = Normal later ->
       exists earlier,
         Legacy.performMatching (Legacy.of_registration regData) (Some payload)
         = Normal earlier
         /\ passed earlier = passed later
         /\ field <$> checks earlier =
            [str "Date of Birth"; str "Postcode"; str "Last Name"; str "First Name";
             str "Address Line 1"; str "Document Rules"]
         /\ match_ <$> checks earlier = delete 5 (match_ <$> checks later)
         /\ doc <$> checks earlier = delete 5 (doc <$> checks later)
         /\ message <$> checks earlier = delete 5 (message <$> checks later).
Proof.
  split; [apply performMatching_textual|].
  intros later Hrun.
  destruct (performMatching_report regData payload later Hrun)
    as (regPC & docPC & lnSim & fnSim & adSim & citySim & docText
        & HregPC & HdocPC & Hln & Hfn & Had & _ & Hrules & Hchecks & Hpassed).
  cbv zeta in *.
  assert (Hnull : match payload with JNull => false | _ => true end = true).
  { rewrite performMatching_steps, prepare_payload in Hrun. by destruct payload. }
  unfold Legacy.performMatching. rewrite Legacy_prepare_payload.
  assert (Hprep : forall (A : Type) (x : A),
            match payload with JNull => Throw TypeError | _ => Normal x end = Normal x).
  { intros A x. by destruct payload. }
  rewrite Hprep, bind_normal.
  cbn [Legacy.Doc.firstName Legacy.Doc.lastName Legacy.Doc.dob Legacy.Doc.postcode
       Legacy.Doc.address1 Legacy.Doc.type Legacy.Doc.country
       Legacy.of_registration Legacy.Reg.firstName Legacy.Reg.lastName Legacy.Reg.dob
       Legacy.Reg.address1 Legacy.Reg.postcode].
  rewrite HregPC, bind_normal, HdocPC, bind_normal, Hln, bind_normal, Hfn, bind_normal.
  assert (Had' : calculateSimilarity
                   (Some (JString (Reg.houseNo regData ++ str " " ++ Reg.street regData)))
                   (Some (Doc.addressLine (document_data payload))) = Normal adSim).
  { rewrite calculateSimilarity_text in Had |- *. cbn [text] in Had |- *.
    by rewrite normalized_trim in Had. }
  rewrite Had', bind_normal.
  unfold rules_text in Hrules. rewrite Hchecks, Hpassed. unfold checks_of.
  destruct (strict_equal (str "DRIVING_LICENSE") (Doc.type (document_data payload))
            && strict_equal (str "GBR") (Doc.country (document_data payload))) eqn:Hvalid.
  - cbn [negb]. rewrite bind_normal. injection Hrules as <-.
    eexists. split; [reflexivity|]. by repeat split.
  - cbn [negb].
    destruct (ToString (Doc.country (document_data payload))) as [country|e];
      [|by cbn in Hrules].
    rewrite bind_normal in Hrules. rewrite bind_normal.
    destruct (ToString (Doc.type (document_data payload))) as [type|e];
      [|by cbn in Hrules].
    rewrite bind_normal in Hrules. rewrite !bind_normal. injection Hrules as <-.
    eexists. split; [reflexivity|]. rewrite !andb_false_r. by repeat split.
Qed.

End Engine.

Lemma city_check_changed_no_verdict_witness :
  let E := ascii_engine in
  (textual scenario_D_payload = true ->
   exists later, performMatching scenario_D_registration (Some scenario_D_payload)
                 = Normal later)
  /\ forall later,
       performMatching scenario_D_registration (Some scenario_D_payload) = Normal later ->
       exists earlier,
         Legacy.performMatching (Legacy.of_registration scenario_D_registration)
           (Some scenario_D_payload) = Normal earlier
         /\ passed earlier = passed later
         /\ field <$> checks earlier =
            [str "Date of Birth"; str "Postcode"; str "Last Name"; str "First Name";
             str "Address Line 1"; str "Document Rules"]
         /\ match_ <$> checks earlier = delete 5 (match_ <$> checks later)
         /\ doc <$> checks earlier = delete 5 (doc <$> checks later)
         /\ message <$> checks earlier = delete 5 (message <$> checks later).
Proof.
  exact (@city_check_changed_no_verdict ascii_engine ascii_engine_lower
           scenario_D_registration scenario_D_payload).
Defined.

End LegacyFacts.

Module AppFacts.
Import JS Unicode Matching Specification App Sessions.
Import JSFacts UnicodeFacts TableFacts MatchingFacts.

(** What [startJumio] leaves alone, and what it can do to the widget. *)
Lemma startJumio_frame (br : Browser) (s : State) :
  step (startJumio br s) = step s
  /\ regData (startJumio br s) = regData s
  /\ matchReport (startJumio br s) = matchReport s
  /\ (widget (startJumio br s) = widget s
      \/ exists w, widget (startJumio br s) = Some w /\ registration w = regData s).
Proof.
  unfold startJumio.
  destruct (post_session br) as [response|e]; cbn -[performMatching str]; [|auto].
  destruct (ok response); cbn -[performMatching str]; [|auto].
  destruct (session_json response) as [[data|]|e]; cbn -[performMatching str]; [|auto..].
  destruct (JumioClient br); cbn -[performMatching str]; [|auto].
  repeat split; try done. right. eauto.
Qed.

Section Engine.
Context {E : Engine}.

(** The two ways [fetchJumioData] can end. *)
Lemma fetchJumioData_cases (br : Browser) (r : Reg.t) (ref : value) (s : State) :
  let s' := fetchJumioData br r ref s in
  loading s' = false /\ regData s' = regData s /\ widget s' = widget s
  /\ ((exists payload report,
         performMatching r (Some payload) = Normal report
         /\ step s' = 4 /\ matchReport s' = Some report /\ error s' = error s)
      \/ (step s' = step s /\ matchReport s' = matchReport s
          /\ error s' = Some (str "Failed to retrieve verification results."))).
Proof.
  unfold fetchJumioData.
  destruct (get_results br _) as [response|e]; cbn -[performMatching str].
  2:{ do 3 (split; [done|]). right. by repeat split. }
  destruct (results_json response) as [apiData|e]; cbn -[performMatching str].
  2:{ do 3 (split; [done|]). right. by repeat split. }
  destruct (performMatching r (Some apiData)) as [report|e] eqn:Hrun; cbn -[performMatching str].
  2:{ do 3 (split; [done|]). right. by repeat split. }
  do 3 (split; [done|]). left. exists apiData, report. by repeat split.
Qed.

Lemma invariant_initial : invariant initial.
Proof.
  split; cbn -[performMatching str]; try done; try lia.
Qed.

Lemma invariant_handle (br : Browser) (s s' : State) (e : Event) :
  invariant s -> handle br s e = Some s' -> invariant s'.
Proof.
  intros [Hstep Hreport Hform Hwidget Horigin] Hh.
  destruct e as [f v| | | | |]; cbn -[performMatching str] in Hh.
  - (* Change *)
    case_decide as H1; [|done]. injection Hh as <-.
    assert (matchReport s = None) as Hnone.
    { destruct (matchReport s) eqn:Hm; [|done].
      assert (step s = 4) by (apply Hreport; done). lia. }
    split; cbn -[performMatching str]; try done; try lia.
    + intros w Hw. apply Hwidget in Hw. lia.
    + intros report Hr. congruence.
  - (* NextStep *)
    case_decide as H1; [|done]. destruct (next_disabled (regData s)) eqn:Hd; [done|].
    injection Hh as <-. split; cbn -[performMatching str]; try done; try lia.
    + rewrite Hreport. lia.
    + intros w Hw. apply Hwidget in Hw. lia.
  - (* StartVerification *)
    case_decide as H2; [|done]. injection Hh as <-.
    destruct (startJumio_frame br (setStep s 3)) as (Es & Er & Em & Ew). cbn -[performMatching str] in Es, Er, Em, Ew.
    split.
    + rewrite Es. lia.
    + rewrite Es, Em, Hreport. lia.
    + rewrite Er. intros _. apply Hform. lia.
    + rewrite Es, Er. intros w Hw. destruct Ew as [Ew|(w' & Ew & Hreg)].
      * rewrite Ew in Hw. apply Hwidget in Hw. lia.
      * rewrite Ew in Hw. injection Hw as <-. split; [lia|done].
    + rewrite Em, Er. exact Horigin.
  - (* WidgetSuccess *)
    destruct (widget s) as [w|] eqn:Hw; [|done]. injection Hh as <-.
    destruct (Hwidget w eq_refl) as [H3 Hreg].
    destruct (fetchJumioData_cases br (registration w) (scanRef w) s)
      as (_ & Er & Ew & [(payload & report & Hrun & Es & Em & _)|(Es & Em & _)]).
    + split.
      * rewrite Es. lia.
      * rewrite Es, Em. done.
      * rewrite Er. intros _. apply Hform. lia.
      * rewrite Es, Er, Ew. intros w' Hw'. rewrite Hw in Hw'. injection Hw' as <-.
        split; [lia|done].
      * rewrite Em, Er. intros report' [= <-]. rewrite <-Hreg. eauto.
    + split.
      * rewrite Es. lia.
      * rewrite Es, Em. exact Hreport.
      * rewrite Es, Er. exact Hform.
      * rewrite Es, Er, Ew, Hw. exact Hwidget.
      * rewrite Em, Er. exact Horigin.
  - (* WidgetError *)
    destruct (widget s) as [w|] eqn:Hw; [|done]. injection Hh as <-.
    split; cbn -[performMatching str]; rewrite ?Hw; assumption.
  - (* StartAgain *)
    case_decide; [|done]. destruct (matchReport s); [|done]. injection Hh as <-.
    apply invariant_initial.
Qed.

Lemma reachable_invariant (br : Browser) (s : State) : reachable br s -> invariant s.
Proof.
  induction 1 as [|s s' e _ IH Hh]; [apply invariant_initial|].
  by eapply invariant_handle.
Qed.

Lemma run_reachable (br : Browser) (events : list Event) (s s' : State) :
  reachable br s -> run br events s = Some s' -> reachable br s'.
Proof.
  revert s. induction events as [|e events IH]; intros s Hs; cbn -[performMatching str].
  - by intros [= <-].
  - destruct (handle br s e) as [s1|] eqn:Hh; [|done]. cbn -[performMatching str].
    apply IH. by eapply reachable_handle.
Qed.

Lemma run_app (br : Browser) (l1 l2 : list Event) (s : State) :
  run br (l1 ++ l2) s = s' ← run br l1 s; run br l2 s'.
Proof.
  revert s. induction l1 as [|e l1 IH]; intros s; [done|].
  cbn [app run]. destruct (handle br s e) as [s1|]; [|done]. apply IH.
Qed.

Lemma run_typing (br : Browser) (r : Reg.t) :
  run br (typing r) initial = Some (setRegData initial r).
Proof. by destruct r. Qed.

(** X15.  In every state the page can be in, exactly one of the four panels is
    on the page: step 4 is never entered without a report. *)
Theorem one_panel_rendered (br : Browser) (s : State) :
  reachable br s -> exists panel, render s = [panel].
Proof.
  intros [Hstep Hreport _ _ _]%reachable_invariant. unfold render.
  destruct (decide (step s = 4)) as [H4|H4].
  - destruct (matchReport s) as [report|] eqn:Hm.
    + rewrite !decide_False by lia. eauto.
    + apply Hreport in H4. done.
  - repeat case_decide; try lia; eauto.
Qed.

(** X16.  The form cannot be left without a house number, a street and a
    postcode: from step 2 on, the three are not empty, and the registration
    record no longer changes. *)
Theorem verification_needs_address (br : Browser) (s : State) :
  reachable br s -> 2 <= step s ->
  Reg.houseNo (regData s) <> [] /\ Reg.street (regData s) <> []
  /\ Reg.postcode (regData s) <> []
  /\ forall f v, handle br s (Change f v) = None.
Proof.
  intros [_ _ Hform _ _]%reachable_invariant H2. specialize (Hform H2).
  unfold next_disabled in Hform. rewrite !truthy_Some in Hform.
  apply orb_false_elim in Hform as [Hform Hno]. apply orb_false_elim in Hform as [Hpc Hst].
  apply negb_false_iff, bool_decide_eq_true in Hpc, Hst, Hno.
  repeat split; try done. intros f v. cbn -[performMatching str]. rewrite decide_False by lia. done.
Qed.

(** X17.  A report is on the page only at step 4, and every report the page ever
    shows is what [performMatching] returns for the registration record
    typed in and some payload: seven checks, one table row each. *)
Theorem shown_report_is_reconciliation (br : Browser) (s : State) (report : Report) :
  reachable br s -> matchReport s = Some report ->
  step s = 4
  /\ (exists payload, performMatching (regData s) (Some payload) = Normal report)
  /\ length (checks report) = 7
  /\ exists rows,
       render s = [ResultsPanel (passed report)
                     (if passed report then str "Verification Passed"
                      else str "Verification Failed") rows]
       /\ row_field <$> rows = field <$> checks report
       /\ row_verdict <$> rows
          = (fun c => if match_ c then str "Pass" else str "Fail") <$> checks report.
Proof.
  intros [_ Hreport _ _ Horigin]%reachable_invariant Hm.
  assert (H4 : step s = 4) by (apply Hreport; congruence).
  destruct (Horigin report Hm) as [payload Hrun].
  split; [done|]. split; [eauto|]. split.
  - destruct (performMatching_report (regData s) payload report Hrun)
      as (regPC & docPC & lnSim & fnSim & adSim & citySim & docText
          & _ & _ & _ & _ & _ & _ & _ & Hchecks & _).
    by rewrite Hchecks.
  - unfold render. rewrite !decide_False, decide_True, Hm by lia. cbn -[performMatching str].
    eexists. split; [reflexivity|]. by rewrite <-!list_fmap_compose.
Qed.

(** X18.  However the retrieval goes wrong (the request fails, the body is
    not JSON, the payload is [null], or holds a number or an object where
    [performMatching] calls a string method), [fetchJumioData] leaves the
    fixed message on the page, stays on its step and keeps the report it
    had; when [performMatching] returns a report, as it does on every
    textual payload, it moves to step 4 with that report.  Either way the
    spinner stops. *)
Theorem fetchJumioData_outcome (br : Browser) (r : Reg.t) (ref : value) (s : State) :
  let url := str "/api/jumio?scanReference=" ++ template ref in
  let failed := setLoading (setError s (Some (str "Failed to retrieve verification results."))) false in
  loading (fetchJumioData br r ref s) = false
  /\ (forall e, get_results br url = Throw e -> fetchJumioData br r ref s = failed)
  /\ (forall response e, get_results br url = Normal response ->
        results_json response = Throw e -> fetchJumioData br r ref s = failed)
  /\ (forall response payload, get_results br url = Normal response ->
        results_json response = Normal payload ->
        (payload = JNull -> fetchJumioData br r ref s = failed)
        /\ (payload <> JNull -> text_fields payload = false ->
            fetchJumioData br r ref s = failed)
        /\ (forall e, performMatching r (Some payload) = Throw e ->
            fetchJumioData br r ref s = failed)
        /\ (forall report, performMatching r (Some payload) = Normal report ->
            fetchJumioData br r ref s
            = setLoading (setStep (setMatchReport s (Some report)) 4) false)
        /\ (textual payload = true ->
            exists report, performMatching r (Some payload) = Normal report)).
Proof.
  intros url failed. split; [apply fetchJumioData_cases|].
  unfold fetchJumioData. fold url. split; [|split].
  - by intros e ->.
  - intros response e H1 H2. rewrite H1. cbn -[performMatching str]. by rewrite H2.
  - intros response payload H1 H2. rewrite H1, bind_normal, H2, bind_normal.
    assert (Hthrow : forall e, performMatching r (Some payload) = Throw e ->
              setLoading
                match report ← performMatching r (Some payload);
                      Normal (setStep (setMatchReport s (Some report)) 4) with
                | Normal s' => s'
                | Throw _ =>
                    setError s (Some (str "Failed to retrieve verification results."))
                end false = failed).
    { by intros e ->. }
    split; [|split; [|split; [|split]]].
    + intros ->. by apply (Hthrow TypeError), performMatching_steps.
    + intros Hnull Hfields. apply (Hthrow TypeError), performMatching_untext; [|done].
      by destruct payload.
    + exact Hthrow.
    + by intros report ->.
    + apply performMatching_textual.
Qed.

(** X19.  Without the vendor script the page is a dead end: the session is
    started, the spinner turns, and no control is left on the page. *)
Theorem no_vendor_script_dead_end (br : Browser) (s : State) (response : SessionResponse)
    (data : SessionData) :
  reachable br s -> step s = 2 ->
  post_session br = Normal response -> ok response = true ->
  session_json response = Normal (Some data) ->
  JumioClient br = false ->
  exists s', handle br s StartVerification = Some s'
    /\ render s' = [ContainerPanel true None]
    /\ forall e, handle br s' e = None.
Proof.
  intros Hinv%reachable_invariant H2 Hpost Hok Hjson Hclient.
  destruct Hinv as [_ Hreport _ Hwidget _].
  assert (Hw : widget s = None).
  { destruct (widget s) as [w|] eqn:Hws; [|done]. destruct (Hwidget w eq_refl). lia. }
  assert (Hm : matchReport s = None).
  { destruct (matchReport s) eqn:Hms; [|done].
    assert (step s = 4) by (by apply Hreport). lia. }
  eexists. cbn -[performMatching str]. rewrite decide_True by done. split; [reflexivity|].
  unfold startJumio. rewrite Hpost. cbn -[performMatching str]. rewrite Hok. cbn -[performMatching str]. rewrite Hjson. cbn -[performMatching str].
  rewrite Hclient. cbn -[performMatching str]. split; [done|].
  intros [f v| | | | |]; cbn -[performMatching str]; rewrite ?Hw; done.
Qed.

(** X20.  When the backend refuses the session, as the relay does without its
    credentials, the page shows that it could not connect, the spinner
    stops, and there is nothing to press. *)
Theorem backend_refusal_is_shown (br : Browser) (s : State) (response : SessionResponse) :
  reachable br s -> step s = 2 ->
  post_session br = Normal response -> ok response = false ->
  exists s', handle br s StartVerification = Some s'
    /\ render s' = [ContainerPanel false (Some (str "Could not connect to Jumio backend."))]
    /\ forall e, handle br s' e = None.
Proof.
  intros Hinv%reachable_invariant H2 Hpost Hok.
  destruct Hinv as [_ Hreport _ Hwidget _].
  assert (Hw : widget s = None).
  { destruct (widget s) as [w|] eqn:Hws; [|done]. destruct (Hwidget w eq_refl). lia. }
  eexists. cbn -[performMatching str]. rewrite decide_True by done. split; [reflexivity|].
  unfold startJumio. rewrite Hpost. cbn -[performMatching str]. rewrite Hok. cbn -[performMatching str]. split; [done|].
  intros [f v| | | | |]; cbn -[performMatching str]; rewrite ?Hw; done.
Qed.

(** X28.  A whole visit, end to end: when the form holds an address, the
    backend opens a session, the vendor script is there and the results
    request (made under the session's [transactionReference]) brings a
    payload, then typing a registration, pressing the two buttons and the
    widget's success lead, where [performMatching] returns a report on that
    registration and that payload (as it does when the payload is
    textual), to step 4 with exactly that report, the spinner stopped and
    no error; and where it throws (the payload is [null], or holds a
    number where a name is expected), to step 3 with no report, the
    spinner stopped and the fixed message. *)
Theorem visit_shows_reconciliation (br : Browser) (r : Reg.t)
    (response : SessionResponse) (data : SessionData)
    (results : ResultsResponse) (payload : json) :
  next_disabled r = false ->
  post_session br = Normal response -> ok response = true ->
  session_json response = Normal (Some data) ->
  JumioClient br = true ->
  get_results br (str "/api/jumio?scanReference=" ++ template (transactionReference data))
    = Normal results ->
  results_json results = Normal payload ->
  exists s,
    run br (typing r ++ [NextStep; StartVerification; WidgetSuccess]) initial = Some s
    /\ regData s = r /\ loading s = false
    /\ match performMatching r (Some payload) with
       | Normal report => step s = 4 /\ matchReport s = Some report /\ error s = None
       | Throw _ =>
           step s = 3 /\ matchReport s = None
           /\ error s = Some (str "Failed to retrieve verification results.")
       end
    /\ (textual payload = true ->
        exists report, performMatching r (Some payload) = Normal report).
Proof.
  intros Hform Hpost Hok Hjson Hclient Hget Hres.
  eexists.
  rewrite run_app, run_typing. cbn [mbind option_bind run handle].
  cbn [step setRegData initial regData]. rewrite decide_True by done. rewrite Hform.
  cbn [mbind option_bind]. cbn [step setStep]. rewrite decide_True by done.
  cbn [mbind option_bind]. unfold startJumio. rewrite Hpost.
  cbn [mbind completion_bind]. rewrite Hok. cbn [negb mbind completion_bind].
  rewrite Hjson. cbn [mbind completion_bind prop]. rewrite Hclient.
  cbn [mbind completion_bind].
  cbn [widget init]. cbn [mbind option_bind scanRef registration regData setError setLoading setStep setRegData].
  unfold fetchJumioData. rewrite Hget. cbn [mbind completion_bind]. rewrite Hres.
  cbn [mbind completion_bind].
  split; [reflexivity|].
  split; [by destruct (performMatching r (Some payload))|].
  split; [by destruct (performMatching r (Some payload))|].
  split; [by destruct (performMatching r (Some payload))|].
  apply performMatching_textual.
Qed.

End Engine.

Lemma one_panel_rendered_witness :
  exists panel, render initial = [panel].
Proof.
  apply (@one_panel_rendered ascii_engine online_browser initial). apply reachable_initial.
Defined.

Lemma verification_needs_address_witness :
  let E := ascii_engine in
  exists s, run online_browser fill_form initial = Some s
    /\ Reg.houseNo (regData s) <> [] /\ Reg.street (regData s) <> []
    /\ Reg.postcode (regData s) <> []
    /\ forall f v, handle online_browser s (Change f v) = None.
Proof.
  eexists. split; [vm_compute; reflexivity|].
  apply (@verification_needs_address ascii_engine online_browser).
  - apply (@run_reachable ascii_engine online_browser fill_form initial);
      [apply reachable_initial|].
    vm_compute. reflexivity.
  - cbn. lia.
Defined.

Lemma shown_report_is_reconciliation_witness :
  let E := ascii_engine in
  exists s report,
    run online_browser visit initial = Some s
    /\ matchReport s = Some report
    /\ step s = 4
    /\ (exists payload, performMatching (regData s) (Some payload) = Normal report)
    /\ length (checks report) = 7
    /\ exists rows,
         render s = [ResultsPanel (passed report)
                       (if passed report then str "Verification Passed"
                        else str "Verification Failed") rows]
         /\ row_field <$> rows = field <$> checks report
         /\ row_verdict <$> rows
            = (fun c => if match_ c then str "Pass" else str "Fail") <$> checks report.
Proof.
  do 2 eexists. split; [vm_compute; reflexivity|]. split; [vm_compute; reflexivity|].
  apply (@shown_report_is_reconciliation ascii_engine online_browser).
  - apply (@run_reachable ascii_engine online_browser visit initial);
      [apply reachable_initial|].
    vm_compute. reflexivity.
  - vm_compute. reflexivity.
Defined.

Lemma no_vendor_script_dead_end_witness :
  let E := ascii_engine in
  exists s, run bare_browser fill_form initial = Some s
    /\ exists s', handle bare_browser s StartVerification = Some s'
      /\ render s' = [ContainerPanel true None]
      /\ forall e, handle bare_browser s' e = None.
Proof.
  eexists. split; [vm_compute; reflexivity|].
  eapply (@no_vendor_script_dead_end ascii_engine bare_browser).
  - apply (@run_reachable ascii_engine bare_browser fill_form initial);
      [apply reachable_initial|].
    vm_compute. reflexivity.
  - reflexivity.
  - reflexivity.
  - reflexivity.
  - reflexivity.
  - reflexivity.
Defined.

Lemma backend_refusal_is_shown_witness :
  let E := ascii_engine in
  exists s, run refused_browser fill_form initial = Some s
    /\ exists s', handle refused_browser s StartVerification = Some s'
      /\ render s' = [ContainerPanel false (Some (str "Could not connect to Jumio backend."))]
      /\ forall e, handle refused_browser s' e = None.
Proof.
  eexists. split; [vm_compute; reflexivity|].
  eapply (@backend_refusal_is_shown ascii_engine refused_browser).
  - apply (@run_reachable ascii_engine refused_browser fill_form initial);
      [apply reachable_initial|].
    vm_compute. reflexivity.
  - reflexivity.
  - reflexivity.
  - reflexivity.
Defined.

Lemma visit_shows_reconciliation_witness :
  let E := ascii_engine in
  exists s,
    run online_browser
      (typing Scenarios.scenario_D_registration
       ++ [NextStep; StartVerification; WidgetSuccess]) initial = Some s
    /\ regData s = Scenarios.scenario_D_registration /\ loading s = false
    /\ match performMatching Scenarios.scenario_D_registration
               (Some Scenarios.scenario_D_payload) with
       | Normal report => step s = 4 /\ matchReport s = Some report /\ error s = None
       | Throw _ =>
           step s = 3 /\ matchReport s = None
           /\ error s = Some (str "Failed to retrieve verification results.")
       end
    /\ (textual Scenarios.scenario_D_payload = true ->
        exists report,
          performMatching Scenarios.scenario_D_registration
            (Some Scenarios.scenario_D_payload) = Normal report).
Proof.
  eapply (@visit_shows_reconciliation ascii_engine online_browser
            Scenarios.scenario_D_registration);
    reflexivity.
Defined.

(** The same visit when the provider sends a number for the city: the
    page stays on step 3 and shows the fixed message. *)
Example visit_with_numbered_city :
  exists s,
    run (E := ascii_engine) numbered_browser
      (typing Scenarios.scenario_D_registration
       ++ [NextStep; StartVerification; WidgetSuccess]) initial = Some s
    /\ step s = 3 /\ matchReport s = None /\ loading s = false
    /\ error s = Some (str "Failed to retrieve verification results.").
Proof. eexists. split; [vm_compute; reflexivity|]. by repeat split. Qed.

End AppFacts.

Module RelayFacts.
Import JS Relay Scenarios Sessions.
Import JSFacts TableFacts RelayBasics.

(** X21.  Whatever the request and the platform, an answer of the relay carries
    one of four status codes. *)
Theorem relay_status_codes (host : Host) (context : Context) (response : Response) :
  onRequest host context = Normal response ->
  status response = 200 \/ status response = 400 \/ status response = 405
  \/ status response = 500.
Proof.
  destruct (negb (truthy (JUMIO_TOKEN (env context)))
            || negb (truthy (JUMIO_SECRET (env context)))) eqn:Hguard.
  { rewrite onRequest_guard; [intros [= <-]; auto|].
    apply orb_true_iff in Hguard as [?%negb_true_iff|?%negb_true_iff]; auto. }
  apply orb_false_iff in Hguard as [Htoken%negb_false_iff Hsecret%negb_false_iff].
  destruct (btoa (template (JUMIO_TOKEN (env context)) ++ str ":"
                  ++ template (JUMIO_SECRET (env context)))) as [auth|e] eqn:Hauth.
  2:{ unfold onRequest. by rewrite Htoken, Hsecret, Hauth. }
  rewrite (onRequest_dispatch host context auth) by done.
  case_decide.
  { unfold try_catch.
    destruct (request_json (request context)) as [body|e]; cbn -[str];
      [|intros [= <-]; auto].
    destruct (get_property body _) as [userEmail|e]; cbn -[str]; [|intros [= <-]; auto].
    destruct (fetch host _) as [upstream|e]; cbn -[str]; [|intros [= <-]; auto].
    destruct (upstream_json upstream) as [data|e]; cbn -[str]; intros [= <-]; auto. }
  case_decide; [|intros [= <-]; auto].
  cbv zeta.
  destruct (negb (truthy _)); [intros [= <-]; auto|].
  destruct (fetch host _) as [upstream|e]; cbn -[str]; [|done].
  destruct (upstream_json upstream) as [data|e]; cbn -[str]; [|done].
  intros [= <-]. auto.
Qed.

Lemma relay_status_codes_witness :
  status missing_keys = 200 \/ status missing_keys = 400 \/ status missing_keys = 405
  \/ status missing_keys = 500.
Proof.
  apply (relay_status_codes offline_host
           {| env := unconfigured; request := get_without_reference |} missing_keys).
  reflexivity.
Defined.

(** X22.  When the credentials hold no character above U+00FF, a POST
    request is always answered: every failure on the way (no JSON in the
    request, a [null] body, the provider out of reach, an answer that is
    not JSON) ends in a 500 response that carries the error's message;
    otherwise the provider's answer is passed on with status 200 as
    [application/json]. *)
Theorem relay_post_always_answers (host : Host) (context : Context) :
  method (request context) = str "POST" ->
  Forall (fun c => (c <= 0xFF)%N)
    (template (JUMIO_TOKEN (env context)) ++ str ":"
     ++ template (JUMIO_SECRET (env context))) ->
  exists response,
    onRequest host context = Normal response
    /\ ((status response = 200 /\ headers response = json_headers
         /\ exists data, body response = Stringified data)
        \/ (status response = 500
            /\ exists text, body response = Stringified (JObject [(str "error", JString text)]))).
Proof.
  intros Hpost Hbytes%btoa_bytes.
  destruct (truthy (JUMIO_TOKEN (env context))) eqn:Htoken;
    [destruct (truthy (JUMIO_SECRET (env context))) eqn:Hsecret|].
  - rewrite (onRequest_dispatch host context _ Htoken Hsecret Hbytes).
    rewrite decide_True by done. unfold try_catch.
    destruct (request_json (request context)) as [body|e]; cbn -[str]; [|eauto 10].
    destruct (get_property body _) as [userEmail|e]; cbn -[str]; [|eauto 10].
    destruct (fetch host _) as [upstream|e]; cbn -[str]; [|eauto 10].
    destruct (upstream_json upstream) as [data|e]; cbn -[str]; eauto 10.
  - rewrite onRequest_guard by auto. unfold missing_keys. cbn -[str]. eauto 10.
  - rewrite onRequest_guard by auto. unfold missing_keys. cbn -[str]. eauto 10.
Qed.

Lemma relay_post_always_answers_witness :
  exists response,
    onRequest answering_host {| env := configured; request := post_request |} = Normal response
    /\ ((status response = 200 /\ headers response = json_headers
         /\ exists data, body response = Stringified data)
        \/ (status response = 500
            /\ exists text, body response = Stringified (JObject [(str "error", JString text)]))).
Proof.
  apply (relay_post_always_answers answering_host
           {| env := configured; request := post_request |}).
  - reflexivity.
  - apply (bool_decide_unpack _). by vm_compute.
Defined.

(** X23.  When the request carries a JSON object and the provider answers the
    session request with JSON, that answer is passed on with status 200.
    The session request goes to [/initiate] with basic authorization made
    of the base64 text [btoa] returns for the two credentials joined by
    a colon, and names the user by the [userEmail] of the body, or
    [guest_user] when that is missing or falsy. *)
Theorem relay_post_passes_on (host : Host) (context : Context)
    (fields : list (jsstring * json)) (auth : jsstring) (upstream : Upstream) (data : json) :
  truthy (JUMIO_TOKEN (env context)) = true ->
  truthy (JUMIO_SECRET (env context)) = true ->
  btoa (template (JUMIO_TOKEN (env context)) ++ str ":"
        ++ template (JUMIO_SECRET (env context))) = Normal auth ->
  method (request context) = str "POST" ->
  request_json (request context) = Normal (JObject fields) ->
  fetch host {|
    fetch_url := str "https://netverify.com/api/v4/initiate";
    fetch_method := str "POST";
    fetch_headers :=
      [(str "Authorization", str "Basic " ++ auth);
       (str "Content-Type", str "application/json");
       (str "User-Agent", str "Cloudflare Worker")];
    fetch_body := Some (JObject [
      (str "customerInternalReference", JString (randomUUID host));
      (str "userReference",
       json_or_else (assoc (str "userEmail") fields) (JString (str "guest_user")));
      (str "successUrl", JString (str "https://example.com/success"));
      (str "errorUrl", JString (str "https://example.com/error"))]) |} = Normal upstream ->
  upstream_json upstream = Normal data ->
  onRequest host context
  = Normal {| body := Stringified data; status := 200; headers := json_headers |}.
Proof.
  intros Htoken Hsecret Hauth Hpost Hbody Hfetch Hjson.
  rewrite (onRequest_dispatch host context auth) by done.
  rewrite decide_True by done. rewrite Hbody. cbn [mbind completion_bind get_property].
  rewrite Hfetch. cbn [mbind completion_bind]. by rewrite Hjson.
Qed.

Lemma relay_post_passes_on_witness :
  onRequest answering_host {| env := configured; request := post_request |}
  = Normal {| body := Stringified session_answer; status := 200; headers := json_headers |}.
Proof.
  apply (relay_post_passes_on answering_host {| env := configured; request := post_request |}
           [(str "userEmail", JString (str "user_test_01"))] (str "dG9rZW46c2VjcmV0")
           {| upstream_json := Normal session_answer |} session_answer);
    reflexivity.
Defined.

(** X24.  A GET request with a reference is passed on to [/transactions/<ref>]
    and the provider's JSON comes back with status 200; but unlike POST
    nothing catches a failure: when the provider is out of reach, or does
    not answer with JSON, the handler itself fails with that error. *)
Theorem relay_get_passes_on_or_fails (host : Host) (context : Context)
    (auth ref : jsstring) :
  truthy (JUMIO_TOKEN (env context)) = true ->
  truthy (JUMIO_SECRET (env context)) = true ->
  btoa (template (JUMIO_TOKEN (env context)) ++ str ":"
        ++ template (JUMIO_SECRET (env context))) = Normal auth ->
  method (request context) = str "GET" ->
  assoc (str "scanReference") (searchParams (request context)) = Some ref ->
  ref <> [] ->
  let call := {|
    fetch_url := str "https://netverify.com/api/v4/transactions/" ++ ref;
    fetch_method := str "GET";
    fetch_headers := [(str "Authorization", str "Basic " ++ auth)];
    fetch_body := None |} in
  (forall e, fetch host call = Throw e -> onRequest host context = Throw e)
  /\ (forall upstream e, fetch host call = Normal upstream ->
        upstream_json upstream = Throw e -> onRequest host context = Throw e)
  /\ (forall upstream data, fetch host call = Normal upstream ->
        upstream_json upstream = Normal data ->
        onRequest host context
        = Normal {| body := Stringified data; status := 200; headers := json_headers |}).
Proof.
  intros Htoken Hsecret Hauth Hget Href Hne call.
  rewrite (onRequest_dispatch host context auth) by done.
  rewrite Hget, Href. rewrite decide_False by discriminate. rewrite decide_True by done.
  cbv zeta.
  assert (negb (truthy (Some ref)) = false) as ->.
  { rewrite truthy_Some. by rewrite bool_decide_eq_true_2. }
  change (str "https://netverify.com/api/v4/transactions/" ++ template (Some ref))
    with (str "https://netverify.com/api/v4/transactions/" ++ ref).
  fold call. repeat split.
  - by intros e ->.
  - intros upstream e -> Hjson. cbn [mbind completion_bind]. by rewrite Hjson.
  - intros upstream data -> Hjson. cbn [mbind completion_bind]. by rewrite Hjson.
Qed.

Lemma relay_get_passes_on_or_fails_witness :
  let context := {| env := configured; request := get_request |} in
  let call := {|
    fetch_url := str "https://netverify.com/api/v4/transactions/" ++ str "ref-1";
    fetch_method := str "GET";
    fetch_headers := [(str "Authorization", str "Basic " ++ str "dG9rZW46c2VjcmV0")];
    fetch_body := None |} in
  (forall e, fetch answering_host call = Throw e -> onRequest answering_host context = Throw e)
  /\ (forall upstream e, fetch answering_host call = Normal upstream ->
        upstream_json upstream = Throw e -> onRequest answering_host context = Throw e)
  /\ (forall upstream data, fetch answering_host call = Normal upstream ->
        upstream_json upstream = Normal data ->
        onRequest answering_host context
        = Normal {| body := Stringified data; status := 200; headers := json_headers |}).
Proof.
  apply (relay_get_passes_on_or_fails answering_host
           {| env := configured; request := get_request |} (str "dG9rZW46c2VjcmV0")
           (str "ref-1"));
    (reflexivity || discriminate).
Defined.

(** X25.  Empty strings count as missing: an empty token or secret gets the
    answer for missing keys, and, under credentials without a character
    above U+00FF, an empty [scanReference] the answer for a missing
    reference. *)
Theorem relay_empty_is_missing (host : Host) (context : Context) :
  (JUMIO_TOKEN (env context) = Some [] \/ JUMIO_SECRET (env context) = Some [] ->
   onRequest host context = Normal missing_keys)
  /\ (truthy (JUMIO_TOKEN (env context)) = true ->
      truthy (JUMIO_SECRET (env context)) = true ->
      Forall (fun c => (c <= 0xFF)%N)
        (template (JUMIO_TOKEN (env context)) ++ str ":"
         ++ template (JUMIO_SECRET (env context))) ->
      method (request context) = str "GET" ->
      assoc (str "scanReference") (searchParams (request context)) = Some [] ->
      exists response,
        onRequest host context = Normal response
        /\ status response = 400 /\ body response = Plain (str "Missing Reference")).
Proof.
  split.
  - intros Hempty. apply onRequest_guard. destruct Hempty as [-> | ->]; auto.
  - intros Htoken Hsecret Hbytes%btoa_bytes Hget Href.
    rewrite (onRequest_dispatch host context _ Htoken Hsecret Hbytes).
    rewrite Hget, Href. rewrite decide_False by discriminate. rewrite decide_True by done.
    by eexists.
Qed.

(** X29.  A credential with a character above U+00FF stops the relay
    altogether: [btoa] is called before the method is looked at and outside
    the [try] of the POST branch, so every request, whatever its method and
    query, makes the handler throw an [InvalidCharacterError], and none is
    answered. *)
Theorem relay_wide_credentials_throw (host : Host) (context : Context) :
  truthy (JUMIO_TOKEN (env context)) = true ->
  truthy (JUMIO_SECRET (env context)) = true ->
  Exists (fun c => (0xFF < c)%N)
    (template (JUMIO_TOKEN (env context)) ++ template (JUMIO_SECRET (env context))) ->
  onRequest host context = Throw InvalidCharacterError.
Proof.
  intros Htoken Hsecret Hwide. unfold onRequest. rewrite Htoken, Hsecret. cbn [negb orb].
  rewrite btoa_wide; [done|].
  apply Exists_app in Hwide as [Hwide|Hwide].
  - apply Exists_app. by left.
  - apply Exists_app. right. apply Exists_app. by right.
Qed.

Lemma relay_wide_credentials_throw_witness :
  onRequest answering_host {| env := misencoded; request := post_request |}
  = Throw InvalidCharacterError.
Proof.
  apply (relay_wide_credentials_throw answering_host
           {| env := misencoded; request := post_request |}); try reflexivity.
  apply (bool_decide_unpack _). by vm_compute.
Defined.

End RelayFacts.
